(** * Carbon-aware spatial router: a shallow embedding and its properties

    Embedded sources:
    - [docs/carbon-aware-ml-experiments/cloud-pt3/spatial-router.py]
      (telemetry gateway, region selection, remote dispatch, campaign loop);
    - [docs/carbon-aware-ml-experiments/lora-pt2/generate_sweep.py]
      (tiers, manifests and the sweep over the grid).

    Conventions.  Python [int] is [Z].  A Python [float] is an IEEE-754
    binary64 value, modelled by the Standard Library's [spec_float]
    (precision 53, [emax] 1024) with its correctly rounded operations.  A
    carbon-intensity reading is whatever value the JSON answer of the data
    source holds in its field: a number ([NaN] and the infinities included,
    which Python's [json] reads), a string, a list or an object; Python's
    [<] on these values is embedded with its [TypeError].  A reading of
    [time.time()] is a float, and so is the difference of two of them.  A
    [dict] is an association list in insertion order with unique keys.

    Console narration ([print]) is left out, and so are the clock readings
    that only feed it; what is computed for the narration is embedded where
    it can raise.  The platform is taken to work: the clock reads a date
    before the year 9999, the console takes the narration, the run log can
    be appended to, the operator does not interrupt, and the interpreter
    does not run into its limits on memory, recursion depth or the digits of
    an [int]. *)

From Stdlib Require Import ZArith QArith String Ascii List Bool Lia.
From Stdlib Require Import SpecFloat DecimalString.
Import ListNotations.

Local Open Scope list_scope.
Local Open Scope string_scope.
Local Open Scope Z_scope.

(** ** Python dictionaries *)

Module Dict.

Definition dict (V : Type) : Type := list (string * V).

(** [d.get(k)] / the lookup behind [d[k]]. *)
Fixpoint get {V} (d : dict V) (k : string) : option V :=
  match d with
  | [] => None
  | (k', v) :: d' => if String.eqb k k' then Some v else get d' k
  end.

(** [d[k] = v]: an existing key keeps its position, a new key goes last. *)
Fixpoint set {V} (d : dict V) (k : string) (v : V) : dict V :=
  match d with
  | [] => [(k, v)]
  | (k', v') :: d' =>
      if String.eqb k k' then (k, v) :: d' else (k', v') :: set d' k v
  end.

(** A dict display [{k1: v1, ...}] or comprehension: successive stores
    into an empty dict. *)
Definition of_items {V} (items : list (string * V)) : dict V :=
  fold_left (fun d kv => set d (fst kv) (snd kv)) items [].

Definition keys {V} (d : dict V) : list string := map fst d.

Definition mem {V} (d : dict V) (k : string) : bool :=
  match get d k with Some _ => true | None => false end.

End Dict.

Import Dict.

(** ** Floats *)

Definition prec : Z := 53.
Definition emax : Z := 1024.

Definition float_of_Z (n : Z) : spec_float := binary_normalize prec emax n 0 false.

(** The float literal whose decimal value is [n / d]: Python reads a literal
    as the binary64 value nearest to it, which is what the correctly rounded
    quotient of two exactly representable integers is. *)
Definition float_lit (n d : Z) : spec_float :=
  SFdiv prec emax (float_of_Z n) (float_of_Z d).

(** The results of running Python code. *)
Inductive PyExc : Type :=
| RuntimeError (msg : string)
| KeyError (key : string)
| TypeError (msg : string)
| ValueError (msg : string)
| OverflowError (msg : string)
| EOFError
| RequestException (msg : string)
| TimeoutExpired (msg : string)
| OtherException (msg : string).

Inductive Res (A : Type) : Type :=
| Ret (a : A)
| Raise (e : PyExc).
Arguments Ret {A} a.
Arguments Raise {A} e.

(** [int(x)] on a float: truncation toward zero. *)
Definition py_int (x : spec_float) : Res Z :=
  match x with
  | S754_zero _ => Ret 0
  | S754_finite s m e =>
      let a := if 0 <=? e then Z.pos m * 2 ^ e else Z.pos m / 2 ^ (- e) in
      Ret (if s then - a else a)
  | S754_infinity _ => Raise (OverflowError "cannot convert float infinity to integer")
  | S754_nan => Raise (ValueError "cannot convert float NaN to integer")
  end.

(** [str(n)] on an int. *)
Definition str_of_Z (n : Z) : string := NilZero.string_of_int (Z.to_int n).

(** *** The format specification [.0e] *)

(** For a positive fraction [n / d], the [k] with [10^k <= n/d < 10^(k+1)]. *)
Fixpoint exp10_up (fuel : nat) (n d k : Z) : Z :=
  match fuel with
  | O => k
  | S fuel' => if 10 ^ (k + 1) * d <=? n then exp10_up fuel' n d (k + 1) else k
  end.

Fixpoint exp10_down (fuel : nat) (n d j : Z) : Z :=
  match fuel with
  | O => j
  | S fuel' => if d <=? n * 10 ^ j then j else exp10_down fuel' n d (j + 1)
  end.

Definition exp10 (n d : Z) : Z :=
  if d <=? n then exp10_up 400 n d 0 else - exp10_down 400 n d 1.

(** [n / d] rounded to the nearest integer, ties to even. *)
Definition round_half_even (n d : Z) : Z :=
  let q := n / d in
  let r := n mod d in
  match 2 * r ?= d with
  | Lt => q
  | Gt => q + 1
  | Eq => if Z.even q then q else q + 1
  end.

Definition two_digits (n : Z) : string :=
  if n <? 10 then "0" ++ str_of_Z n else str_of_Z n.

(** [format(x, '.0e')]: one significant digit, correctly rounded, and an
    exponent of at least two digits. *)
Definition format_0e (x : spec_float) : string :=
  match x with
  | S754_nan => "nan"
  | S754_infinity s => if s then "-inf" else "inf"
  | S754_zero s => if s then "-0e+00" else "0e+00"
  | S754_finite s m e =>
      let n := if 0 <=? e then Z.pos m * 2 ^ e else Z.pos m in
      let d := if 0 <=? e then 1 else 2 ^ (- e) in
      let k := exp10 n d in
      let digit :=
        if 0 <=? k then round_half_even n (d * 10 ^ k)
        else round_half_even (n * 10 ^ (- k)) d in
      let '(digit, k) := if digit =? 10 then (1, k + 1) else (digit, k) in
      (if s then "-" else "") ++ str_of_Z digit ++ "e"
        ++ (if k <? 0 then "-" else "+") ++ two_digits (Z.abs k)
  end.

(** ** Job configurations *)

Record Config : Type := mkConfig {
  cfg_r : Z;
  cfg_alpha : Z;
  cfg_lr : spec_float;
  cfg_dropout : spec_float
}.

Definition lr_1e_4 : spec_float := float_lit 1 10000.
Definition lr_5e_5 : spec_float := float_lit 5 100000.
Definition lr_1e_5 : spec_float := float_lit 1 100000.
Definition dropout_0_05 : spec_float := float_lit 5 100.
Definition dropout_0_1 : spec_float := float_lit 1 10.
Definition dropout_0_15 : spec_float := float_lit 15 100.

Definition EXPERIMENT_CONFIGS : list Config :=
  [ mkConfig 16 32 lr_1e_4 dropout_0_1;
    mkConfig 16 64 lr_1e_4 dropout_0_1;
    mkConfig 16 128 lr_1e_4 dropout_0_1;
    mkConfig 16 32 lr_5e_5 dropout_0_1;
    mkConfig 16 64 lr_5e_5 dropout_0_1;
    mkConfig 16 32 lr_1e_4 dropout_0_05;
    mkConfig 16 32 lr_1e_4 dropout_0_15;
    mkConfig 16 32 lr_1e_5 dropout_0_1;
    mkConfig 32 32 lr_1e_4 dropout_0_1;
    mkConfig 32 32 lr_1e_4 dropout_0_15;
    mkConfig 32 32 lr_5e_5 dropout_0_15;
    mkConfig 32 64 lr_1e_4 dropout_0_05;
    mkConfig 32 64 lr_1e_4 dropout_0_1;
    mkConfig 32 64 lr_1e_4 dropout_0_15;
    mkConfig 32 64 lr_1e_5 dropout_0_1;
    mkConfig 32 128 lr_1e_4 dropout_0_1;
    mkConfig 32 64 lr_5e_5 dropout_0_1;
    mkConfig 32 128 lr_5e_5 dropout_0_1;
    mkConfig 32 128 lr_1e_5 dropout_0_1;
    mkConfig 32 128 lr_1e_4 dropout_0_05;
    mkConfig 32 128 lr_1e_4 dropout_0_15 ].

Definition SUBMISSION_INTERVAL_HOURS : Z := 2.
Definition TOTAL_JOBS : Z := Z.of_nat (length EXPERIMENT_CONFIGS).

(** [generate_job_name]:
    [f"lora-r{r}-a{alpha}-lr{lr:.0e}-d{int(dropout*100)}"]. *)
Definition generate_job_name (config : Config) : Res string :=
  match py_int (SFmul prec emax (cfg_dropout config) (float_of_Z 100)) with
  | Raise e => Raise e
  | Ret d =>
      Ret ("lora-r" ++ str_of_Z (cfg_r config)
           ++ "-a" ++ str_of_Z (cfg_alpha config)
           ++ "-lr" ++ format_0e (cfg_lr config)
           ++ "-d" ++ str_of_Z d)
  end.

(** ** Job classification ([generate_sweep.py]) *)

Module ExperimentTier.
Definition BASELINE : Z := 1.
Definition PROMISING : Z := 2.
Definition LONGSHOT : Z := 3.
End ExperimentTier.

Definition assign_tier (config : Config) : Z * string :=
  let r := cfg_r config in
  let alpha := cfg_alpha config in
  let lr := cfg_lr config in
  let dropout := cfg_dropout config in
  if r =? 16 then
    (ExperimentTier.BASELINE,
     "baseline-variation: r=16 proven effective, needs fast feedback")
  else if r =? 32 then
    if (alpha =? 128) || SFleb (float_lit 15 100) dropout || SFleb lr (float_lit 1 100000) then
      (ExperimentTier.LONGSHOT,
       "longshot: r=32 with aggressive/unconventional settings")
    else
      (ExperimentTier.PROMISING,
       "promising: r=32 with standard hyperparameters")
  else
    (ExperimentTier.PROMISING,
     "promising: r=" ++ str_of_Z r ++ " unusual configuration").

(** ** Strings *)

(** [needle in hay]. *)
Fixpoint contains (needle hay : string) : bool :=
  if String.prefix needle hay then true
  else match hay with
       | EmptyString => false
       | String _ hay' => contains needle hay'
       end.

Definition lower_ascii (c : ascii) : ascii :=
  let n := nat_of_ascii c in
  if (65 <=? n)%nat && (n <=? 90)%nat then ascii_of_nat (n + 32) else c.

(** [s.lower()], on the ASCII letters. *)
Fixpoint lower (s : string) : string :=
  match s with
  | EmptyString => EmptyString
  | String c s' => String (lower_ascii c) (lower s')
  end.

(** [s[-n:]] for a positive [n]: the last [n] characters, all of [s] when it
    is shorter. *)
Definition last_chars (n : nat) (s : string) : string :=
  substring (String.length s - n) n s.

(** ** Values of a JSON answer *)

(** A Python [str]: its code points. *)
Definition PyStr : Type := list N.

Definition codepoints (s : string) : PyStr :=
  map N_of_ascii (list_ascii_of_string s).

(** A value read from JSON other than [None]; a value that may be [None]
    is an [option Reading].  The members of an object have distinct keys. *)
#[warnings="-register-all"]
Inductive Reading : Type :=
| RBool (b : bool)
| RInt (n : Z)
| RFloat (x : spec_float)
| RStr (s : PyStr)
| RList (items : list (option Reading))
| RDict (members : list (PyStr * option Reading)).

(** What a number denotes. *)
Inductive Num : Type :=
| Finite (q : Q)
| Infinite (negative : bool)
| NaN.

Definition num_of_float (x : spec_float) : Num :=
  match x with
  | S754_zero _ => Finite 0
  | S754_finite s m e =>
      let sm := if s then Z.neg m else Z.pos m in
      Finite (if 0 <=? e then inject_Z (sm * 2 ^ e) else Qmake sm (2 ^ Z.to_pos (- e)))
  | S754_infinity s => Infinite s
  | S754_nan => NaN
  end.

(** [bool], [int] and [float] compare with each other as numbers. *)
Definition num_of (v : Reading) : option Num :=
  match v with
  | RBool b => Some (Finite (if b then 1 else 0))
  | RInt n => Some (Finite (inject_Z n))
  | RFloat x => Some (num_of_float x)
  | _ => None
  end.

Definition Qltb (x y : Q) : bool := negb (Qle_bool y x).

(** [x < y], [x <= y] and [x == y] on numbers: exact, and false whenever
    [NaN] takes part. *)
Definition num_ltb (x y : Num) : bool :=
  match x, y with
  | NaN, _ | _, NaN => false
  | Finite p, Finite q => Qltb p q
  | Finite _, Infinite negative => negb negative
  | Infinite negative, Finite _ => negative
  | Infinite n1, Infinite n2 => n1 && negb n2
  end.


Definition num_eqb (x y : Num) : bool :=
  match x, y with
  | Finite p, Finite q => Qeq_bool p q
  | Infinite n1, Infinite n2 => Bool.eqb n1 n2
  | _, _ => false
  end.

Fixpoint str_eqb (s t : PyStr) : bool :=
  match s, t with
  | [], [] => true
  | c :: s', d :: t' => (c =? d)%N && str_eqb s' t'
  | _, _ => false
  end.

(** [s < t] on strings: by code point, a proper prefix first. *)
Fixpoint str_ltb (s t : PyStr) : bool :=
  match s, t with
  | _, [] => false
  | [], _ :: _ => true
  | c :: s', d :: t' => (c <? d)%N || ((c =? d)%N && str_ltb s' t')
  end.

Fixpoint lookup (k : PyStr) (d : list (PyStr * option Reading))
    : option (option Reading) :=
  match d with
  | [] => None
  | (k', v) :: d' => if str_eqb k k' then Some v else lookup k d'
  end.

(** The equality test that the comparison of two lists makes on their
    items: the same object, or [==].  [json] reads every [NaN] as its one
    [NaN] object, so two of them pass the test although [NaN == NaN] is
    false. *)
Fixpoint py_eqb (a b : Reading) {struct a} : bool :=
  match a, b with
  | RFloat S754_nan, RFloat S754_nan => true
  | RStr s, RStr t => str_eqb s t
  | RList l, RList l' =>
      (fix list_eqb (l l' : list (option Reading)) {struct l} : bool :=
         match l, l' with
         | [], [] => true
         | x :: xs, y :: ys =>
             match x, y with
             | None, None => true
             | Some u, Some v => py_eqb u v
             | _, _ => false
             end && list_eqb xs ys
         | _, _ => false
         end) l l'
  | RDict d, RDict d' =>
      (length d =? length d')%nat
      && (fix members_eqb (d : list (PyStr * option Reading)) {struct d} : bool :=
            match d with
            | [] => true
            | (k, x) :: rest =>
                match x, lookup k d' with
                | None, Some None => true
                | Some u, Some (Some v) => py_eqb u v
                | _, _ => false
                end && members_eqb rest
            end) d
  | _, _ =>
      match num_of a, num_of b with
      | Some x, Some y => num_eqb x y
      | _, _ => false
      end
  end.

Definition opt_eqb (x y : option Reading) : bool :=
  match x, y with
  | None, None => true
  | Some u, Some v => py_eqb u v
  | _, _ => false
  end.

Definition type_name (v : option Reading) : string :=
  match v with
  | None => "NoneType"
  | Some (RBool _) => "bool"
  | Some (RInt _) => "int"
  | Some (RFloat _) => "float"
  | Some (RStr _) => "str"
  | Some (RList _) => "list"
  | Some (RDict _) => "dict"
  end.

Definition not_supported (x y : option Reading) : PyExc :=
  TypeError ("'<' not supported between instances of '" ++ type_name x
             ++ "' and '" ++ type_name y ++ "'").

(** [a < b]: numbers with numbers, strings with strings, lists with lists
    (decided by the first pair of items that differ, or by the lengths);
    anything else raises [TypeError]. *)
Fixpoint py_lt (a b : Reading) {struct a} : Res bool :=
  match num_of a, num_of b with
  | Some x, Some y => Ret (num_ltb x y)
  | _, _ =>
      match a, b with
      | RStr s, RStr t => Ret (str_ltb s t)
      | RList l, RList l' =>
          (fix list_lt (l l' : list (option Reading)) {struct l} : Res bool :=
             match l, l' with
             | [], [] => Ret false
             | [], _ :: _ => Ret true
             | _ :: _, [] => Ret false
             | x :: xs, y :: ys =>
                 if opt_eqb x y then list_lt xs ys
                 else match x, y with
                      | Some u, Some v => py_lt u v
                      | _, _ => Raise (not_supported x y)
                      end
             end) l l'
      | _, _ => Raise (not_supported (Some a) (Some b))
      end
  end.

(** The loop of [min(valid, key=valid.get)]: a later item replaces the best
    one when its value is [<] the best value. *)
Fixpoint min_loop (best : string * Reading) (rest : list (string * Reading))
    : Res string :=
  match rest with
  | [] => Ret (fst best)
  | item :: rest' =>
      match py_lt (snd item) (snd best) with
      | Raise e => Raise e
      | Ret true => min_loop item rest'
      | Ret false => min_loop best rest'
      end
  end.

(** [min(valid, key=valid.get)] over a non-empty dict. *)
Definition py_min_key (first : string * Reading) (rest : list (string * Reading))
    : Res string :=
  min_loop first rest.

(** [sorted(items, key=lambda x: x[1])].  CPython sorts a short list by
    inserting each item into the sorted ones before it, and chooses by
    binary search which of them it compares the item with; here the search
    goes from the front.  Both are stable and give the same list on totally
    ordered values, and neither raises on numbers; the order is used for
    the narration only, and on values that are not numbers the report
    raises [TypeError] whichever comparisons the sort makes, in the sort or
    at the first line of the report. *)
Fixpoint insert_by_reading (item : string * Reading)
    (sorted_items : list (string * Reading)) : Res (list (string * Reading)) :=
  match sorted_items with
  | [] => Ret [item]
  | other :: rest =>
      match py_lt (snd item) (snd other) with
      | Raise e => Raise e
      | Ret true => Ret (item :: other :: rest)
      | Ret false =>
          match insert_by_reading item rest with
          | Raise e => Raise e
          | Ret rest' => Ret (other :: rest')
          end
      end
  end.

Fixpoint sort_into (sorted_items items : list (string * Reading))
    : Res (list (string * Reading)) :=
  match items with
  | [] => Ret sorted_items
  | item :: items' =>
      match insert_by_reading item sorted_items with
      | Raise e => Raise e
      | Ret sorted_items' => sort_into sorted_items' items'
      end
  end.

Definition py_sorted (items : list (string * Reading)) : Res (list (string * Reading)) :=
  sort_into [] items.

(** Whether [f"{intensity:6.1f}"] renders: an [int] is converted to a
    [float] first, which overflows from [2^1024 - 2^970] on. *)
Definition format_6_1f (intensity : Reading) : Res unit :=
  match intensity with
  | RBool _ | RFloat _ => Ret tt
  | RInt n =>
      match float_of_Z n with
      | S754_infinity _ => Raise (OverflowError "int too large to convert to float")
      | _ => Ret tt
      end
  | RStr _ => Raise (ValueError "Unknown format code 'f' for object of type 'str'")
  | RList _ => Raise (TypeError "unsupported format string passed to list.__format__")
  | RDict _ => Raise (TypeError "unsupported format string passed to dict.__format__")
  end.

(** ** Dates *)

(** A [datetime]: the microseconds since [datetime.min], the first instant
    of the year 1. *)
Definition Timestamp : Type := Z.

Definition US_PER_HOUR : Z := 3600 * 1000000.
Definition US_PER_DAY : Z := 24 * US_PER_HOUR.

(** [datetime.max], the last microsecond of the year 9999. *)
Definition DATETIME_MAX : Timestamp := 3652059 * US_PER_DAY - 1.

(** The first instant of the year 9999. *)
Definition YEAR_9999 : Timestamp := 3651694 * US_PER_DAY.

(** [timedelta(hours=hours)] for an [int], in microseconds: the days of a
    [timedelta] are a C [int] of magnitude at most 999999999. *)
Definition timedelta_hours (hours : Z) : Res Z :=
  let days := hours / 24 in
  if (days <? -2147483648) || (2147483647 <? days)
  then Raise (OverflowError "Python int too large to convert to C int")
  else if (days <? -999999999) || (999999999 <? days)
  then Raise (OverflowError ("days=" ++ str_of_Z days
                             ++ "; must have magnitude <= 999999999"))
  else Ret (hours * US_PER_HOUR).

(** [date + delta]. *)
Definition datetime_add (date : Timestamp) (delta : Z) : Res Timestamp :=
  let sum := date + delta in
  if (0 <=? sum) && (sum <=? DATETIME_MAX) then Ret sum
  else Raise (OverflowError "date value out of range").

(** ** The world outside the program *)

(** What a 2xx/4xx/5xx response carries, as far as the gateway looks:
    whether [response.json()] parses, whether the parsed value is an object,
    and the field [carbonIntensity] of that object: absent, [null] or a
    value. *)
Inductive Body : Type :=
| BodyNotJson
| BodyNotObject
| BodyObject (carbonIntensity : option (option Reading)).

Inductive HttpOutcome : Type :=
| HttpRaises (msg : string)
| HttpResponse (status_code : Z) (body : Body).

Record CompletedProcess : Type := mkCompleted {
  returncode : Z;
  stdout : string;
  stderr : string
}.

(** What [subprocess.run] does: it returns, it raises [TimeoutExpired] at
    its ceiling, or it raises another [Exception], [OSError] for one. *)
Inductive RunOutcome : Type :=
| RunReturns (result : CompletedProcess)
| RunTimesOut (msg : string)
| RunRaises (msg : string).

(** The pieces the [ssh] argument vector is formatted from; its rendering as
    text is left out. *)
Record SshCommand : Type := mkSsh {
  ssh_target : string;
  ssh_region : string;
  ssh_intensity : option (option Reading);
  ssh_job_id : string;
  ssh_config : Config;
  ssh_detached : bool
}.

Inductive Value : Type :=
| VStr (s : string)
| VInt (n : Z)
| VFloat (x : spec_float)
| VConfig (c : Config)
| VIntensities (d : dict (option Reading)).

Definition LogEntry : Type := dict Value.

(** Every interaction with the outside, in the order it happened; a clock
    reading made for the narration alone leaves no event. *)
Inductive Event : Type :=
| EvNow (t : Timestamp)
| EvTime (t : spec_float)
| EvInput (prompt : string) (answer : option string)
| EvHttp (zone : string) (outcome : HttpOutcome)
| EvSleep (seconds : Q)
| EvRun (cmd : SshCommand) (timeout : Z) (outcome : RunOutcome)
| EvAppend (path : string) (entry : LogEntry).

(** The outside answers the [n]-th interaction of a run; [strftime] and
    [isoformat] are the renderings of the [datetime] library.  The clock
    reads a date before the year 9999. *)
Record Env : Type := mkEnv {
  env_now : nat -> Timestamp;
  env_now_range : forall n, 0 <= env_now n < YEAR_9999;
  env_time : nat -> spec_float;
  env_input : nat -> string -> option string;
  env_http : nat -> string -> HttpOutcome;
  env_run : nat -> SshCommand -> Z -> RunOutcome;
  strftime : string -> Timestamp -> string;
  isoformat : Timestamp -> string
}.

(** ** Computations: a history of events, a result or an exception *)

Definition World : Type := list Event.
Definition M (A : Type) : Type := World -> Res A * World.

Definition ret {A} (a : A) : M A := fun w => (Ret a, w).
Definition raise {A} (e : PyExc) : M A := fun w => (Raise e, w).
Definition bind {A B} (c : M A) (k : A -> M B) : M B :=
  fun w => match c w with
           | (Ret a, w') => k a w'
           | (Raise e, w') => (Raise e, w')
           end.
Definition lift {A} (r : Res A) : M A := fun w => (r, w).

(** [try: body except ...]: [handler e] is the clause that matches [e], if
    any. *)
Definition try_except {A} (body : M A) (handler : PyExc -> option (M A)) : M A :=
  fun w => match body w with
           | (Ret a, w') => (Ret a, w')
           | (Raise e, w') =>
               match handler e with
               | Some h => h w'
               | None => (Raise e, w')
               end
           end.

Declare Scope py_scope.
Delimit Scope py_scope with py.
Notation "x <- c ;; k" := (bind c (fun x => k))
  (at level 100, c at next level, right associativity) : py_scope.
Notation "c ;; k" := (bind c (fun _ => k))
  (at level 100, right associativity) : py_scope.
Local Open Scope py_scope.

Definition exc_str (e : PyExc) : string :=
  match e with
  | RuntimeError msg | TypeError msg | ValueError msg | OverflowError msg
  | RequestException msg | TimeoutExpired msg | OtherException msg => msg
  | KeyError key => "'" ++ key ++ "'"
  | EOFError => ""
  end.

(** The items [(k, v)] with [v is not None]. *)
Fixpoint successes (items : list (string * option Reading)) : list (string * Reading) :=
  match items with
  | [] => []
  | (k, Some v) :: items' => (k, v) :: successes items'
  | (_, None) :: items' => successes items'
  end.

Record Region : Type := mkRegion {
  zone : string;
  ip : string;
  description : string
}.

Definition SSH_USER : string := "root".

(** The region table as the source has it. *)
Definition REGIONS_source : list (string * Region) :=
  [ ("quebec", mkRegion "CA-QC" "100.65.196.126" "Quebec, Canada - Hydro-dominated grid");
    ("ohio", mkRegion "US-MIDA-PJM" "100.x.x.x" "Ohio, USA - Fossil-heavy grid (baseline)");
    ("nordic", mkRegion "NO" "100.80.123.80" "Nordic - Hydro-dominated grid") ].

Section Router.

Variable env : Env.

(** The display the operator wrote for [REGIONS]. *)
Variable regions_display : list (string * Region).

Definition REGIONS : dict Region := of_items regions_display.

(** *** Interactions *)

Definition now : M Timestamp :=
  fun w => let t := env_now env (length w) in (Ret t, (w ++ [EvNow t])%list).

Definition time : M spec_float :=
  fun w => let t := env_time env (length w) in (Ret t, (w ++ [EvTime t])%list).

Definition sleep (seconds : Q) : M unit :=
  fun w => (Ret tt, (w ++ [EvSleep seconds])%list).

Definition input (prompt : string) : M string :=
  fun w => let a := env_input env (length w) prompt in
           (match a with Some s => Ret s | None => Raise EOFError end,
            (w ++ [EvInput prompt a])%list).

Definition append_line (path : string) (entry : LogEntry) : M unit :=
  fun w => (Ret tt, (w ++ [EvAppend path entry])%list).

(** [requests.get(..., params={"zone": zone}, timeout=10)]. *)
Definition requests_get (zone : string) : M (Z * Body) :=
  fun w => let o := env_http env (length w) zone in
           (match o with
            | HttpRaises msg => Raise (RequestException msg)
            | HttpResponse status body => Ret (status, body)
            end, (w ++ [EvHttp zone o])%list).

(** [response.raise_for_status()]: [HTTPError], a [RequestException], on a
    4xx or 5xx status. *)
Definition raise_for_status (response : Z * Body) : M unit :=
  let status := fst response in
  if (400 <=? status) && (status <? 600)
  then raise (RequestException "HTTPError") else ret tt.

(** [response.json()]: the [JSONDecodeError] of [requests], a
    [RequestException], on a body that is not JSON. *)
Definition response_json (response : Z * Body) : M Body :=
  match snd response with
  | BodyNotJson => raise (RequestException "JSONDecodeError")
  | body => ret body
  end.

(** [body[key]] on the parsed body: [KeyError] when an object lacks the
    key, [TypeError] when the body is not an object. *)
Definition subscript_body (body : Body) (key : string) : M (option Reading) :=
  match body with
  | BodyObject (Some v) => ret v
  | BodyObject None => raise (KeyError key)
  | _ => raise (TypeError "not subscriptable by str")
  end.

(** [subprocess.run(ssh_cmd, capture_output=True, text=True, timeout=...)]. *)
Definition subprocess_run (cmd : SshCommand) (timeout : Z) : M CompletedProcess :=
  fun w => let o := env_run env (length w) cmd timeout in
           (match o with
            | RunReturns result => Ret result
            | RunTimesOut msg => Raise (TimeoutExpired msg)
            | RunRaises msg => Raise (OtherException msg)
            end, (w ++ [EvRun cmd timeout o])%list).

(** *** Carbon intensity API *)

Definition get_carbon_intensity (zone : string) : M (option Reading) :=
  try_except
    (response <- requests_get zone ;;
     raise_for_status response ;;
     body <- response_json response ;;
     subscript_body body "carbonIntensity")
    (fun e => match e with
              | RequestException _ => Some (ret None)
              | _ => None
              end).

Fixpoint for_regions (items : list (string * Region))
    (intensities : dict (option Reading)) : M (dict (option Reading)) :=
  match items with
  | [] => ret intensities
  | (region, config) :: items' =>
      intensity <- get_carbon_intensity (zone config) ;;
      let intensities := set intensities region intensity in
      sleep (1 # 2) ;;
      for_regions items' intensities
  end.

Definition get_all_intensities : M (dict (option Reading)) :=
  for_regions REGIONS [].

Definition pick_cleanest_region : M (string * dict (option Reading)) :=
  intensities <- get_all_intensities ;;
  let valid := of_items (successes intensities) in
  match valid with
  | [] => raise (RuntimeError "Could not get carbon intensity for any region!")
  | first :: rest =>
      cleanest <- lift (py_min_key first rest) ;;
      ret (cleanest, intensities)
  end.

(** [REGIONS[region]]. *)
Definition subscript_regions (region : string) : M Region :=
  match get REGIONS region with
  | Some region_config => ret region_config
  | None => raise (KeyError region)
  end.

(** The loop over [sorted_regions]: the status marker compares the reading
    with 100 and, when it is not below, with 300; the line formats it. *)
Fixpoint report_lines (sorted_regions : list (string * Reading)) : M unit :=
  match sorted_regions with
  | [] => ret tt
  | (region, intensity) :: rest =>
      config <- subscript_regions region ;;
      status <-
        (green <- lift (py_lt intensity (RInt 100)) ;;
         if green then ret "green"
         else (yellow <- lift (py_lt intensity (RInt 300)) ;;
               ret (if yellow then "yellow" else "red"))) ;;
      lift (format_6_1f intensity) ;;
      report_lines rest
  end.

(** The report goes to the console; what is embedded is what it computes
    on the way, and so what it can raise. *)
Definition print_intensity_report (intensities : dict (option Reading))
    (selected : option string) : M unit :=
  sorted_regions <- lift (py_sorted (successes intensities)) ;;
  report_lines sorted_regions.

(** *** Job submission *)

(** The [log_entry] display both submitters start from. *)
Definition submission_entry (timestamp : Timestamp) (job_index : Z)
    (job_id job_name : string) (config : Config) (region : string)
    (intensities : dict (option Reading)) (region_config : Region)
    (status : string) : LogEntry :=
  of_items
    [ ("timestamp", VStr (isoformat env timestamp));
      ("job_index", VInt job_index);
      ("job_id", VStr job_id);
      ("job_name", VStr job_name);
      ("config", VConfig config);
      ("selected_region", VStr region);
      ("intensities", VIntensities (of_items intensities));
      ("region_zone", VStr (zone region_config));
      ("status", VStr status) ].

Definition submit_job_ssh (region : string) (config : Config)
    (intensities : dict (option Reading)) (job_index : Z) : M LogEntry :=
  job_name <- lift (generate_job_name config) ;;
  stamp <- now ;;
  let job_id := job_name ++ "-" ++ strftime env "%Y%m%d%H%M%S" stamp in
  region_config <- subscript_regions region ;;
  let intensity := get intensities region in
  let ssh_cmd :=
    mkSsh (SSH_USER ++ "@" ++ ip region_config) region intensity job_id config false in
  timestamp <- now ;;
  let log_entry :=
    submission_entry timestamp job_index job_id job_name config region
      intensities region_config "submitted" in
  start_time <- time ;;
  try_except
    (result <- subprocess_run ssh_cmd (4 * 3600) ;;
     end_time <- time ;;
     let elapsed := SFsub prec emax end_time start_time in
     let log_entry := set log_entry "elapsed_seconds" (VFloat elapsed) in
     let log_entry :=
       set log_entry "elapsed_hours" (VFloat (SFdiv prec emax elapsed (float_of_Z 3600))) in
     if returncode result =? 0 then
       ret (set log_entry "status" (VStr "completed"))
     else
       let log_entry := set log_entry "status" (VStr "failed") in
       ret (set log_entry "error"
              (VStr (match stderr result with
                     | EmptyString => "Unknown error"
                     | err => last_chars 1000 err
                     end))))
    (fun e => match e with
              | TimeoutExpired _ =>
                  Some (ret (set log_entry "status" (VStr "timeout")))
              | _ =>
                  let log_entry := set log_entry "status" (VStr "error") in
                  Some (ret (set log_entry "error" (VStr (exc_str e))))
              end).

Definition submit_job_async (region : string) (config : Config)
    (intensities : dict (option Reading)) (job_index : Z) : M LogEntry :=
  job_name <- lift (generate_job_name config) ;;
  stamp <- now ;;
  let job_id := job_name ++ "-" ++ strftime env "%Y%m%d%H%M%S" stamp in
  region_config <- subscript_regions region ;;
  let intensity := get intensities region in
  let ssh_cmd :=
    mkSsh (SSH_USER ++ "@" ++ ip region_config) region intensity job_id config true in
  timestamp <- now ;;
  let log_entry :=
    submission_entry timestamp job_index job_id job_name config region
      intensities region_config "submitted_async" in
  try_except
    (result <- subprocess_run ssh_cmd 60 ;;
     if returncode result =? 0 then
       ret log_entry
     else
       let log_entry := set log_entry "status" (VStr "submit_failed") in
       ret (set log_entry "error" (VStr (stderr result))))
    (fun e =>
       let log_entry := set log_entry "status" (VStr "error") in
       Some (ret (set log_entry "error" (VStr (exc_str e))))).

(** *** Experiment runner *)

(** The [while elapsed < total_seconds] loop; [fuel] bounds its
    iterations. *)
Fixpoint wait_loop (fuel : nat) (total_seconds chunk_seconds elapsed : Z) : M unit :=
  match fuel with
  | O => ret tt
  | S fuel' =>
      if elapsed <? total_seconds then
        let sleep_time := Z.min chunk_seconds (total_seconds - elapsed) in
        sleep (inject_Z sleep_time) ;;
        wait_loop fuel' total_seconds chunk_seconds (elapsed + sleep_time)
      else ret tt
  end.

(** [datetime.now()] where only the narration reads the clock. *)
Definition clock : M Timestamp :=
  fun w => (Ret (env_now env (length w)), w).

(** [hours] is the [int] the campaign passes.  The time of the next
    submission is computed for the narration. *)
Definition wait_until_next_submission (hours : Z) : M unit :=
  current <- clock ;;
  delta <- lift (timedelta_hours hours) ;;
  next_time <- lift (datetime_add current delta) ;;
  let total_seconds := hours * 3600 in
  let chunk_seconds := 600 in
  wait_loop (Z.to_nat total_seconds) total_seconds chunk_seconds 0.

Definition Submitter : Type :=
  string -> Config -> dict (option Reading) -> Z -> M LogEntry.

(** The entry written when no region has telemetry. *)
Definition skipped_entry (timestamp : Timestamp) (i : Z) (config : Config) : LogEntry :=
  of_items
    [ ("timestamp", VStr (isoformat env timestamp));
      ("job_index", VInt i);
      ("config", VConfig config);
      ("status", VStr "skipped_api_error") ].

(** One iteration of [for i, config in enumerate(EXPERIMENT_CONFIGS)];
    [total] is [len(EXPERIMENT_CONFIGS)].  The [try] statement yields the
    picked pair, or [None] when its handler ended in [continue]. *)
Definition tick (submit_func : Submitter) (log_file : string) (total : Z)
    (i : Z) (config : Config) : M unit :=
  attempt <-
    try_except
      (picked <- pick_cleanest_region ;; ret (Some picked))
      (fun e => match e with
                | RuntimeError _ =>
                    Some (timestamp <- now ;;
                          append_line log_file (skipped_entry timestamp i config) ;;
                          (if i <? total - 1
                           then wait_until_next_submission SUBMISSION_INTERVAL_HOURS
                           else ret tt) ;;
                          ret None)
                | _ => None
                end) ;;
  match attempt with
  | None => ret tt
  | Some (region, intensities) =>
      print_intensity_report intensities (Some region) ;;
      log_entry <- submit_func region config intensities i ;;
      append_line log_file log_entry ;;
      if i <? total - 1
      then wait_until_next_submission SUBMISSION_INTERVAL_HOURS
      else ret tt
  end.

Fixpoint for_jobs (submit_func : Submitter) (log_file : string) (total : Z)
    (i : Z) (configs : list Config) : M unit :=
  match configs with
  | [] => ret tt
  | config :: configs' =>
      tick submit_func log_file total i config ;;
      for_jobs submit_func log_file total (i + 1) configs'
  end.

Definition log_path (experiment_id : string) : string :=
  "experiment_logs/experiment_" ++ experiment_id ++ ".jsonl".

(** [check_intensity_only]: the snapshot, the cleanest region if there is
    one, and the report. *)
Definition check_intensity_only : M unit :=
  intensities <- get_all_intensities ;;
  let valid := of_items (successes intensities) in
  cleanest <-
    match valid with
    | [] => ret None
    | first :: rest => cleanest <- lift (py_min_key first rest) ;; ret (Some cleanest)
    end ;;
  print_intensity_report intensities cleanest.

Definition run_experiment (async_mode : bool) : M unit :=
  stamp <- now ;;
  let experiment_id := strftime env "%Y%m%d_%H%M%S" stamp in
  let log_file := log_path experiment_id in
  let unconfigured :=
    filter (fun rc => contains "100.x.x.x" (ip (snd rc))) REGIONS in
  proceed <-
    match unconfigured with
    | [] => ret true
    | _ :: _ =>
        response <- input "Continue anyway? (y/N): " ;;
        ret (String.eqb (lower response) "y")
    end ;;
  if proceed then
    let submit_func := if async_mode then submit_job_async else submit_job_ssh in
    for_jobs submit_func log_file TOTAL_JOBS 0 EXPERIMENT_CONFIGS
  else ret tt.

End Router.

(** ** Reading a history *)

Definition is_run (ev : Event) : bool :=
  match ev with EvRun _ _ _ => true | _ => false end.

Definition is_input (ev : Event) : bool :=
  match ev with EvInput _ _ => true | _ => false end.

(** The entries appended to the run log, oldest first. *)
Fixpoint log_of (w : World) : list LogEntry :=
  match w with
  | [] => []
  | EvAppend _ entry :: w' => entry :: log_of w'
  | _ :: w' => log_of w'
  end.

(** The total time slept. *)
Fixpoint slept (w : World) : Q :=
  match w with
  | [] => 0
  | EvSleep s :: w' => s + slept w'
  | _ :: w' => slept w'
  end.

(** Twelve ten-minute sleeps: the wait between two submissions. *)
Definition cadence_wait : World := repeat (EvSleep (inject_Z 600)) 12.

(** ** Concrete environments *)

(** A clock that reads the microsecond [n] at the [n]-th interaction, and
    stops at the end of its range. *)
Definition quiet_clock (n : nat) : Timestamp := Z.min (Z.of_nat n) (YEAR_9999 - 1).

Definition quiet_clock_range (n : nat) : 0 <= quiet_clock n < YEAR_9999.
Proof.
  unfold quiet_clock, YEAR_9999, US_PER_DAY, US_PER_HOUR. lia.
Qed.

(** An environment whose [time.time()] reads [times n] at the [n]-th
    interaction. *)
Definition timed_env (times : nat -> spec_float) (http : string -> HttpOutcome)
    (run : RunOutcome) (answer : option string) : Env :=
  mkEnv quiet_clock quiet_clock_range times
        (fun _ _ => answer) (fun _ z => http z) (fun _ _ _ => run)
        (fun _ t => str_of_Z t) (fun t => str_of_Z t).

Definition quiet_env (http : string -> HttpOutcome) (run : RunOutcome)
    (answer : option string) : Env :=
  timed_env (fun n => float_of_Z (Z.of_nat n)) http run answer.

Definition reading (v : Reading) : HttpOutcome :=
  HttpResponse 200 (BodyObject (Some (Some v))).

(** Scenario A of the specification: quebec 40, ohio 350, nordic 25. *)
Definition http_scenario_A (z : string) : HttpOutcome :=
  if String.eqb z "CA-QC" then reading (RInt 40)
  else if String.eqb z "US-MIDA-PJM" then reading (RInt 350)
  else reading (RInt 25).

(** Scenario B: every query fails in transport. *)
Definition http_all_fail (z : string) : HttpOutcome := HttpRaises "connection refused".

(** A well-formed JSON object without the field [carbonIntensity]. *)
Definition http_no_field (z : string) : HttpOutcome := HttpResponse 200 (BodyObject None).

Definition run_ok : RunOutcome := RunReturns (mkCompleted 0 "" "").

(** The snapshot of scenario A. *)
Definition snapshot_A : dict (option Reading) :=
  [("quebec", Some (RInt 40)); ("ohio", Some (RInt 350)); ("nordic", Some (RInt 25))].

(** ** Outcome classifications *)

Definition status_is (entry : LogEntry) (status : string) : Prop :=
  get entry "status" = Some (VStr status).

(** Blocking dispatch as the specification words it: on a nonzero exit the
    error excerpt is the last 1000 characters of the captured stderr. *)
Definition blocking_outcome_as_stated (entry : LogEntry) (o : RunOutcome) : Prop :=
  match o with
  | RunReturns result =>
      if returncode result =? 0 then status_is entry "completed"
      else status_is entry "failed"
           /\ get entry "error" = Some (VStr (last_chars 1000 (stderr result)))
  | RunTimesOut _ => status_is entry "timeout"
  | RunRaises _ => True
  end.

(** Blocking dispatch as the source classifies it. *)
Definition blocking_outcome (entry : LogEntry) (o : RunOutcome) : Prop :=
  match o with
  | RunReturns result =>
      if returncode result =? 0 then
        status_is entry "completed" /\ get entry "error" = None
      else
        status_is entry "failed"
        /\ get entry "error" =
             Some (VStr (match stderr result with
                         | EmptyString => "Unknown error"
                         | err => last_chars 1000 err
                         end))
  | RunTimesOut _ => status_is entry "timeout" /\ get entry "error" = None
  | RunRaises msg => status_is entry "error" /\ get entry "error" = Some (VStr msg)
  end.


(** The one [ssh] run of a dispatch is the run of [cmd] under [timeout]
    that the outside answered with [outcome]. *)
Definition runs_once (added : World) (cmd : SshCommand) (timeout : Z)
    (outcome : RunOutcome) : Prop :=
  filter is_run added = [EvRun cmd timeout outcome].

(** The command line of a dispatch: the address of the region, the region,
    its reading, the job and whether the job is detached. *)
Definition ssh_command (env : Env) (rc : Region) (region : string)
    (intensities : dict (option Reading)) (name : string) (config : Config)
    (detached : bool) (w : World) : SshCommand :=
  mkSsh (SSH_USER ++ "@" ++ ip rc) region (get intensities region)
        (name ++ "-" ++ strftime env "%Y%m%d%H%M%S" (env_now env (length w)))
        config detached.

(** Blocking dispatch runs [ssh] once under the ceiling, and its record
    classifies what the outside answered to that run. *)
Definition blocking_dispatch_claim (classified : LogEntry -> RunOutcome -> Prop) : Prop :=
  forall env regions_display region config intensities job_index w name rc,
    generate_job_name config = Ret name ->
    get (REGIONS regions_display) region = Some rc ->
    let cmd := ssh_command env rc region intensities name config false w in
    let outcome := env_run env (3 + length w) cmd (4 * 3600) in
    exists entry added,
      submit_job_ssh env regions_display region config intensities job_index w
        = (Ret entry, (w ++ added)%list)
      /\ runs_once added cmd (4 * 3600) outcome
      /\ classified entry outcome.

(** The boundary as the specification words it: a run that the dispatcher
    measured at the ceiling or beyond is never recorded as completed. *)
Definition ceiling_boundary_as_stated : Prop :=
  forall env regions_display region config intensities job_index w entry w' elapsed,
    submit_job_ssh env regions_display region config intensities job_index w
      = (Ret entry, w') ->
    get entry "elapsed_seconds" = Some (VFloat elapsed) ->
    SFleb (float_of_Z (4 * 3600)) elapsed = true ->
    ~ status_is entry "completed".

(** A clock on which the blocking run of the first job starts at 14400 and
    ends at 28800: exactly four hours. *)
Definition four_hour_times (n : nat) : spec_float := float_of_Z (7200 * Z.of_nat n).

(** A failing remote command that wrote nothing to stderr. *)
Definition run_fails_silently : RunOutcome := RunReturns (mkCompleted 1 "" "").

(** Scenario C: exit code 1 with [CUDA out of memory] on stderr. *)
Definition run_out_of_memory : RunOutcome :=
  RunReturns (mkCompleted 1 "" "CUDA out of memory").


Definition config_0 : Config := mkConfig 16 32 lr_1e_4 dropout_0_1.

(** The fields every record of the dispatcher carries. *)
Definition has_submission_fields (entry : LogEntry) (job_index : Z)
    (config : Config) (region : string) (intensities : dict (option Reading)) : Prop :=
  (exists ts, get entry "timestamp" = Some (VStr ts))
  /\ get entry "job_index" = Some (VInt job_index)
  /\ get entry "config" = Some (VConfig config)
  /\ get entry "selected_region" = Some (VStr region)
  /\ get entry "intensities" = Some (VIntensities (of_items intensities))
  /\ (exists status, get entry "status" = Some (VStr status)).

(** The elapsed duration: both of its fields are present. *)
Definition has_elapsed (entry : LogEntry) : bool :=
  mem entry "elapsed_seconds" && mem entry "elapsed_hours".

(** The dispatcher's records as the specification words them: every one
    carries an elapsed duration. *)
Definition records_carry_elapsed_as_stated : Prop :=
  forall env regions_display (async_mode : bool) region config intensities job_index
         w entry w',
    (if async_mode then submit_job_async env regions_display
     else submit_job_ssh env regions_display)
      region config intensities job_index w = (Ret entry, w') ->
    has_submission_fields entry job_index config region intensities
    /\ has_elapsed entry = true.

(** ** What a computation adds to the history *)

(** [emits P Q c]: run from any history, [c] only appends events, each of
    them satisfies [P], and a returned value satisfies [Q]. *)
Definition emits {A} (P : Event -> Prop) (Q : A -> Prop) (c : M A) : Prop :=
  forall w, exists added,
    snd (c w) = (w ++ added)%list
    /\ Forall P added
    /\ (forall a, fst (c w) = Ret a -> Q a).

Definition any {A} (_ : A) : Prop := True.

Definition telemetry_event (ev : Event) : Prop :=
  match ev with
  | EvHttp _ _ | EvSleep _ => True
  | _ => False
  end.

(** The events of submitting [config]: clock readings and [ssh] runs for
    that configuration. *)
Definition submit_event (config : Config) (ev : Event) : Prop :=
  match ev with
  | EvNow _ | EvTime _ => True
  | EvRun cmd _ _ => ssh_config cmd = config
  | _ => False
  end.

(** The events of the tick of job [i]: no prompt, [ssh] runs for its
    configuration only, log records with its index only. *)
Definition tick_event (i : Z) (config : Config) (ev : Event) : Prop :=
  match ev with
  | EvInput _ _ => False
  | EvRun cmd _ _ => ssh_config cmd = config
  | EvAppend _ entry => get entry "job_index" = Some (VInt i)
  | _ => True
  end.

(** The events of the ticks for the jobs at the positions after [k] of
    [configs]. *)
Definition later_event (configs : list Config) (k : nat) (ev : Event) : Prop :=
  exists j config,
    (k < j)%nat /\ nth_error configs j = Some config
    /\ tick_event (Z.of_nat j) config ev.

(** The sleeps of the waiting loop, as a list. *)
Fixpoint sleep_times (fuel : nat) (total_seconds chunk_seconds elapsed : Z) : list Z :=
  match fuel with
  | O => []
  | S fuel' =>
      if elapsed <? total_seconds then
        let sleep_time := Z.min chunk_seconds (total_seconds - elapsed) in
        sleep_time :: sleep_times fuel' total_seconds chunk_seconds (elapsed + sleep_time)
      else []
  end.

Definition sleep_events (times : list Z) : World :=
  map (fun s => EvSleep (inject_Z s)) times.

Definition wait_if_not_last (total i : Z) : World :=
  if i <? total - 1 then cadence_wait else [].

(** ** The campaign's claims, as worded *)

(** The record of a tick without telemetry, with the status text left
    open. *)
Definition skip_record_claim (status : string) : Prop :=
  forall env regions_display submit_func log_file total i config w msg w1,
    pick_cleanest_region env regions_display w = (Raise (RuntimeError msg), w1) ->
    exists entry w2,
      tick env regions_display submit_func log_file total i config w = (Ret tt, w2)
      /\ log_of w2 = (log_of w ++ [entry])%list
      /\ get entry "status" = Some (VStr status)
      /\ get entry "job_index" = Some (VInt i)
      /\ get entry "config" = Some (VConfig config)
      /\ get entry "selected_region" = None
      /\ get entry "intensities" = None.

Definition has_placeholder (regions : dict Region) : Prop :=
  exists region config,
    In (region, config) regions /\ contains "100.x.x.x" (ip config) = true.

Definition startup_event (ev : Event) : Prop :=
  match ev with EvNow _ => True | _ => False end.

(** Startup as the specification words it: an empty or placeholder region
    table ends the run before any prompt, query or record. *)
Definition startup_rejection_as_stated : Prop :=
  forall env regions_display async_mode w,
    REGIONS regions_display = [] \/ has_placeholder (REGIONS regions_display) ->
    exists res added,
      run_experiment env regions_display async_mode w = (res, (w ++ added)%list)
      /\ Forall startup_event added.

Definition nordic : Region :=
  mkRegion "NO" "100.80.123.80" "Nordic - Hydro-dominated grid".

(** ** Region selection, as worded *)



(** A [bool], an [int] or a [float], [NaN] included. *)
Definition is_number (v : Reading) : bool :=
  match num_of v with
  | Some _ => true
  | None => false
  end.

(** [a < b] and [a <= b] between two numbers. *)
Definition reading_ltb (a b : Reading) : bool :=
  match num_of a, num_of b with
  | Some x, Some y => num_ltb x y
  | _, _ => false
  end.





(** Answers in which ohio reads the text [high]. *)
Definition http_text (z : string) : HttpOutcome :=
  if String.eqb z "CA-QC" then reading (RInt 40)
  else if String.eqb z "US-MIDA-PJM" then reading (RStr (codepoints "high"))
  else reading (RInt 25).

(** ** Further readings of the gateway and of a history *)

(** The answers the gateway turns into a reading or the failure marker:
    everything except an accepted response whose body is not an object or
    lacks the field. *)
Definition handledb (o : HttpOutcome) : bool :=
  match o with
  | HttpRaises _ => true
  | HttpResponse status body =>
      ((400 <=? status) && (status <? 600))
      || match body with
         | BodyNotJson | BodyObject (Some _) => true
         | _ => false
         end
  end.

(** The reading a handled answer gives. *)
Definition reading_of (o : HttpOutcome) : option Reading :=
  match o with
  | HttpResponse status (BodyObject (Some v)) =>
      if (400 <=? status) && (status <? 600) then None else v
  | _ => None
  end.

(** The answers to a sweep over [items] that starts with interaction [n]:
    each region takes two interactions, its query and its sleep. *)
Fixpoint sweep_outcomes (env : Env) (n : nat) (items : list (string * Region))
    : list HttpOutcome :=
  match items with
  | [] => []
  | (_, config) :: items' =>
      env_http env n (zone config) :: sweep_outcomes env (2 + n) items'
  end.

Definition sweep_events (items : list (string * Region)) (outcomes : list HttpOutcome)
    : World :=
  flat_map (fun ro => [EvHttp (zone (snd (fst ro))) (snd ro); EvSleep (1 # 2)])
           (combine items outcomes).

Definition sweep_snapshot (items : list (string * Region)) (outcomes : list HttpOutcome)
    : dict (option Reading) :=
  map (fun ro => (fst (fst ro), reading_of (snd ro))) (combine items outcomes).

(** The two exceptions the gateway lets through. *)
Definition gateway_exc (e : PyExc) : Prop :=
  e = KeyError "carbonIntensity" \/ e = TypeError "not subscriptable by str".

(** What telemetry that is not a reading makes a tick raise: what the
    gateway lets through, the [TypeError] of a comparison in the selection
    or in the report, and the [OverflowError] of an [int] that the report
    cannot format. *)
Definition telemetry_exc (e : PyExc) : Prop :=
  e = KeyError "carbonIntensity"
  \/ (exists msg, e = TypeError msg)
  \/ e = OverflowError "int too large to convert to float".

(** A reading the report can print: a number, and as an [int] one that
    fits a float. *)
Definition printable (v : Reading) : bool :=
  match v with
  | RBool _ | RFloat _ => true
  | RInt n => match float_of_Z n with S754_infinity _ => false | _ => true end
  | _ => false
  end.

(** Answers the gateway turns into the failure marker or into a number
    that the report can print. *)
Definition well_formed (o : HttpOutcome) : bool :=
  match o with
  | HttpRaises _ => true
  | HttpResponse status body =>
      ((400 <=? status) && (status <? 600))
      || match body with
         | BodyNotJson | BodyObject (Some None) => true
         | BodyObject (Some (Some v)) => printable v
         | _ => false
         end
  end.

(** An [int] reading beyond the floats: 10^400. *)
Definition http_huge (z : string) : HttpOutcome := reading (RInt (10 ^ 400)).

(** Events that are neither a record, a prompt nor a sleep of the waiting
    loop: queries and their half-second sleeps, clock readings, [ssh] runs. *)
Definition quiet_event (ev : Event) : Prop :=
  match ev with
  | EvAppend _ _ | EvInput _ _ => False
  | EvSleep s => s = (1 # 2)%Q
  | _ => True
  end.

(** A ten-minute sleep of the waiting loop. *)
Definition is_chunk_sleep (ev : Event) : bool :=
  match ev with
  | EvSleep s => Qeq_bool s (inject_Z 600)
  | _ => false
  end.

Definition is_http (ev : Event) : bool :=
  match ev with EvHttp _ _ => true | _ => false end.

(** An answer with a reading of 25 for every zone. *)
Definition http_clean (z : string) : HttpOutcome := reading (RInt 25).

Definition only_nordic : list (string * Region) := [("nordic", nordic)].

(** A clock reading. *)
Definition clock_event (ev : Event) : Prop :=
  match ev with EvNow _ | EvTime _ => True | _ => False end.

(** The job indices of the records of a history. *)
Definition logged_indices (w : World) : list (option Value) :=
  map (fun entry => get entry "job_index") (log_of w).

(** The indices [i], [i + 1], ... of [m] consecutive jobs. *)
Definition consecutive_indices (i : Z) (m : nat) : list (option Value) :=
  map (fun k => Some (VInt (i + Z.of_nat k))) (seq 0 m).

(** A configuration whose dropout is not a number: [--dropout nan]. *)
Definition config_nan : Config := mkConfig 16 32 lr_1e_4 S754_nan.

(** ** The sweep generator ([generate_sweep.py]) *)

Record TierConfig : Type := mkTierConfig {
  threshold : spec_float;
  max_delay : string;
  tier_description : string
}.

(** The dict of [get_tier_config], keyed by tier number. *)
Definition tier_configs : list (Z * TierConfig) :=
  [ (ExperimentTier.BASELINE,
     mkTierConfig (float_of_Z 225) "24h" "Baseline variations - fast iteration");
    (ExperimentTier.PROMISING,
     mkTierConfig (float_of_Z 175) "48h" "Promising directions - balanced approach");
    (ExperimentTier.LONGSHOT,
     mkTierConfig (float_of_Z 125) "96h"
       "Experimental longshots - maximum carbon optimization") ].

Fixpoint lookup_tier (tier : Z) (configs : list (Z * TierConfig)) : option TierConfig :=
  match configs with
  | [] => None
  | (k, v) :: configs' => if tier =? k then Some v else lookup_tier tier configs'
  end.

(** [configs[tier]]. *)
Definition get_tier_config (tier : Z) : Res TierConfig :=
  match lookup_tier tier tier_configs with
  | Some tier_cfg => Ret tier_cfg
  | None => Raise (KeyError (str_of_Z tier))
  end.

(** What varies in a manifest: its name, the tier and rationale
    annotations, the configuration behind the config annotation and the
    entrypoint, and the threshold and delay annotations.  The fixed parts of
    the manifest are left out. *)
Record Manifest : Type := mkManifest {
  manifest_name : string;
  manifest_tier : string;
  manifest_rationale : string;
  manifest_config : Config;
  manifest_threshold : spec_float;
  manifest_max_delay : string
}.

Definition generate_rayjob_manifest (config : Config) (tier : Z)
    (tier_rationale : string) : Res Manifest :=
  match get_tier_config tier with
  | Raise e => Raise e
  | Ret tier_cfg =>
      match py_int (SFmul prec emax (cfg_dropout config) (float_of_Z 100)) with
      | Raise e => Raise e
      | Ret d =>
          let job_name :=
            "qwen-lora-r" ++ str_of_Z (cfg_r config)
              ++ "-a" ++ str_of_Z (cfg_alpha config)
              ++ "-lr" ++ format_0e (cfg_lr config)
              ++ "-d" ++ str_of_Z d
              ++ "-tier" ++ str_of_Z tier in
          Ret (mkManifest job_name (str_of_Z tier) tier_rationale config
                          (threshold tier_cfg) (max_delay tier_cfg))
      end
  end.

(** An element of [all_configs]: configuration, tier, rationale. *)
Definition SweepEntry : Type := (Config * Z * string)%type.

Definition entry_tier (entry : SweepEntry) : Z := snd (fst entry).

(** [tier, rationale = assign_tier(config)] and the tuple appended. *)
Definition classify (config : Config) : SweepEntry :=
  (config, fst (assign_tier config), snd (assign_tier config)).

(** The curated core subset of [generate_sweep]. *)
Definition targeted_configs : list Config :=
  [ mkConfig 16 32 lr_1e_4 dropout_0_1;
    mkConfig 16 64 lr_1e_4 dropout_0_1;
    mkConfig 16 128 lr_1e_4 dropout_0_1;
    mkConfig 16 32 lr_5e_5 dropout_0_1;
    mkConfig 16 32 lr_1e_5 dropout_0_1;
    mkConfig 16 32 lr_1e_4 dropout_0_05;
    mkConfig 16 32 lr_1e_4 dropout_0_15;
    mkConfig 16 64 lr_5e_5 dropout_0_1;
    mkConfig 32 32 lr_1e_4 dropout_0_1;
    mkConfig 32 64 lr_1e_4 dropout_0_05;
    mkConfig 32 64 lr_1e_4 dropout_0_1;
    mkConfig 32 64 lr_5e_5 dropout_0_1;
    mkConfig 32 128 lr_1e_4 dropout_0_1;
    mkConfig 32 64 lr_1e_5 dropout_0_1;
    mkConfig 32 64 lr_1e_4 dropout_0_15;
    mkConfig 32 128 lr_5e_5 dropout_0_1;
    mkConfig 32 128 lr_1e_4 dropout_0_05;
    mkConfig 32 128 lr_1e_4 dropout_0_15;
    mkConfig 32 32 lr_1e_4 dropout_0_15;
    mkConfig 32 128 lr_1e_5 dropout_0_1;
    mkConfig 32 32 lr_5e_5 dropout_0_15 ].

(** [itertools.product(r_values, alpha_values, lr_values, dropout_values)]:
    the last factor varies fastest. *)
Definition grid (r_values alpha_values : list Z)
    (lr_values dropout_values : list spec_float) : list Config :=
  flat_map (fun r =>
    flat_map (fun alpha =>
      flat_map (fun lr =>
        map (fun dropout => mkConfig r alpha lr dropout) dropout_values)
        lr_values)
      alpha_values)
    r_values.

Definition len {A} (l : list A) : Z := Z.of_nat (length l).

Section Sweep.

(** The draw of the seeded generator: what the [call]-th [random.sample]
    after [random.seed(42)] picks. *)
Variable choose : nat -> list SweepEntry -> nat -> list SweepEntry.

(** [random.sample(population, k)]. *)
Definition random_sample (call : nat) (population : list SweepEntry) (k : Z)
    : Res (list SweepEntry) :=
  if (k <? 0) || (len population <? k)
  then Raise (ValueError "Sample larger than population or is negative")
  else Ret (choose call population (Z.to_nat k)).

(** The list [all_configs] of [generate_sweep], as it stands when the
    manifests are generated. *)
Definition sweep_configs (r_values alpha_values : list Z)
    (lr_values dropout_values : list spec_float)
    (sample_size : option Z) (core_subset : bool) : Res (list SweepEntry) :=
  if core_subset then Ret (map classify targeted_configs)
  else
    let all_configs :=
      map classify (grid r_values alpha_values lr_values dropout_values) in
    match sample_size with
    | None => Ret all_configs
    | Some sample_size =>
        if negb (sample_size =? 0) && (sample_size <? len all_configs) then
          let tier1 :=
            filter (fun c => entry_tier c =? ExperimentTier.BASELINE) all_configs in
          let tier2 :=
            filter (fun c => entry_tier c =? ExperimentTier.PROMISING) all_configs in
          let tier3 :=
            filter (fun c => entry_tier c =? ExperimentTier.LONGSHOT) all_configs in
          let n1 := Z.min (len tier1) (sample_size / 3) in
          let n2 := Z.min (len tier2) (sample_size / 3) in
          let n3 := Z.min (len tier3) (sample_size - n1 - n2) in
          match random_sample 0 tier1 (Z.min n1 (len tier1)) with
          | Raise e => Raise e
          | Ret s1 =>
              match random_sample 1 tier2 (Z.min n2 (len tier2)) with
              | Raise e => Raise e
              | Ret s2 =>
                  match random_sample 2 tier3 (Z.min n3 (len tier3)) with
                  | Raise e => Raise e
                  | Ret s3 => Ret (s1 ++ s2 ++ s3)%list
                  end
              end
          end
        else Ret all_configs
    end.

(** The manifests of the loop [for config, tier, rationale in all_configs],
    up to the first one that raises. *)
Fixpoint manifests_of (all_configs : list SweepEntry) : Res (list Manifest) :=
  match all_configs with
  | [] => Ret []
  | (config, tier, rationale) :: rest =>
      match generate_rayjob_manifest config tier rationale with
      | Raise e => Raise e
      | Ret manifest =>
          match manifests_of rest with
          | Raise e => Raise e
          | Ret manifests => Ret (manifest :: manifests)
          end
      end
  end.

(** [generate_sweep], as far as the manifests it returns; writing each one
    to [<name>.yaml] and the printed tier distribution are left out. *)
Definition generate_sweep (r_values alpha_values : list Z)
    (lr_values dropout_values : list spec_float)
    (sample_size : option Z) (core_subset : bool) : Res (list Manifest) :=
  match sweep_configs r_values alpha_values lr_values dropout_values
          sample_size core_subset with
  | Raise e => Raise e
  | Ret all_configs => manifests_of all_configs
  end.

End Sweep.

(** The defaults of the command line. *)
Definition default_r_values : list Z := [16; 32].
Definition default_alpha_values : list Z := [16; 32; 64].
Definition default_lr_values : list spec_float := [lr_1e_4; lr_5e_5; lr_1e_5].
Definition default_dropout_values : list spec_float :=
  [dropout_0_05; dropout_0_1; dropout_0_15].

(** A draw that takes the first [k] elements. *)
Definition choose_first (call : nat) (population : list SweepEntry) (k : nat)
    : list SweepEntry := firstn k population.

(** ** Decidable checks *)

Definition float_eqb (x y : spec_float) : bool :=
  match x, y with
  | S754_zero s, S754_zero s' => Bool.eqb s s'
  | S754_infinity s, S754_infinity s' => Bool.eqb s s'
  | S754_nan, S754_nan => true
  | S754_finite s m e, S754_finite s' m' e' =>
      Bool.eqb s s' && Pos.eqb m m' && (e =? e')
  | _, _ => false
  end.

Definition config_eqb (c c' : Config) : bool :=
  (cfg_r c =? cfg_r c') && (cfg_alpha c =? cfg_alpha c')
  && float_eqb (cfg_lr c) (cfg_lr c') && float_eqb (cfg_dropout c) (cfg_dropout c').

(** Every configuration of [l] occurs in [l']. *)
Definition included (l l' : list Config) : bool :=
  forallb (fun c => existsb (config_eqb c) l') l.


Definition res_eqb (x y : Res string) : bool :=
  match x, y with
  | Ret a, Ret b => String.eqb a b
  | _, _ => false
  end.

(** All elements are returned names, pairwise different. *)
Fixpoint distinct_names (l : list (Res string)) : bool :=
  match l with
  | [] => true
  | x :: l' =>
      match x with Ret _ => true | Raise _ => false end
      && negb (existsb (res_eqb x) l') && distinct_names l'
  end.

(** * Properties *)

(** ** The renderings, on the values of the sweep *)

Example float_literals :
  [dropout_0_1; dropout_0_15; lr_1e_5]
  = [S754_finite false 7205759403792794 (-56);
     S754_finite false 5404319552844595 (-55);
     S754_finite false 5902958103587057 (-69)].
Proof. vm_compute. reflexivity. Qed.

Example format_0e_learning_rates :
  map format_0e [lr_1e_4; lr_5e_5; lr_1e_5] = ["1e-04"; "5e-05"; "1e-05"].
Proof. vm_compute. reflexivity. Qed.

(** Rounding is to nearest on the binary value, ties to even: 0.15 is below
    its decimal, 2.5 and 9.5 are ties. *)
Example format_0e_rounding :
  map format_0e [dropout_0_15; float_lit 5 2; float_lit 19 2; float_of_Z 100]
  = ["1e-01"; "2e+00"; "1e+01"; "1e+02"].
Proof. vm_compute. reflexivity. Qed.

Example dropout_percent :
  map (fun x => py_int (SFmul prec emax x (float_of_Z 100)))
      [dropout_0_05; dropout_0_1; dropout_0_15]
  = [Ret 5; Ret 10; Ret 15].
Proof. vm_compute. reflexivity. Qed.

Example last_chars_examples :
  last_chars 3 "abcdef" = "def" /\ last_chars 1000 "abc" = "abc".
Proof. split; reflexivity. Qed.

Example placeholder_examples :
  contains "100.x.x.x" "100.x.x.x" = true
  /\ contains "100.x.x.x" "100.65.196.126" = false
  /\ lower "Y" = "y" /\ lower "yes" = "yes".
Proof. repeat split; reflexivity. Qed.

(** ** Dictionaries *)

Section DictFacts.

Context {V : Type}.
Implicit Types (d : dict V) (k : string) (v : V).

Lemma get_app_l d d' k x :
  get d k = Some x -> get (d ++ d')%list k = Some x.
Proof.
  induction d as [|[k' v'] d IH]; simpl; [discriminate|].
  destruct (String.eqb k k'); auto.
Qed.

Lemma get_not_in d k : ~ In k (keys d) -> get d k = None.
Proof.
  induction d as [|[k' v'] d IH]; simpl; intros H; [reflexivity|].
  destruct (String.eqb_spec k k') as [->|_]; [tauto|]. apply IH. tauto.
Qed.


Lemma In_get d k x : NoDup (keys d) -> In (k, x) d -> get d k = Some x.
Proof.
  induction d as [|[k' v'] d IH]; simpl; [tauto|].
  intros Hnd [[= -> ->]|Hin].
  - now rewrite String.eqb_refl.
  - inversion Hnd as [|? ? Hk Hnd']; subst.
    destruct (String.eqb_spec k k') as [->|_].
    + exfalso. apply Hk. change k' with (fst (k', x)). now apply in_map.
    + now apply IH.
Qed.

Lemma set_fresh d k v : ~ In k (keys d) -> set d k v = (d ++ [(k, v)])%list.
Proof.
  induction d as [|[k' v'] d IH]; simpl; intros H; [reflexivity|].
  destruct (String.eqb_spec k k') as [->|_]; [tauto|].
  rewrite IH; tauto.
Qed.

Lemma keys_set_present d k v : In k (keys d) -> keys (set d k v) = keys d.
Proof.
  induction d as [|[k' v'] d IH]; simpl; [tauto|].
  destruct (String.eqb_spec k k') as [->|Hne]; [reflexivity|].
  intros [Heq|Hin]; [congruence|]. simpl. now rewrite IH.
Qed.

Lemma NoDup_keys_set d k v : NoDup (keys d) -> NoDup (keys (set d k v)).
Proof.
  intros Hnd. destruct (in_dec string_dec k (keys d)) as [Hin|Hout].
  - now rewrite keys_set_present.
  - rewrite set_fresh by assumption. unfold keys. rewrite map_app. simpl.
    apply NoDup_app; [assumption| repeat constructor; simpl; tauto |].
    intros a Ha [<-|[]]. now apply Hout.
Qed.

Lemma get_set_same d k v : get (set d k v) k = Some v.
Proof.
  induction d as [|[k' v'] d IH]; simpl.
  - now rewrite String.eqb_refl.
  - destruct (String.eqb_spec k k') as [->|Hne]; simpl.
    + now rewrite String.eqb_refl.
    + destruct (String.eqb_spec k k'); [contradiction|assumption].
Qed.

Lemma get_set_other d k k' v : k' <> k -> get (set d k v) k' = get d k'.
Proof.
  intros Hne. induction d as [|[k0 v0] d IH]; simpl.
  - destruct (String.eqb_spec k' k); [contradiction|reflexivity].
  - destruct (String.eqb_spec k k0) as [->|Hk]; simpl.
    + destruct (String.eqb_spec k' k0); [contradiction|reflexivity].
    + now rewrite IH.
Qed.

Lemma fold_set_fresh (items : list (string * V)) d :
  NoDup (keys (d ++ items)%list) ->
  fold_left (fun d kv => set d (fst kv) (snd kv)) items d = (d ++ items)%list.
Proof.
  revert d. induction items as [|[k v] items IH]; intros d Hnd; simpl.
  - now rewrite app_nil_r.
  - assert (Hd : ~ In k (keys d)).
    { unfold keys in Hnd. rewrite map_app in Hnd. simpl in Hnd.
      apply NoDup_remove_2 in Hnd. intros Hin. apply Hnd.
      apply in_or_app. now left. }
    rewrite set_fresh by assumption.
    rewrite IH; rewrite <- app_assoc; simpl; [reflexivity|assumption].
Qed.

(** Copying a dict, as [{k: v for k, v in d.items()}] does, gives the
    same dict. *)
Lemma of_items_id d : NoDup (keys d) -> of_items d = d.
Proof. intros Hnd. unfold of_items. now rewrite fold_set_fresh. Qed.

Lemma fold_set_NoDup (items : list (string * V)) d :
  NoDup (keys d) ->
  NoDup (keys (fold_left (fun d kv => set d (fst kv) (snd kv)) items d)).
Proof.
  revert d. induction items as [|[k v] items IH]; intros d Hnd; simpl; [assumption|].
  apply IH. now apply NoDup_keys_set.
Qed.

Lemma of_items_NoDup (items : list (string * V)) : NoDup (keys (of_items items)).
Proof. apply fold_set_NoDup. constructor. Qed.

End DictFacts.

(** ** Job classification *)

(** C8: [assign_tier] is a function of the configuration alone (it takes no
    history and performs no interaction, so equal configurations get equal
    results), and it implements the decision table: r = 16 gives Baseline;
    r = 32 with alpha = 128, dropout >= 0.15 or lr <= 1e-5 gives Longshot;
    r = 32 otherwise gives Promising; any other rank gives Promising with a
    rationale that spells the unusual rank. *)
Theorem assign_tier_decision_table :
  (forall c1 c2 : Config,
      cfg_r c1 = cfg_r c2 -> cfg_alpha c1 = cfg_alpha c2 ->
      cfg_lr c1 = cfg_lr c2 -> cfg_dropout c1 = cfg_dropout c2 ->
      assign_tier c1 = assign_tier c2)
  /\ (forall c, cfg_r c = 16 ->
        assign_tier c =
          (ExperimentTier.BASELINE,
           "baseline-variation: r=16 proven effective, needs fast feedback"))
  /\ (forall c, cfg_r c = 32 ->
        (cfg_alpha c = 128
         \/ SFleb (float_lit 15 100) (cfg_dropout c) = true
         \/ SFleb (cfg_lr c) (float_lit 1 100000) = true) ->
        assign_tier c =
          (ExperimentTier.LONGSHOT,
           "longshot: r=32 with aggressive/unconventional settings"))
  /\ (forall c, cfg_r c = 32 ->
        cfg_alpha c <> 128 ->
        SFleb (float_lit 15 100) (cfg_dropout c) = false ->
        SFleb (cfg_lr c) (float_lit 1 100000) = false ->
        assign_tier c =
          (ExperimentTier.PROMISING,
           "promising: r=32 with standard hyperparameters"))
  /\ (forall c, cfg_r c <> 16 -> cfg_r c <> 32 ->
        assign_tier c =
          (ExperimentTier.PROMISING,
           "promising: r=" ++ str_of_Z (cfg_r c) ++ " unusual configuration")).
Proof.
  repeat split.
  - intros [r1 a1 l1 d1] [r2 a2 l2 d2]; simpl; intros; subst; reflexivity.
  - intros c Hr. unfold assign_tier. now rewrite Hr.
  - intros c Hr Hany. unfold assign_tier. rewrite Hr. simpl.
    destruct Hany as [Ha|[Hd|Hl]].
    + rewrite Ha. reflexivity.
    + rewrite Hd. now rewrite orb_true_r.
    + rewrite Hl. now rewrite orb_true_r.
  - intros c Hr Ha Hd Hl. unfold assign_tier. rewrite Hr, Hd, Hl. simpl.
    apply Z.eqb_neq in Ha. now rewrite Ha.
  - intros c H16 H32. unfold assign_tier.
    apply Z.eqb_neq in H16, H32. now rewrite H16, H32.
Qed.

(** ** Job names *)

Lemma distinct_names_NoDup l : distinct_names l = true -> NoDup l.
Proof.
  induction l as [|x l IH]; simpl; intros H; [constructor|].
  apply andb_prop in H as [H Hl]. apply andb_prop in H as [Hx Hnot].
  constructor; [|now apply IH].
  intros Hin. apply negb_true_iff in Hnot.
  assert (Hex : existsb (res_eqb x) l = true).
  { apply existsb_exists. exists x. split; [assumption|].
    destruct x; [simpl; apply String.eqb_refl | discriminate]. }
  congruence.
Qed.

Lemma distinct_names_returned l x :
  distinct_names l = true -> In x l -> exists name, x = Ret name.
Proof.
  induction l as [|y l IH]; simpl; [tauto|].
  intros H [->|Hin].
  - destruct x; [eauto | discriminate].
  - apply IH; [|assumption]. now apply andb_prop in H as [_ H].
Qed.

(** C9: the job name is a function of the four hyperparameter values, and
    over the 21 configurations of the campaign it is defined and injective:
    two positions of [EXPERIMENT_CONFIGS] with the same name are the same
    position.  The learning rate enters through its [.0e] rendering and the
    dropout through [int(dropout * 100)]. *)
Theorem generate_job_name_injective_on_sweep :
  (forall c1 c2 : Config,
      cfg_r c1 = cfg_r c2 -> cfg_alpha c1 = cfg_alpha c2 ->
      cfg_lr c1 = cfg_lr c2 -> cfg_dropout c1 = cfg_dropout c2 ->
      generate_job_name c1 = generate_job_name c2)
  /\ length EXPERIMENT_CONFIGS = 21%nat
  /\ NoDup EXPERIMENT_CONFIGS
  /\ (forall c, In c EXPERIMENT_CONFIGS -> exists name, generate_job_name c = Ret name)
  /\ (forall i j ci cj,
        nth_error EXPERIMENT_CONFIGS i = Some ci ->
        nth_error EXPERIMENT_CONFIGS j = Some cj ->
        generate_job_name ci = generate_job_name cj -> i = j).
Proof.
  assert (Hd : distinct_names (map generate_job_name EXPERIMENT_CONFIGS) = true)
    by (vm_compute; reflexivity).
  pose proof (distinct_names_NoDup _ Hd) as Hnd.
  repeat split.
  - intros [r1 a1 l1 d1] [r2 a2 l2 d2]; simpl; intros; subst; reflexivity.
  - now apply NoDup_map_inv in Hnd.
  - intros c Hc. eapply distinct_names_returned; [exact Hd|]. now apply in_map.
  - intros i j ci cj Hi Hj Heq.
    assert (Hlen : (i < length (map generate_job_name EXPERIMENT_CONFIGS))%nat).
    { rewrite length_map. apply nth_error_Some. congruence. }
    eapply (proj1 (NoDup_nth_error _) Hnd i j Hlen).
    rewrite !nth_error_map, Hi, Hj. simpl. congruence.
Qed.

(** ** Region selection *)

Lemma Qltb_true x y : Qltb x y = true -> (x < y)%Q.
Proof.
  unfold Qltb. intros H. apply negb_true_iff in H.
  apply Qnot_le_lt. intros Hle. apply Qle_bool_iff in Hle. congruence.
Qed.

Lemma Qltb_false x y : Qltb x y = false -> (y <= x)%Q.
Proof.
  unfold Qltb. intros H. apply negb_false_iff in H. now apply Qle_bool_iff.
Qed.

Lemma Qltb_lt x y : (x < y)%Q -> Qltb x y = true.
Proof.
  intros H. destruct (Qltb x y) eqn:E; [reflexivity|].
  apply Qltb_false in E. exfalso. now apply (Qlt_not_le x y).
Qed.

(** *** The order of the numbers other than [NaN] *)

Lemma num_ltb_trans x y z :
  num_ltb x y = true -> num_ltb y z = true -> num_ltb x z = true.
Proof.
  destruct x as [p|[]|], y as [q|[]|], z as [r|[]|]; simpl; try discriminate; auto.
  intros H1 H2. apply Qltb_true in H1, H2. apply Qltb_lt.
  now apply Qlt_trans with q.
Qed.






(** Between numbers, [<] is the order of the numbers and raises nothing. *)
Lemma py_lt_numbers a b x y :
  num_of a = Some x -> num_of b = Some y -> py_lt a b = Ret (num_ltb x y).
Proof.
  intros Ha Hb. destruct a; simpl in *; try discriminate;
    rewrite Hb; injection Ha as <-; reflexivity.
Qed.


Lemma reading_ltb_trans a b c :
  reading_ltb a b = true -> reading_ltb b c = true -> reading_ltb a c = true.
Proof.
  unfold reading_ltb.
  destruct (num_of a), (num_of b), (num_of c); try discriminate.
  apply num_ltb_trans.
Qed.







Lemma num_ltb_irrefl x : num_ltb x x = false.
Proof.
  destruct x as [p|[]|]; simpl; try reflexivity.
  unfold Qltb. apply negb_false_iff, Qle_bool_iff, Qle_refl.
Qed.

Lemma reading_ltb_irrefl a : reading_ltb a a = false.
Proof. unfold reading_ltb. destruct (num_of a); [apply num_ltb_irrefl|reflexivity]. Qed.

(** What is not below [b] is not below anything below [b]. *)
Lemma reading_not_ltb_below a b c :
  reading_ltb a b = true -> reading_ltb c b = false -> reading_ltb c a = false.
Proof.
  intros Hab Hcb. destruct (reading_ltb c a) eqn:Hca; [|reflexivity].
  now rewrite (reading_ltb_trans _ _ _ Hca Hab) in Hcb.
Qed.

Lemma py_lt_number a b :
  is_number a = true -> is_number b = true -> py_lt a b = Ret (reading_ltb a b).
Proof.
  unfold is_number, reading_ltb. intros Ha Hb.
  destruct (num_of a) as [x|] eqn:Hx; [|discriminate].
  destruct (num_of b) as [y|] eqn:Hy; [|discriminate].
  now apply py_lt_numbers.
Qed.

(** Among numbers, [NaN] included, [min] raises nothing, and nothing it
    saw is strictly below the item it keeps. *)
Lemma min_loop_numbers (rest seen : list (string * Reading)) (b : string * Reading) :
  is_number (snd b) = true ->
  (forall x, In x rest -> is_number (snd x) = true) ->
  (forall x, In x seen -> reading_ltb (snd x) (snd b) = false) ->
  exists m,
    min_loop b rest = Ret (fst m)
    /\ In m (b :: rest)
    /\ (forall x, In x (seen ++ b :: rest) -> reading_ltb (snd x) (snd m) = false).
Proof.
  revert seen b.
  induction rest as [|x rest IH]; intros seen b Hb Hrest Hseen.
  - exists b. split; [reflexivity|]. split; [now left|].
    intros y Hy. apply in_app_or in Hy as [Hy|[<-|[]]];
      [now apply Hseen|apply reading_ltb_irrefl].
  - assert (Hx : is_number (snd x) = true) by (apply Hrest; now left).
    assert (Hrest' : forall y, In y rest -> is_number (snd y) = true)
      by (intros y Hy; apply Hrest; now right).
    cbn [min_loop]. rewrite (py_lt_number _ _ Hx Hb).
    destruct (reading_ltb (snd x) (snd b)) eqn:Hlt.
    + destruct (IH (seen ++ [b])%list x Hx Hrest') as (m & Hm & Hin & Hmin).
      * intros y Hy. apply in_app_or in Hy as [Hy|[<-|[]]].
        -- eapply reading_not_ltb_below; [exact Hlt|now apply Hseen].
        -- eapply reading_not_ltb_below; [exact Hlt|apply reading_ltb_irrefl].
      * exists m. split; [assumption|]. split; [now right|].
        intros y Hy. apply Hmin. rewrite <- app_assoc. exact Hy.
    + destruct (IH (seen ++ [x])%list b Hb Hrest') as (m & Hm & Hin & Hmin).
      * intros y Hy. apply in_app_or in Hy as [Hy|[<-|[]]]; [now apply Hseen|exact Hlt].
      * exists m. split; [assumption|].
        split; [destruct Hin as [<-|Hin]; [now left|now right; right]|].
        intros y Hy. apply Hmin. rewrite <- app_assoc. simpl.
        apply in_app_or in Hy as [Hy|[<-|[<-|Hy]]]; apply in_or_app; simpl; tauto.
Qed.

(** Whatever [min] returns is a key of the dict. *)
Lemma min_loop_In (rest : list (string * Reading)) : forall b k,
  min_loop b rest = Ret k -> In k (keys (b :: rest)).
Proof.
  induction rest as [|x rest IH]; intros b k; cbn [min_loop].
  - intros [= <-]. now left.
  - destruct (py_lt (snd x) (snd b)) as [[]|e]; try discriminate; intros Hk;
      apply IH in Hk; simpl in *; tauto.
Qed.

Lemma successes_app l1 l2 :
  successes (l1 ++ l2) = (successes l1 ++ successes l2)%list.
Proof.
  induction l1 as [|[k [v|]] l1 IH]; simpl; [reflexivity| |assumption].
  now rewrite IH.
Qed.

Lemma successes_In l k v : In (k, v) (successes l) <-> In (k, Some v) l.
Proof.
  induction l as [|[k' [v'|]] l IH]; simpl; [tauto| |].
  - rewrite IH. split; (intros [[= -> ->]|H]; [now left|now right]).
  - rewrite IH. split; [tauto|]. intros [[=]|H]; assumption.
Qed.


Lemma successes_keys_NoDup l : NoDup (keys l) -> NoDup (keys (successes l)).
Proof.
  induction l as [|[k [v|]] l IH]; simpl; intros Hnd; [constructor| |];
    inversion Hnd as [|? ? Hk Hnd']; subst; [|now apply IH].
  constructor; [|now apply IH].
  intros Hin. apply Hk. apply in_map_iff in Hin as ([k' v'] & <- & Hin).
  apply successes_In in Hin. simpl.
  change k' with (fst (k', Some v')). now apply in_map.
Qed.



Lemma keys_In {V} (d : dict V) k x : In (k, x) d -> In k (keys d).
Proof. intros H. change k with (fst (k, x)). now apply in_map. Qed.

Section RouterFacts.

Variable env : Env.
Variable regions_display : list (string * Region).

Local Abbreviation REGIONS' := (REGIONS regions_display).
Local Abbreviation get_carbon_intensity' := (get_carbon_intensity env).
Local Abbreviation get_all_intensities' := (get_all_intensities env regions_display).
Local Abbreviation pick_cleanest_region' := (pick_cleanest_region env regions_display).


Lemma bind_Raise {A B} (c : M A) (k : A -> M B) w e w' :
  c w = (Raise e, w') -> bind c k w = (Raise e, w').
Proof. unfold bind. now intros ->. Qed.

(** What one query returns, by what the outside answered. *)
Lemma get_carbon_intensity_run z w :
  get_carbon_intensity' z w =
    (match env_http env (length w) z with
     | HttpRaises _ => Ret None
     | HttpResponse status body =>
         if (400 <=? status) && (status <? 600) then Ret None
         else match body with
              | BodyNotJson => Ret None
              | BodyNotObject => Raise (TypeError "not subscriptable by str")
              | BodyObject None => Raise (KeyError "carbonIntensity")
              | BodyObject (Some v) => Ret v
              end
     end, (w ++ [EvHttp z (env_http env (length w) z)])%list).
Proof.
  unfold get_carbon_intensity, try_except, bind, requests_get,
    raise_for_status, response_json, subscript_body, ret, raise.
  destruct (env_http env (length w) z) as [msg|status body]; [reflexivity|].
  simpl. destruct ((400 <=? status) && (status <? 600)); [reflexivity|].
  destruct body as [| |[v|]]; reflexivity.
Qed.

(** When the sweep over the regions returns, the snapshot has one entry
    per region, in the order of the table. *)
Lemma for_regions_keys items : forall acc w snap w',
  for_regions env items acc w = (Ret snap, w') ->
  NoDup (keys acc ++ keys items) ->
  keys snap = (keys acc ++ keys items)%list.
Proof.
  induction items as [|[region config] items IH]; intros acc w snap w' Hrun Hnd; simpl in *.
  - injection Hrun as <- _. now rewrite app_nil_r.
  - unfold bind in Hrun at 1.
    destruct (get_carbon_intensity' (zone config) w) as [[reading|e] w1]; [|discriminate].
    unfold bind in Hrun at 1. unfold sleep in Hrun at 1.
    assert (Hfresh : ~ In region (keys acc)).
    { intros Hin. apply NoDup_remove_2 in Hnd. apply Hnd.
      apply in_or_app. now left. }
    apply IH in Hrun.
    + rewrite Hrun, set_fresh by assumption.
      unfold keys. rewrite map_app. simpl. now rewrite <- app_assoc.
    + rewrite set_fresh by assumption. unfold keys at 1. rewrite map_app. simpl.
      rewrite <- app_assoc. exact Hnd.
Qed.

Lemma get_all_intensities_keys w snap w' :
  get_all_intensities' w = (Ret snap, w') -> keys snap = keys REGIONS'.
Proof.
  intros Hrun. apply for_regions_keys in Hrun; [assumption|].
  simpl. apply of_items_NoDup.
Qed.


End RouterFacts.



(** A reading that is a text makes the comparison of the selection raise;
    readings that all failed make the check of the intensities return
    without a selection. *)
Example readings_that_are_not_numbers :
  fst (pick_cleanest_region (quiet_env http_text run_ok None) REGIONS_source [])
  = Raise (TypeError "'<' not supported between instances of 'str' and 'int'")
  /\ fst (check_intensity_only (quiet_env http_all_fail run_ok None) REGIONS_source [])
     = Ret tt.
Proof. split; vm_compute; reflexivity. Qed.

(** ** Remote dispatch *)

Section DispatchFacts.

Variable env : Env.
Variable regions_display : list (string * Region).

Lemma length_snoc {A} (l : list A) x : length (l ++ [x]) = S (length l).
Proof. rewrite length_app. simpl. lia. Qed.

(** Blocking mode, step by step: two clock readings, the start time, the
    [ssh] run under the four-hour ceiling and, when it returns, the end
    time. *)
Lemma submit_job_ssh_run region config intensities job_index w name rc :
  generate_job_name config = Ret name ->
  get (REGIONS regions_display) region = Some rc ->
  let n := length w in
  let job_id := name ++ "-" ++ strftime env "%Y%m%d%H%M%S" (env_now env n) in
  let cmd := mkSsh (SSH_USER ++ "@" ++ ip rc) region (get intensities region)
                   job_id config false in
  let entry :=
    submission_entry env (env_now env (1 + n)) job_index job_id name config region
      intensities rc "submitted" in
  let start := env_time env (2 + n) in
  let outcome := env_run env (3 + n) cmd (4 * 3600) in
  let w' := (w ++ [EvNow (env_now env n); EvNow (env_now env (1 + n));
                   EvTime start; EvRun cmd (4 * 3600) outcome])%list in
  submit_job_ssh env regions_display region config intensities job_index w =
    match outcome with
    | RunReturns result =>
        let elapsed := SFsub prec emax (env_time env (4 + n)) start in
        let entry := set entry "elapsed_seconds" (VFloat elapsed) in
        let entry :=
          set entry "elapsed_hours" (VFloat (SFdiv prec emax elapsed (float_of_Z 3600))) in
        (Ret (if returncode result =? 0
              then set entry "status" (VStr "completed")
              else set (set entry "status" (VStr "failed")) "error"
                     (VStr (match stderr result with
                            | EmptyString => "Unknown error"
                            | err => last_chars 1000 err
                            end))),
         (w' ++ [EvTime (env_time env (4 + n))])%list)
    | RunTimesOut _ => (Ret (set entry "status" (VStr "timeout")), w')
    | RunRaises msg =>
        (Ret (set (set entry "status" (VStr "error")) "error" (VStr msg)), w')
    end.
Proof.
  intros Hname Hrc. cbv zeta.
  unfold submit_job_ssh, subscript_regions. rewrite Hname, Hrc.
  unfold bind, lift, now, time, ret, try_except, subprocess_run.
  rewrite !length_snoc, <- !app_assoc. simpl app.
  change (S (length w)) with (1 + length w)%nat.
  change (S (1 + length w)) with (2 + length w)%nat.
  change (S (2 + length w)) with (3 + length w)%nat.
  destruct (env_run env (3 + length w) _ _) as [result|msg|msg]; try reflexivity.
  destruct (returncode result =? 0); reflexivity.
Qed.

(** Non-blocking mode: two clock readings and the [ssh] handshake under the
    sixty-second ceiling. *)
Lemma submit_job_async_run region config intensities job_index w name rc :
  generate_job_name config = Ret name ->
  get (REGIONS regions_display) region = Some rc ->
  let n := length w in
  let job_id := name ++ "-" ++ strftime env "%Y%m%d%H%M%S" (env_now env n) in
  let cmd := mkSsh (SSH_USER ++ "@" ++ ip rc) region (get intensities region)
                   job_id config true in
  let entry :=
    submission_entry env (env_now env (1 + n)) job_index job_id name config region
      intensities rc "submitted_async" in
  let outcome := env_run env (2 + n) cmd 60 in
  submit_job_async env regions_display region config intensities job_index w =
    (Ret match outcome with
         | RunReturns result =>
             if returncode result =? 0 then entry
             else set (set entry "status" (VStr "submit_failed")) "error"
                      (VStr (stderr result))
         | RunTimesOut msg | RunRaises msg =>
             set (set entry "status" (VStr "error")) "error" (VStr msg)
         end,
     (w ++ [EvNow (env_now env n); EvNow (env_now env (1 + n));
            EvRun cmd 60 outcome])%list).
Proof.
  intros Hname Hrc. cbv zeta.
  unfold submit_job_async, subscript_regions. rewrite Hname, Hrc.
  unfold bind, lift, now, ret, try_except, subprocess_run.
  rewrite !length_snoc, <- !app_assoc. simpl app.
  change (S (length w)) with (1 + length w)%nat.
  change (S (1 + length w)) with (2 + length w)%nat.
  destruct (env_run env (2 + length w) _ _) as [result|msg|msg]; try reflexivity.
  destruct (returncode result =? 0); reflexivity.
Qed.

End DispatchFacts.

Lemma blocking_dispatch_classified :
  blocking_dispatch_claim blocking_outcome.
Proof.
  intros env regions region config intensities job_index w name rc Hname Hrc cmd outcome.
  rewrite (submit_job_ssh_run env regions _ _ _ _ _ _ _ Hname Hrc). cbv zeta.
  unfold ssh_command in cmd. fold cmd. fold outcome.
  unfold runs_once, blocking_outcome, status_is.
  destruct outcome as [result|msg|msg].
  - rewrite <- app_assoc. eexists _, _. split; [reflexivity|]. split; [reflexivity|].
    destruct (returncode result =? 0); split; reflexivity.
  - eexists _, _. split; [reflexivity|]. split; [reflexivity|]. split; reflexivity.
  - eexists _, _. split; [reflexivity|]. split; [reflexivity|]. split; reflexivity.
Qed.

(** C4, as amended: for a configured region and a nameable job, blocking
    dispatch returns a record (it does not raise) and runs [ssh] once, under
    the ceiling of 4 * 3600 seconds; the record classifies what that run
    gave: [completed] exactly when it returned with exit code zero;
    [failed] on a nonzero exit code, with the last 1000 characters of
    stderr as error text when stderr is not empty and the text
    [Unknown error] when it is; [timeout] exactly when the run raised
    [TimeoutExpired] at the ceiling; [error] with the exception text when
    it raised anything else.  The time the dispatcher measures takes no part
    in the classification: it is recorded whenever the run returned. *)
Theorem submit_job_ssh_classifies
    env regions_display region config intensities job_index w name rc :
  generate_job_name config = Ret name ->
  get (REGIONS regions_display) region = Some rc ->
  let cmd := ssh_command env rc region intensities name config false w in
  let outcome := env_run env (3 + length w) cmd (4 * 3600) in
  exists entry added,
    submit_job_ssh env regions_display region config intensities job_index w
      = (Ret entry, (w ++ added)%list)
    /\ runs_once added cmd (4 * 3600) outcome
    /\ blocking_outcome entry outcome
    /\ (status_is entry "completed" <->
        exists result, outcome = RunReturns result /\ returncode result = 0)
    /\ (status_is entry "timeout" <-> exists msg, outcome = RunTimesOut msg)
    /\ (forall result, outcome = RunReturns result ->
        get entry "elapsed_seconds"
        = Some (VFloat (SFsub prec emax (env_time env (4 + length w))
                                        (env_time env (2 + length w))))).
Proof.
  intros Hname Hrc cmd outcome.
  rewrite (submit_job_ssh_run env regions_display _ _ _ _ _ _ _ Hname Hrc). cbv zeta.
  unfold ssh_command in cmd. fold cmd. fold outcome.
  unfold runs_once, blocking_outcome, status_is.
  destruct outcome as [result|msg|msg].
  - rewrite <- app_assoc. eexists _, _. split; [reflexivity|]. split; [reflexivity|].
    destruct (returncode result =? 0) eqn:Hz.
    + split; [split; reflexivity|]. split; [|split].
      * split; [intros _|reflexivity]. exists result. split; [reflexivity|].
        now apply Z.eqb_eq.
      * split; [intros [=]|intros (msg & [=])].
      * intros result' _. reflexivity.
    + split; [split; reflexivity|]. split; [|split].
      * split; [intros [=]|]. intros (result' & [= <-] & Hzero).
        apply Z.eqb_neq in Hz. contradiction.
      * split; [intros [=]|intros (msg & [=])].
      * intros result' _. reflexivity.
  - eexists _, _. split; [reflexivity|]. split; [reflexivity|].
    split; [split; reflexivity|]. split; [|split].
    + split; [intros [=]|intros (result & [=] & _)].
    + split; [intros _; now exists msg|reflexivity].
    + intros result [=].
  - eexists _, _. split; [reflexivity|]. split; [reflexivity|].
    split; [split; reflexivity|]. split; [|split].
    + split; [intros [=]|intros (result & [=] & _)].
    + split; [intros [=]|intros (msg' & [=])].
    + intros result [=].
Qed.

(** Scenario C: exit code 1 with [CUDA out of memory] on stderr is recorded
    as [failed] with that text, after the one run for nordic. *)
Lemma submit_job_ssh_classifies_scenario_C :
  let env := quiet_env http_scenario_A run_out_of_memory None in
  exists entry added,
    submit_job_ssh env REGIONS_source "nordic" config_0 snapshot_A 0 []
      = (Ret entry, ([] ++ added)%list)
    /\ runs_once added
         (ssh_command env nordic "nordic" snapshot_A "lora-r16-a32-lr1e-04-d10"
                      config_0 false [])
         (4 * 3600) run_out_of_memory
    /\ status_is entry "failed"
    /\ get entry "error" = Some (VStr "CUDA out of memory").
Proof.
  intros env.
  assert (Hname : generate_job_name config_0 = Ret "lora-r16-a32-lr1e-04-d10")
    by (vm_compute; reflexivity).
  assert (Hrc : get (REGIONS REGIONS_source) "nordic" = Some nordic)
    by (vm_compute; reflexivity).
  destruct (submit_job_ssh_classifies env REGIONS_source "nordic" config_0 snapshot_A
              0 [] _ _ Hname Hrc)
    as (entry & added & Hrun & Honce & Hclass & _).
  exists entry, added. split; [exact Hrun|]. split; [exact Honce|]. exact Hclass.
Defined.

(** C4, as stated, fails twice.  A remote command that exits with code 1
    and leaves stderr empty is recorded with the error text
    [Unknown error], which is not the last 1000 characters of its stderr.
    And a run that returns with exit code zero is recorded as [completed]
    although the dispatcher measured exactly four hours for it: the ceiling
    is enforced inside [subprocess.run], not by the classification. *)
Lemma blocking_claim_fails :
  ~ blocking_dispatch_claim blocking_outcome_as_stated
  /\ ~ ceiling_boundary_as_stated.
Proof.
  assert (Hname : generate_job_name config_0 = Ret "lora-r16-a32-lr1e-04-d10")
    by (vm_compute; reflexivity).
  assert (Hrc : get (REGIONS REGIONS_source) "nordic" = Some nordic)
    by (vm_compute; reflexivity).
  split.
  - intros Hclaim.
    destruct (Hclaim (quiet_env http_scenario_A run_fails_silently None) REGIONS_source
                "nordic" config_0 snapshot_A 0 [] _ _ Hname Hrc)
      as (entry & added & Hrun & _ & Hclass).
    vm_compute in Hrun. injection Hrun as <- <-.
    vm_compute in Hclass. destruct Hclass as [_ Herr]. discriminate.
  - intros Hclaim.
    assert (Hrun : exists entry w',
               submit_job_ssh (timed_env four_hour_times http_scenario_A run_ok None)
                 REGIONS_source "nordic" config_0 snapshot_A 0 [] = (Ret entry, w')
               /\ get entry "elapsed_seconds" = Some (VFloat (float_of_Z 14400))
               /\ status_is entry "completed").
    { eexists _, _. split; [vm_compute; reflexivity|]. split; vm_compute; reflexivity. }
    destruct Hrun as (entry & w' & Hrun & Helapsed & Hstatus).
    apply (Hclaim _ _ _ _ _ _ _ _ _ _ Hrun Helapsed); [|exact Hstatus].
    vm_compute. reflexivity.
Qed.



(** A submitter that returns a record got past the job name and the region
    lookup. *)
Lemma submit_returns_inv env regions_display (async_mode : bool)
    region config intensities job_index w entry w' :
  (if async_mode then submit_job_async env regions_display
   else submit_job_ssh env regions_display)
    region config intensities job_index w = (Ret entry, w') ->
  exists name rc,
    generate_job_name config = Ret name
    /\ get (REGIONS regions_display) region = Some rc.
Proof.
  intros Hrun.
  destruct (generate_job_name config) as [name|e] eqn:Hname.
  - destruct (get (REGIONS regions_display) region) as [rc|] eqn:Hrc; [eauto|].
    exfalso. destruct async_mode;
      unfold submit_job_async, submit_job_ssh, subscript_regions, bind, lift, now, raise in Hrun;
      rewrite Hname, Hrc in Hrun; discriminate.
  - exfalso. destruct async_mode;
      unfold submit_job_async, submit_job_ssh, bind, lift in Hrun;
      rewrite Hname in Hrun; discriminate.
Qed.

(** C6, as amended: every record either submitter returns carries the
    timestamp, the job index, the configuration, the selected region, a copy
    of the intensity snapshot it was given and a status.  Both fields of the
    elapsed duration, the seconds between the two readings of the clock
    around the run and the same in hours, are present in the records of a
    blocking run that returned, those with status [completed] or [failed];
    in every other record neither field is present. *)
Theorem submission_record_fields
    env regions_display (async_mode : bool) region config intensities job_index
    w entry w' :
  (if async_mode then submit_job_async env regions_display
   else submit_job_ssh env regions_display)
    region config intensities job_index w = (Ret entry, w') ->
  let elapsed :=
    SFsub prec emax (env_time env (4 + length w)) (env_time env (2 + length w)) in
  let measured :=
    async_mode = false
    /\ (status_is entry "completed" \/ status_is entry "failed") in
  has_submission_fields entry job_index config region intensities
  /\ get entry "timestamp" = Some (VStr (isoformat env (env_now env (1 + length w))))
  /\ (NoDup (keys intensities) ->
      get entry "intensities" = Some (VIntensities intensities))
  /\ (measured ->
      get entry "elapsed_seconds" = Some (VFloat elapsed)
      /\ get entry "elapsed_hours"
         = Some (VFloat (SFdiv prec emax elapsed (float_of_Z 3600))))
  /\ (~ measured ->
      get entry "elapsed_seconds" = None /\ get entry "elapsed_hours" = None)
  /\ (has_elapsed entry = true <-> measured).
Proof.
  intros Hrun elapsed measured.
  destruct (submit_returns_inv _ _ _ _ _ _ _ _ _ _ Hrun) as (name & rc & Hname & Hrc).
  enough (Hmain : has_submission_fields entry job_index config region intensities
                  /\ get entry "timestamp"
                     = Some (VStr (isoformat env (env_now env (1 + length w))))
                  /\ (measured ->
                      get entry "elapsed_seconds" = Some (VFloat elapsed)
                      /\ get entry "elapsed_hours"
                         = Some (VFloat (SFdiv prec emax elapsed (float_of_Z 3600))))
                  /\ (~ measured ->
                      get entry "elapsed_seconds" = None
                      /\ get entry "elapsed_hours" = None)
                  /\ (has_elapsed entry = true <-> measured)).
  { destruct Hmain as (Hfields & Hts & Hel). split; [assumption|].
    split; [assumption|]. split; [|assumption].
    intros Hnd. destruct Hfields as (_ & _ & _ & _ & Hint & _).
    now rewrite (of_items_id _ Hnd) in Hint. }
  unfold measured, elapsed, has_submission_fields, has_elapsed, status_is.
  destruct async_mode.
  - rewrite (submit_job_async_run env regions_display _ _ _ _ _ _ _ Hname Hrc) in Hrun.
    cbv zeta in Hrun. injection Hrun as <- _.
    destruct (env_run env _ _ _) as [result|msg|msg];
      [destruct (returncode result =? 0)| |];
      (split; [repeat split; eexists; reflexivity|]);
      (split; [reflexivity|]);
      (split; [intros [[=] _]|]);
      (split; [intros _; split; reflexivity|]);
      (split; [intros [=] | intros [[=] _]]).
  - rewrite (submit_job_ssh_run env regions_display _ _ _ _ _ _ _ Hname Hrc) in Hrun.
    cbv zeta in Hrun.
    destruct (env_run env _ _ _) as [result|msg|msg].
    + injection Hrun as <- _.
      assert (Hm : forall P : Prop, P -> ~ ~ P) by tauto.
      destruct (returncode result =? 0);
        (split; [repeat split; eexists; reflexivity|]);
        (split; [reflexivity|]);
        (split; [intros _; split; reflexivity|]);
        (split; [intros Hnot; exfalso; apply Hnot; split; [reflexivity|];
                 (now left) || (now right)|]);
        (split; [intros _; split; [reflexivity|]; (now left) || (now right)
                | reflexivity]).
    + injection Hrun as <- _.
      split; [repeat split; eexists; reflexivity|].
      split; [reflexivity|].
      split; [intros [_ [[=]|[=]]]|].
      split; [intros _; split; reflexivity|].
      split; [intros [=] | intros [_ [[=]|[=]]]].
    + injection Hrun as <- _.
      split; [repeat split; eexists; reflexivity|].
      split; [reflexivity|].
      split; [intros [_ [[=]|[=]]]|].
      split; [intros _; split; reflexivity|].
      split; [intros [=] | intros [_ [[=]|[=]]]].
Qed.

(** The record of a non-blocking submission that went through, in scenario
    A, has every field of the theorem and neither field of the elapsed
    duration. *)
Lemma submission_record_fields_async_ok :
  let env := quiet_env http_scenario_A run_ok None in
  exists entry w',
    submit_job_async env REGIONS_source "nordic" config_0 snapshot_A 0 []
      = (Ret entry, w')
    /\ has_submission_fields entry 0 config_0 "nordic" snapshot_A
    /\ get entry "intensities" = Some (VIntensities snapshot_A)
    /\ get entry "elapsed_seconds" = None
    /\ get entry "elapsed_hours" = None.
Proof.
  intros env.
  assert (Hrun : exists entry w',
             submit_job_async env REGIONS_source "nordic" config_0 snapshot_A 0 []
             = (Ret entry, w'))
    by (vm_compute; eauto).
  destruct Hrun as (entry & w' & Hrun).
  destruct (submission_record_fields env REGIONS_source true "nordic" config_0
              snapshot_A 0 [] entry w' Hrun)
    as (Hfields & _ & Hint & _ & Hnone & _).
  exists entry, w'. split; [exact Hrun|]. split; [exact Hfields|].
  split; [apply Hint; vm_compute; repeat constructor; simpl; intuition discriminate|].
  apply Hnone. intros [[=] _].
Defined.

(** C6, as stated, fails: the record of a non-blocking submission has no
    elapsed duration. *)
Lemma async_record_has_no_elapsed :
  ~ records_carry_elapsed_as_stated.
Proof.
  intros Hclaim.
  assert (Hrun : exists entry w',
             submit_job_async (quiet_env http_scenario_A run_ok None) REGIONS_source
               "nordic" config_0 snapshot_A 0 [] = (Ret entry, w'))
    by (vm_compute; eauto).
  destruct Hrun as (entry & w' & Hrun).
  destruct (Hclaim (quiet_env http_scenario_A run_ok None) REGIONS_source true
              "nordic" config_0 snapshot_A 0 [] entry w' Hrun) as [_ Hel].
  vm_compute in Hrun. injection Hrun as <- _.
  vm_compute in Hel. discriminate.
Qed.

(** ** Histories *)

Section Emits.

Context {A : Type}.

Lemma emits_ret (P : Event -> Prop) (Q : A -> Prop) a : Q a -> emits P Q (ret a).
Proof.
  intros HQ w. exists []. simpl. rewrite app_nil_r.
  repeat split; [constructor|]. now intros ? [= <-].
Qed.

Lemma emits_raise (P : Event -> Prop) (Q : A -> Prop) e : emits P Q (raise e).
Proof.
  intros w. exists []. simpl. rewrite app_nil_r.
  repeat split; [constructor|discriminate].
Qed.

Lemma emits_lift (P : Event -> Prop) (Q : A -> Prop) (r : Res A) :
  (forall a, r = Ret a -> Q a) -> emits P Q (lift r).
Proof.
  intros HQ w. exists []. simpl. rewrite app_nil_r.
  repeat split; [constructor|assumption].
Qed.

Lemma emits_weaken (P P' : Event -> Prop) (Q Q' : A -> Prop) c :
  emits P Q c -> (forall ev, P ev -> P' ev) -> (forall a, Q a -> Q' a) ->
  emits P' Q' c.
Proof.
  intros Hc HP HQ w. destruct (Hc w) as (added & Hw & Hall & Hret).
  exists added. repeat split; [assumption| |auto].
  eapply Forall_impl; eauto.
Qed.

Lemma emits_try (P : Event -> Prop) (Q : A -> Prop) body handler :
  emits P Q body ->
  (forall e h, handler e = Some h -> emits P Q h) ->
  emits P Q (try_except body handler).
Proof.
  intros Hbody Hh w. unfold try_except.
  destruct (Hbody w) as (added & Hw & Hall & Hret).
  destruct (body w) as [[a|e] w1]; simpl in *; subst.
  - exists added. auto.
  - destruct (handler e) as [h|] eqn:He.
    + destruct (Hh e h He (w ++ added)%list) as (added' & Hw' & Hall' & Hret').
      exists (added ++ added')%list. rewrite Hw', app_assoc.
      repeat split; [now apply Forall_app|assumption].
    + exists added. simpl. repeat split; [assumption|discriminate].
Qed.

End Emits.

Lemma emits_bind {A B} (P : Event -> Prop) (Q : A -> Prop) (R : B -> Prop)
    (c : M A) (k : A -> M B) :
  emits P Q c -> (forall a, Q a -> emits P R (k a)) -> emits P R (bind c k).
Proof.
  intros Hc Hk w. unfold bind.
  destruct (Hc w) as (added & Hw & Hall & Hret).
  destruct (c w) as [[a|e] w1]; simpl in *; subst.
  - destruct (Hk a (Hret a eq_refl) (w ++ added)%list) as (added' & Hw' & Hall' & Hret').
    exists (added ++ added')%list. rewrite Hw', app_assoc.
    repeat split; [now apply Forall_app|assumption].
  - exists added. simpl. repeat split; [assumption|discriminate].
Qed.

(** An interaction appends its one event. *)
Lemma emits_one {A} (P : Event -> Prop) (Q : A -> Prop) (c : M A) :
  (forall w, exists ev, snd (c w) = (w ++ [ev])%list /\ P ev
                        /\ forall a, fst (c w) = Ret a -> Q a) ->
  emits P Q c.
Proof.
  intros Hc w. destruct (Hc w) as (ev & Hw & HP & HQ).
  exists [ev]. repeat split; [assumption|now constructor|assumption].
Qed.

Lemma log_of_app w1 w2 : log_of (w1 ++ w2)%list = (log_of w1 ++ log_of w2)%list.
Proof.
  induction w1 as [|[] w1 IH]; simpl; try assumption; [reflexivity|].
  now rewrite IH.
Qed.

Lemma telemetry_no_log added : Forall telemetry_event added -> log_of added = [].
Proof.
  induction 1 as [|[] added Hev _ IH]; simpl; try assumption;
    try reflexivity; destruct Hev.
Qed.

Lemma telemetry_no_run added : Forall telemetry_event added -> filter is_run added = [].
Proof.
  induction 1 as [|[] added Hev _ IH]; simpl; try assumption;
    try reflexivity; destruct Hev.
Qed.

Lemma sleep_events_telemetry times : Forall telemetry_event (sleep_events times).
Proof. induction times; simpl; constructor; simpl; auto. Qed.

Section CampaignFacts.

Variable env : Env.
Variable regions_display : list (string * Region).

Lemma emits_now (P : Event -> Prop) :
  (forall t, P (EvNow t)) -> emits P any (now env).
Proof. intros HP. apply emits_one. intros w. eexists. simpl. repeat split. apply HP. Qed.

Lemma emits_time (P : Event -> Prop) :
  (forall t, P (EvTime t)) -> emits P any (time env).
Proof. intros HP. apply emits_one. intros w. eexists. simpl. repeat split. apply HP. Qed.

Lemma emits_sleep (P : Event -> Prop) seconds :
  P (EvSleep seconds) -> emits P any (sleep seconds).
Proof. intros HP. apply emits_one. intros w. eexists. simpl. repeat split. apply HP. Qed.

Lemma emits_append (P : Event -> Prop) path entry :
  P (EvAppend path entry) -> emits P any (append_line path entry).
Proof. intros HP. apply emits_one. intros w. eexists. simpl. repeat split. apply HP. Qed.

Lemma emits_run (P : Event -> Prop) cmd timeout :
  (forall o, P (EvRun cmd timeout o)) -> emits P any (subprocess_run env cmd timeout).
Proof. intros HP. apply emits_one. intros w. eexists. simpl. repeat split. apply HP. Qed.

Lemma get_carbon_intensity_emits z :
  emits telemetry_event any (get_carbon_intensity env z).
Proof.
  apply emits_one. intros w. rewrite get_carbon_intensity_run.
  eexists. simpl. repeat split.
Qed.

Lemma for_regions_emits items : forall acc,
  emits telemetry_event any (for_regions env items acc).
Proof.
  induction items as [|[region config] items IH]; intros acc; simpl.
  - now apply emits_ret.
  - eapply emits_bind; [apply get_carbon_intensity_emits|]. intros reading _.
    eapply emits_bind; [now apply emits_sleep|]. intros _ _. apply IH.
Qed.

Lemma pick_cleanest_region_emits :
  emits telemetry_event any (pick_cleanest_region env regions_display).
Proof.
  unfold pick_cleanest_region.
  eapply emits_bind; [apply for_regions_emits|]. intros snap _.
  destruct (of_items (successes snap)); [apply emits_raise|].
  eapply emits_bind; [apply emits_lift with (Q := any); now intros|].
  intros cleanest _. now apply emits_ret.
Qed.

(** The report adds nothing to the history. *)
Lemma report_lines_silent sorted_regions : forall w,
  snd (report_lines regions_display sorted_regions w) = w.
Proof.
  induction sorted_regions as [|[region intensity] rest IH]; intros w; [reflexivity|].
  cbn [report_lines]. unfold bind, subscript_regions, lift, ret, raise.
  destruct (get (REGIONS regions_display) region); [|reflexivity].
  destruct (py_lt intensity (RInt 100)) as [[]|e]; [| |reflexivity].
  - destruct (format_6_1f intensity); [apply IH|reflexivity].
  - destruct (py_lt intensity (RInt 300)) as [yellow|e]; [|reflexivity].
    destruct (format_6_1f intensity); [apply IH|reflexivity].
Qed.

Lemma print_intensity_report_silent intensities selected w :
  snd (print_intensity_report regions_display intensities selected w) = w.
Proof.
  unfold print_intensity_report, bind, lift.
  destruct (py_sorted (successes intensities)); [apply report_lines_silent|reflexivity].
Qed.

Lemma print_intensity_report_emits (P : Event -> Prop) intensities selected :
  emits P any (print_intensity_report regions_display intensities selected).
Proof.
  intros w. exists []. rewrite print_intensity_report_silent, app_nil_r.
  repeat split. constructor.
Qed.

(** The next submission of the campaign is always a date. *)
Lemma next_submission_is_a_date n :
  datetime_add (env_now env n) (SUBMISSION_INTERVAL_HOURS * US_PER_HOUR)
  = Ret (env_now env n + SUBMISSION_INTERVAL_HOURS * US_PER_HOUR).
Proof.
  unfold datetime_add. pose proof (env_now_range env n) as Hrange.
  unfold YEAR_9999, DATETIME_MAX, US_PER_DAY, US_PER_HOUR, SUBMISSION_INTERVAL_HOURS in *.
  destruct (Z.leb_spec 0 (env_now env n + 2 * (3600 * 1000000))); [|lia].
  destruct (Z.leb_spec (env_now env n + 2 * (3600 * 1000000))
              (3652059 * (24 * (3600 * 1000000)) - 1)); [reflexivity|lia].
Qed.

(** The waiting loop sleeps what [sleep_times] lists, and returns. *)
Lemma wait_loop_run fuel : forall total chunk elapsed w,
  wait_loop fuel total chunk elapsed w =
    (Ret tt, (w ++ sleep_events (sleep_times fuel total chunk elapsed))%list).
Proof.
  induction fuel as [|fuel IH]; intros total chunk elapsed w; simpl.
  - unfold ret. now rewrite app_nil_r.
  - destruct (elapsed <? total).
    + unfold bind, sleep. rewrite IH. unfold sleep_events. simpl.
      now rewrite <- app_assoc.
    + unfold ret. now rewrite app_nil_r.
Qed.

(** Enough fuel: with a positive chunk the loop ends because the whole
    interval has been slept, not because its fuel ran out. *)
Lemma sleep_times_total fuel : forall total chunk elapsed,
  0 < chunk -> (Z.to_nat (total - elapsed) <= fuel)%nat ->
  fold_right Z.add 0 (sleep_times fuel total chunk elapsed) = Z.max 0 (total - elapsed).
Proof.
  induction fuel as [|fuel IH]; intros total chunk elapsed Hc Hfuel; simpl.
  - lia.
  - destruct (Z.ltb_spec elapsed total) as [Hlt|Hge]; simpl; [|lia].
    rewrite IH; lia.
Qed.

Lemma wait_until_next_submission_run w :
  wait_until_next_submission env SUBMISSION_INTERVAL_HOURS w =
    (Ret tt, (w ++ cadence_wait)%list).
Proof.
  unfold wait_until_next_submission, bind, clock, lift.
  change (timedelta_hours SUBMISSION_INTERVAL_HOURS)
    with (Ret (A := Z) (SUBMISSION_INTERVAL_HOURS * US_PER_HOUR)).
  cbv iota. rewrite next_submission_is_a_date. now rewrite wait_loop_run.
Qed.

Lemma cadence_wait_total :
  fold_right Z.add 0 (sleep_times (Z.to_nat (SUBMISSION_INTERVAL_HOURS * 3600))
                        (SUBMISSION_INTERVAL_HOURS * 3600) 600 0)
  = SUBMISSION_INTERVAL_HOURS * 3600
  /\ sleep_events (sleep_times (Z.to_nat (SUBMISSION_INTERVAL_HOURS * 3600))
                     (SUBMISSION_INTERVAL_HOURS * 3600) 600 0) = cadence_wait.
Proof.
  split; [|vm_compute; reflexivity].
  rewrite sleep_times_total; unfold SUBMISSION_INTERVAL_HOURS; lia.
Qed.

Lemma submission_entry_job_index t i job_id name config region intensities rc status :
  get (submission_entry env t i job_id name config region intensities rc status)
      "job_index" = Some (VInt i).
Proof. reflexivity. Qed.

Lemma submit_job_ssh_emits region config intensities i :
  emits (submit_event config) (fun entry => get entry "job_index" = Some (VInt i))
        (submit_job_ssh env regions_display region config intensities i).
Proof.
  unfold submit_job_ssh.
  eapply emits_bind; [apply emits_lift with (Q := any); now intros|]. intros name _.
  eapply emits_bind; [now apply emits_now|]. intros stamp _.
  eapply emits_bind.
  { unfold subscript_regions.
    destruct (get _ region); [now apply emits_ret with (Q := any)|apply emits_raise]. }
  intros rc _.
  eapply emits_bind; [now apply emits_now|]. intros timestamp _.
  eapply emits_bind; [now apply emits_time|]. intros start _.
  apply emits_try.
  - eapply emits_bind; [apply emits_run; now intros|]. intros result _.
    eapply emits_bind; [now apply emits_time|]. intros end_time _.
    destruct (returncode result =? 0); apply emits_ret; reflexivity.
  - intros e h He. destruct e; injection He as <-; apply emits_ret; reflexivity.
Qed.

Lemma submit_job_async_emits region config intensities i :
  emits (submit_event config) (fun entry => get entry "job_index" = Some (VInt i))
        (submit_job_async env regions_display region config intensities i).
Proof.
  unfold submit_job_async.
  eapply emits_bind; [apply emits_lift with (Q := any); now intros|]. intros name _.
  eapply emits_bind; [now apply emits_now|]. intros stamp _.
  eapply emits_bind.
  { unfold subscript_regions.
    destruct (get _ region); [now apply emits_ret with (Q := any)|apply emits_raise]. }
  intros rc _.
  eapply emits_bind; [now apply emits_now|]. intros timestamp _.
  apply emits_try.
  - eapply emits_bind; [apply emits_run; now intros|]. intros result _.
    destruct (returncode result =? 0); apply emits_ret; reflexivity.
  - intros e h He. injection He as <-. apply emits_ret. reflexivity.
Qed.

Lemma wait_if_not_last_emits (P : Event -> Prop) (total i : Z) :
  (forall s, P (EvSleep s)) ->
  emits P any (if i <? total - 1
               then wait_until_next_submission env SUBMISSION_INTERVAL_HOURS
               else ret tt).
Proof.
  intros HP. destruct (i <? total - 1); [|now apply emits_ret].
  intros w. rewrite wait_until_next_submission_run. exists cadence_wait.
  repeat split. unfold cadence_wait. apply Forall_forall.
  intros ev Hev. apply repeat_spec in Hev. subst. apply HP.
Qed.

Variable submit_func : Submitter.
Variable log_file : string.
Variable total : Z.

Hypothesis submit_func_emits : forall region config intensities i,
  emits (submit_event config) (fun entry => get entry "job_index" = Some (VInt i))
        (submit_func region config intensities i).

(** A tick whose selection fails: one clock reading, the record, the wait. *)
Lemma tick_skipped i config w msg w1 :
  pick_cleanest_region env regions_display w = (Raise (RuntimeError msg), w1) ->
  tick env regions_display submit_func log_file total i config w =
    (Ret tt,
     (w1 ++ [EvNow (env_now env (length w1));
             EvAppend log_file (skipped_entry env (env_now env (length w1)) i config)]
         ++ wait_if_not_last total i)%list).
Proof.
  intros Hpick. unfold tick, bind at 1, try_except, bind at 1. rewrite Hpick.
  unfold bind, now, append_line, wait_if_not_last.
  destruct (i <? total - 1).
  - rewrite wait_until_next_submission_run. unfold ret.
    now rewrite <- ?app_assoc.
  - unfold ret. simpl. now rewrite <- ?app_assoc.
Qed.

(** A tick whose selection, report and submission return: the record, the
    wait. *)
Lemma tick_dispatched i config w region intensities w1 entry w2 :
  pick_cleanest_region env regions_display w = (Ret (region, intensities), w1) ->
  print_intensity_report regions_display intensities (Some region) w1 = (Ret tt, w1) ->
  submit_func region config intensities i w1 = (Ret entry, w2) ->
  tick env regions_display submit_func log_file total i config w =
    (Ret tt, (w2 ++ [EvAppend log_file entry] ++ wait_if_not_last total i)%list).
Proof.
  intros Hpick Hreport Hsubmit.
  unfold tick, bind at 1, try_except, bind at 1. rewrite Hpick.
  unfold ret at 1, bind at 1. rewrite Hreport. unfold bind at 1. rewrite Hsubmit.
  unfold bind, append_line, wait_if_not_last.
  destruct (i <? total - 1).
  - rewrite wait_until_next_submission_run. now rewrite <- ?app_assoc.
  - unfold ret. simpl. now rewrite <- ?app_assoc.
Qed.

Lemma tick_emits i config :
  emits (tick_event i config) any
        (tick env regions_display submit_func log_file total i config).
Proof.
  unfold tick. eapply emits_bind with (Q := any).
  - apply emits_try.
    + eapply emits_bind; [|intros picked _; now apply emits_ret].
      eapply emits_weaken; [apply pick_cleanest_region_emits| |intros ? Hq; exact Hq].
      intros [] Hev; simpl in *; tauto.
    + intros e h He. destruct e; try discriminate. injection He as <-.
      eapply emits_bind; [now apply emits_now|]. intros timestamp _.
      eapply emits_bind; [apply emits_append; reflexivity|]. intros _ _.
      eapply emits_bind; [now apply wait_if_not_last_emits|]. intros _ _.
      now apply emits_ret.
  - intros [[region intensities]|] _; [|now apply emits_ret].
    eapply emits_bind; [apply print_intensity_report_emits|]. intros _ _.
    eapply emits_bind.
    { eapply emits_weaken; [apply submit_func_emits| |intros ? Hq; exact Hq].
      intros [] Hev; simpl in *; tauto. }
    intros entry Hentry.
    eapply emits_bind; [apply emits_append; exact Hentry|]. intros _ _.
    now apply wait_if_not_last_emits.
Qed.

Lemma for_jobs_emits configs : forall i,
  emits (fun ev => exists n config,
           nth_error configs n = Some config
           /\ tick_event (i + Z.of_nat n) config ev)
        any (for_jobs env regions_display submit_func log_file total i configs).
Proof.
  induction configs as [|config configs IH]; intros i; simpl.
  - now apply emits_ret.
  - eapply emits_bind with (Q := any).
    + eapply emits_weaken; [apply tick_emits| |intros ? Hq; exact Hq].
      intros ev Hev. exists 0%nat, config. split; [reflexivity|].
      now rewrite Z.add_0_r.
    + intros _ _. eapply emits_weaken; [apply IH| |intros ? Hq; exact Hq].
      intros ev (n & c & Hn & Hev). exists (S n), c. split; [assumption|].
      now replace (i + Z.of_nat (S n)) with (i + 1 + Z.of_nat n) by lia.
Qed.

(** The loop over a backlog is the loop over its first part followed, when
    that returns, by the loop over the rest. *)
Lemma for_jobs_app l1 l2 : forall i w,
  for_jobs env regions_display submit_func log_file total i (l1 ++ l2) w =
    match for_jobs env regions_display submit_func log_file total i l1 w with
    | (Ret _, w1) =>
        for_jobs env regions_display submit_func log_file total
          (i + Z.of_nat (length l1)) l2 w1
    | (Raise e, w1) => (Raise e, w1)
    end.
Proof.
  induction l1 as [|config l1 IH]; intros i w; simpl.
  - unfold ret. now rewrite Z.add_0_r.
  - unfold bind.
    destruct (tick env regions_display submit_func log_file total i config w)
      as [[[]|e] w1]; [|reflexivity].
    rewrite IH. now replace (i + 1 + Z.of_nat (length l1))
      with (i + Z.pos (Pos.of_succ_nat (length l1))) by lia.
Qed.

(** With no region in the table every tick is skipped. *)
Lemma for_jobs_without_regions configs :
  REGIONS regions_display = [] ->
  forall i w, exists added,
    for_jobs env regions_display submit_func log_file total i configs w
      = (Ret tt, (w ++ added)%list)
    /\ length (log_of added) = length configs
    /\ Forall (fun entry => status_is entry "skipped_api_error") (log_of added)
    /\ filter is_run added = []
    /\ filter is_input added = [].
Proof.
  intros Hempty.
  assert (Hpick : forall w, pick_cleanest_region env regions_display w =
            (Raise (RuntimeError "Could not get carbon intensity for any region!"), w)).
  { intros w. unfold pick_cleanest_region, get_all_intensities. now rewrite Hempty. }
  induction configs as [|config configs IH]; intros i w; simpl.
  - exists []. rewrite app_nil_r. repeat split; constructor.
  - unfold bind. rewrite (tick_skipped _ _ _ _ _ (Hpick w)).
    destruct (IH (i + 1)
                (w ++ [EvNow (env_now env (length w));
                       EvAppend log_file (skipped_entry env (env_now env (length w)) i config)]
                   ++ wait_if_not_last total i)%list)
      as (added & Hrun & Hlen & Hall & Hnorun & Hnoin).
    rewrite Hrun. eexists. split; [now rewrite <- app_assoc|].
    assert (Hw : log_of (wait_if_not_last total i) = []
                 /\ filter is_run (wait_if_not_last total i) = []
                 /\ filter is_input (wait_if_not_last total i) = []).
    { unfold wait_if_not_last. destruct (i <? total - 1); repeat split. }
    destruct Hw as (Hw1 & Hw2 & Hw3).
    rewrite !log_of_app, !filter_app, Hw1, Hw2, Hw3, Hnorun, Hnoin. simpl.
    repeat split; [now rewrite Hlen|]. constructor; [reflexivity|assumption].
Qed.

End CampaignFacts.

(** ** The campaign *)

(** C2, as amended: a tick in which telemetry fails for every region
    returns normally after appending exactly one record; the record holds
    the timestamp, the job index, the configuration and the status text
    [skipped_api_error], and neither a region nor intensities; nothing is
    dispatched in that tick. *)
Theorem skipped_tick_record
    env regions_display submit_func log_file total i config w msg w1 :
  pick_cleanest_region env regions_display w = (Raise (RuntimeError msg), w1) ->
  exists entry w2,
    tick env regions_display submit_func log_file total i config w = (Ret tt, w2)
    /\ log_of w2 = (log_of w ++ [entry])%list
    /\ filter is_run w2 = filter is_run w
    /\ keys entry = ["timestamp"; "job_index"; "config"; "status"]
    /\ get entry "status" = Some (VStr "skipped_api_error")
    /\ get entry "job_index" = Some (VInt i)
    /\ get entry "config" = Some (VConfig config)
    /\ get entry "selected_region" = None
    /\ get entry "intensities" = None.
Proof.
  intros Hpick.
  destruct (pick_cleanest_region_emits env regions_display w)
    as (added & Hw1 & Htel & _).
  rewrite Hpick in Hw1. simpl in Hw1. subst w1.
  eexists _, _. split; [exact (tick_skipped _ _ _ _ _ _ _ _ _ _ Hpick)|].
  assert (Hw : log_of (wait_if_not_last total i) = []
               /\ filter is_run (wait_if_not_last total i) = []).
  { unfold wait_if_not_last. destruct (i <? total - 1); split; reflexivity. }
  destruct Hw as [Hw1 Hw2].
  rewrite !log_of_app, !filter_app, Hw1, Hw2.
  rewrite (telemetry_no_log _ Htel), (telemetry_no_run _ Htel). simpl.
  rewrite !app_nil_r. repeat split.
Qed.

(** Scenario B: every query fails; the first tick of the campaign writes
    the skip record. *)
Lemma skipped_tick_record_scenario_B :
  let env := quiet_env http_all_fail run_ok None in
  exists entry w2,
    tick env REGIONS_source (submit_job_ssh env REGIONS_source) "run.jsonl" 21 0
         config_0 [] = (Ret tt, w2)
    /\ log_of w2 = ([] ++ [entry])%list
    /\ filter is_run w2 = []
    /\ keys entry = ["timestamp"; "job_index"; "config"; "status"]
    /\ get entry "status" = Some (VStr "skipped_api_error")
    /\ get entry "job_index" = Some (VInt 0)
    /\ get entry "config" = Some (VConfig config_0)
    /\ get entry "selected_region" = None
    /\ get entry "intensities" = None.
Proof.
  eapply (skipped_tick_record (quiet_env http_all_fail run_ok None) REGIONS_source
            (submit_job_ssh (quiet_env http_all_fail run_ok None) REGIONS_source)
            "run.jsonl" 21 0 config_0 []).
  vm_compute. reflexivity.
Defined.

(** C2, as stated, fails: in scenario B the status text of the record is
    [skipped_api_error], not [skipped_no_telemetry]. *)
Lemma skip_status_is_not_skipped_no_telemetry :
  ~ skip_record_claim "skipped_no_telemetry".
Proof.
  intros Hclaim.
  assert (Hpick : exists msg w1,
             pick_cleanest_region (quiet_env http_all_fail run_ok None) REGIONS_source []
             = (Raise (RuntimeError msg), w1))
    by (vm_compute; eauto).
  destruct Hpick as (msg & w1 & Hpick).
  destruct (Hclaim (quiet_env http_all_fail run_ok None) REGIONS_source
              (submit_job_ssh (quiet_env http_all_fail run_ok None) REGIONS_source)
              "run.jsonl" 21 0 config_0 [] msg w1 Hpick)
    as (entry & w2 & Htick & Hlog & Hstatus & _).
  vm_compute in Htick. injection Htick as <-.
  vm_compute in Hlog. injection Hlog as <-.
  vm_compute in Hstatus. discriminate.
Qed.

Lemma firstn_S_nth {A} (l : list A) : forall k x,
  nth_error l k = Some x -> firstn (S k) l = (firstn k l ++ [x])%list.
Proof.
  induction l as [|a l IH]; intros [|k] x Hk; simpl in *; try discriminate.
  - now injection Hk as ->.
  - now rewrite <- (IH k x Hk).
Qed.

Lemma submitter_emits env regions_display (async_mode : bool)
    region config intensities i :
  emits (submit_event config) (fun entry => get entry "job_index" = Some (VInt i))
        ((if async_mode then submit_job_async env regions_display
          else submit_job_ssh env regions_display) region config intensities i).
Proof.
  destruct async_mode; [apply submit_job_async_emits|apply submit_job_ssh_emits].
Qed.

(** C7: let the ticks of the jobs before position [k] have run, and let the
    selection of tick [k] fail.  Then tick [k] writes its skip record and
    waits: the twelve ten-minute sleeps of one cadence interval, or nothing
    when [k] is the last job, which is also what a tick waits that reported
    its readings and dispatched its job.  Nothing is dispatched during the
    tick, and the campaign goes on with the job at position [k + 1]:
    whatever is dispatched or recorded afterwards belongs to a job at a
    later position, so the skipped job is not tried again (in a backlog
    without repeats, no later [ssh] run carries its configuration). *)
Theorem skipped_job_waits_then_advances
    env regions_display (async_mode : bool) log_file configs k config w0 wk msg wk1 :
  let submit_func :=
    if async_mode then submit_job_async env regions_display
    else submit_job_ssh env regions_display in
  let total := Z.of_nat (length configs) in
  let i := Z.of_nat k in
  let run_jobs := for_jobs env regions_display submit_func log_file total in
  nth_error configs k = Some config ->
  run_jobs 0 (firstn k configs) w0 = (Ret tt, wk) ->
  pick_cleanest_region env regions_display wk = (Raise (RuntimeError msg), wk1) ->
  let timestamp := env_now env (length wk1) in
  let wk' :=
    (wk1 ++ [EvNow timestamp; EvAppend log_file (skipped_entry env timestamp i config)]
         ++ wait_if_not_last total i)%list in
  run_jobs 0 (firstn (S k) configs) w0 = (Ret tt, wk')
  /\ run_jobs 0 configs w0 = run_jobs (i + 1) (skipn (S k) configs) wk'
  /\ filter is_run wk' = filter is_run wk
  /\ (forall res wf,
        run_jobs 0 configs w0 = (res, wf) ->
        exists later,
          wf = (wk' ++ later)%list
          /\ Forall (later_event configs k) later
          /\ (NoDup configs ->
              forall cmd t o, In (EvRun cmd t o) later -> ssh_config cmd <> config))
  /\ (forall w region intensities w1 entry w2,
        pick_cleanest_region env regions_display w = (Ret (region, intensities), w1) ->
        print_intensity_report regions_display intensities (Some region) w1
          = (Ret tt, w1) ->
        submit_func region config intensities i w1 = (Ret entry, w2) ->
        tick env regions_display submit_func log_file total i config w =
          (Ret tt, (w2 ++ [EvAppend log_file entry] ++ wait_if_not_last total i)%list)).
Proof.
  intros submit_func total i run_jobs Hk Hbefore Hpick timestamp wk'.
  assert (Hlen : length (firstn k configs) = k).
  { apply firstn_length_le. apply Nat.lt_le_incl. apply nth_error_Some. congruence. }
  assert (Htick : run_jobs i [config] wk = (Ret tt, wk')).
  { unfold run_jobs. simpl. unfold bind.
    rewrite (tick_skipped _ _ _ _ _ _ _ _ _ _ Hpick). reflexivity. }
  assert (Hnext : run_jobs 0 (firstn (S k) configs) w0 = (Ret tt, wk')).
  { rewrite (firstn_S_nth _ _ _ Hk).
    unfold run_jobs. rewrite for_jobs_app. fold run_jobs. rewrite Hbefore, Hlen.
    exact Htick. }
  assert (Hrest : run_jobs 0 configs w0 = run_jobs (i + 1) (skipn (S k) configs) wk').
  { rewrite <- (firstn_skipn (S k) configs) at 1.
    unfold run_jobs. rewrite for_jobs_app. fold run_jobs. rewrite Hnext.
    f_equal. rewrite firstn_length_le; [lia|].
    apply nth_error_Some. congruence. }
  split; [assumption|]. split; [assumption|]. split; [|split].
  - destruct (pick_cleanest_region_emits env regions_display wk)
      as (added & Hw1 & Htel & _).
    rewrite Hpick in Hw1. simpl in Hw1. subst wk1 wk'.
    rewrite !filter_app, (telemetry_no_run _ Htel).
    unfold wait_if_not_last. destruct (i <? total - 1); simpl; now rewrite !app_nil_r.
  - intros res wf Hrun. rewrite Hrest in Hrun.
    destruct (for_jobs_emits env regions_display submit_func log_file total
                (submitter_emits env regions_display async_mode)
                (skipn (S k) configs) (i + 1) wk')
      as (later & Hwf & Hall & _).
    fold run_jobs in Hwf. rewrite Hrun in Hwf. simpl in Hwf.
    assert (Hlater : Forall (later_event configs k) later).
    { eapply Forall_impl; [|exact Hall].
      intros ev (n & c & Hn & Hev). exists (S k + n)%nat, c.
      rewrite nth_error_skipn in Hn. split; [lia|]. split; [assumption|].
      now replace (Z.of_nat (S k + n)) with (i + 1 + Z.of_nat n) by lia. }
    exists later. split; [assumption|]. split; [assumption|].
    intros Hnd cmd t o Hin Heq.
    apply (proj1 (Forall_forall _ _) Hlater) in Hin as (j & c & Hj & Hc & Hev).
    simpl in Hev. subst c. rewrite Heq, <- Hk in Hc.
    apply (proj1 (NoDup_nth_error _) Hnd) in Hc; [lia|].
    apply nth_error_Some. congruence.
  - intros w region intensities w1 entry w2 Hp Hr Hs.
    exact (tick_dispatched _ _ _ _ _ _ _ _ _ _ _ _ _ Hp Hr Hs).
Qed.

(** Scenario B at the first job of the campaign: the tick is skipped, the
    cadence is waited, and the campaign goes on with the second job. *)
Lemma skipped_job_waits_then_advances_scenario_B :
  let env := quiet_env http_all_fail run_ok None in
  let submit_func := submit_job_ssh env REGIONS_source in
  let run_jobs := for_jobs env REGIONS_source submit_func "run.jsonl" 21 in
  exists wk1 wk',
    pick_cleanest_region env REGIONS_source [] =
      (Raise (RuntimeError "Could not get carbon intensity for any region!"), wk1)
    /\ wk' = (wk1 ++ [EvNow 6; EvAppend "run.jsonl" (skipped_entry env 6 0 config_0)]
                  ++ cadence_wait)%list
    /\ run_jobs 0 EXPERIMENT_CONFIGS [] = run_jobs 1 (skipn 1 EXPERIMENT_CONFIGS) wk'.
Proof.
  eexists _, _. split; [vm_compute; reflexivity|]. split; [reflexivity|].
  refine (proj1 (proj2 (skipped_job_waits_then_advances
            (quiet_env http_all_fail run_ok None) REGIONS_source false "run.jsonl"
            EXPERIMENT_CONFIGS 0 config_0 [] [] _ _ _ _ _)));
    vm_compute; reflexivity.
Defined.

Lemma filter_nil_iff {A} (f : A -> bool) l :
  filter f l = [] <-> (forall x, In x l -> f x = false).
Proof.
  induction l as [|a l IH]; simpl; [tauto|].
  destruct (f a) eqn:Hfa.
  - split; [discriminate|]. intros H. specialize (H a (or_introl eq_refl)). congruence.
  - rewrite IH. split.
    + intros H x [<-|Hin]; auto.
    + intros H x Hin. auto.
Qed.

Lemma has_placeholder_filter (regions : dict Region) :
  has_placeholder regions <->
  filter (fun rc => contains "100.x.x.x" (ip (snd rc))) regions <> [].
Proof.
  split.
  - intros (region & config & Hin & Hc) Hnil.
    apply (proj1 (filter_nil_iff _ _)) with (x := (region, config)) in Hnil; [|assumption].
    simpl in Hnil. congruence.
  - intros Hne.
    destruct (filter _ regions) as [|[region config] rest] eqn:Hf; [congruence|].
    assert (Hin : In (region, config) (filter (fun rc => contains "100.x.x.x" (ip (snd rc))) regions))
      by (rewrite Hf; now left).
    apply filter_In in Hin as [Hin Hc]. exists region, config. auto.
Qed.

(** C5, as amended: at startup, before the loop, the program reads the
    clock and looks for regions whose address still holds the placeholder
    [100.x.x.x].  If there is one it asks the operator [Continue anyway?]
    and returns before the first tick unless the answer, lowercased, is [y],
    in which case the campaign runs; without a placeholder the campaign runs
    at once.  An empty region table is not rejected: the campaign runs, no
    prompt is shown, nothing is dispatched, and each of the 21 jobs is
    recorded as [skipped_api_error]. *)
Theorem run_experiment_startup env regions_display (async_mode : bool) w :
  let stamp := env_now env (length w) in
  let log_file := log_path (strftime env "%Y%m%d_%H%M%S" stamp) in
  let submit_func :=
    if async_mode then submit_job_async env regions_display
    else submit_job_ssh env regions_display in
  let campaign :=
    for_jobs env regions_display submit_func log_file TOTAL_JOBS 0 EXPERIMENT_CONFIGS in
  let w0 := (w ++ [EvNow stamp])%list in
  let prompt := "Continue anyway? (y/N): " in
  let answer := env_input env (length w0) prompt in
  let w1 := (w0 ++ [EvInput prompt answer])%list in
  (has_placeholder (REGIONS regions_display) ->
   run_experiment env regions_display async_mode w =
     match answer with
     | None => (Raise EOFError, w1)
     | Some response =>
         if String.eqb (lower response) "y" then campaign w1 else (Ret tt, w1)
     end)
  /\ (~ has_placeholder (REGIONS regions_display) ->
      run_experiment env regions_display async_mode w = campaign w0)
  /\ (REGIONS regions_display = [] ->
      exists added,
        run_experiment env regions_display async_mode w = (Ret tt, (w ++ added)%list)
        /\ length (log_of added) = 21%nat
        /\ Forall (fun entry => status_is entry "skipped_api_error") (log_of added)
        /\ filter is_run added = []
        /\ filter is_input added = []).
Proof.
  intros stamp log_file submit_func campaign w0 prompt answer w1.
  assert (Hclean : ~ has_placeholder (REGIONS regions_display) ->
                   run_experiment env regions_display async_mode w = campaign w0).
  { intros Hno. rewrite has_placeholder_filter in Hno.
    unfold run_experiment, bind at 1, now.
    destruct (filter _ (REGIONS regions_display)) as [|x rest]; [|exfalso; now apply Hno].
    reflexivity. }
  split; [|split; [assumption|]].
  - intros Hph. apply has_placeholder_filter in Hph.
    unfold run_experiment, bind at 1, now.
    destruct (filter _ (REGIONS regions_display)) as [|x rest]; [congruence|].
    unfold bind, input. fold stamp w0 prompt answer w1.
    destruct answer as [response|]; [|reflexivity].
    unfold ret. destruct (String.eqb (lower response) "y"); reflexivity.
  - intros Hempty. rewrite Hclean.
    + destruct (for_jobs_without_regions env regions_display submit_func log_file
                  TOTAL_JOBS EXPERIMENT_CONFIGS Hempty 0 w0)
        as (added & Hrun & Hlen & Hall & Hnorun & Hnoin).
      exists ([EvNow stamp] ++ added)%list. fold campaign in Hrun. rewrite Hrun.
      unfold w0. rewrite <- app_assoc. repeat split; assumption.
    + rewrite Hempty. intros (region & config & [] & _).
Qed.

(** The source's table holds a placeholder for ohio: the operator is asked,
    and on the answer [n] the run returns before the first tick. *)
Lemma run_experiment_startup_declined :
  run_experiment (quiet_env http_scenario_A run_ok (Some "n")) REGIONS_source false []
  = (Ret tt, [EvNow 0; EvInput "Continue anyway? (y/N): " (Some "n")]).
Proof.
  refine (proj1 (run_experiment_startup
                   (quiet_env http_scenario_A run_ok (Some "n")) REGIONS_source false [])
                _).
  exists "ohio", (mkRegion "US-MIDA-PJM" "100.x.x.x" "Ohio, USA - Fossil-heavy grid (baseline)").
  split; [vm_compute; tauto | vm_compute; reflexivity].
Defined.

(** C5, as stated, fails: with an empty region table the run is not ended
    at startup; its third event is the record of the first tick. *)
Lemma empty_region_table_is_not_rejected :
  ~ startup_rejection_as_stated.
Proof.
  intros Hclaim.
  destruct (Hclaim (quiet_env http_all_fail run_ok None) [] false [] (or_introl eq_refl))
    as (res & added & Hrun & Hall).
  vm_compute in Hrun. injection Hrun as _ <-.
  inversion Hall as [|? ? _ Hall1]; subst.
  inversion Hall1 as [|? ? _ Hall2]; subst.
  inversion Hall2 as [|? ? Hev _]; subst.
  exact Hev.
Qed.

(** ** The telemetry gateway *)

(** X1: transport errors, HTTP error statuses and bodies that are not JSON
    all come back as the failure marker, after the one query. *)
Lemma get_carbon_intensity_request_errors env z w :
  match env_http env (length w) z with
  | HttpRaises _ => True
  | HttpResponse status body =>
      (400 <=? status) && (status <? 600) = true \/ body = BodyNotJson
  end ->
  get_carbon_intensity env z w =
    (Ret None, (w ++ [EvHttp z (env_http env (length w) z)])%list).
Proof.
  rewrite get_carbon_intensity_run.
  destruct (env_http env (length w) z) as [msg|status body]; [reflexivity|].
  intros [Hst| ->]; [now rewrite Hst|].
  now destruct ((400 <=? status) && (status <? 600)).
Qed.

(** C3, at its failing input: the data source answers 200 with a JSON
    object that has no field [carbonIntensity].  The fetch raises
    [KeyError] instead of returning the failure marker, and a campaign over
    that region ends with that exception before any record is written. *)
Theorem get_carbon_intensity_raises_KeyError :
  let env := quiet_env http_no_field run_ok None in
  get_carbon_intensity env "NO" [] =
    (Raise (KeyError "carbonIntensity"), [EvHttp "NO" (HttpResponse 200 (BodyObject None))])
  /\ run_experiment env [("nordic", nordic)] false [] =
       (Raise (KeyError "carbonIntensity"),
        [EvNow 0; EvHttp "NO" (HttpResponse 200 (BodyObject None))]).
Proof. split; vm_compute; reflexivity. Qed.

(** * Further properties *)

(** ** The gateway, region by region *)

(** In scenario B the query for a zone fails in transport and comes back as
    the failure marker. *)
Lemma get_carbon_intensity_request_errors_scenario_B :
  get_carbon_intensity (quiet_env http_all_fail run_ok None) "NO" []
  = (Ret None, [EvHttp "NO" (HttpRaises "connection refused")]).
Proof.
  apply (get_carbon_intensity_request_errors
           (quiet_env http_all_fail run_ok None) "NO" []).
  simpl. exact I.
Defined.

Lemma map_fst_combine {A B} (l : list A) : forall (l' : list B),
  length l = length l' -> map fst (combine l l') = l.
Proof.
  induction l as [|a l IH]; intros [|b l'] Hlen; simpl in *; try discriminate;
    [reflexivity|]. f_equal. apply IH. lia.
Qed.

Lemma get_carbon_intensity_handled env z w :
  handledb (env_http env (length w) z) = true ->
  get_carbon_intensity env z w =
    (Ret (reading_of (env_http env (length w) z)),
     (w ++ [EvHttp z (env_http env (length w) z)])%list).
Proof.
  rewrite get_carbon_intensity_run. unfold handledb, reading_of.
  destruct (env_http env (length w) z) as [msg|status body]; [reflexivity|].
  destruct ((400 <=? status) && (status <? 600)); simpl.
  - now destruct body as [| |[v|]].
  - destruct body as [| |[v|]]; try discriminate; reflexivity.
Qed.

Lemma for_regions_handled env items :
  (forall n z, handledb (env_http env n z) = true) ->
  forall acc w,
    NoDup (keys acc ++ keys items) ->
    for_regions env items acc w =
      (Ret (acc ++ sweep_snapshot items (sweep_outcomes env (length w) items))%list,
       (w ++ sweep_events items (sweep_outcomes env (length w) items))%list).
Proof.
  intros Hh. induction items as [|[region config] items IH]; intros acc w Hnd.
  - simpl. unfold ret, sweep_snapshot, sweep_events. simpl. now rewrite !app_nil_r.
  - assert (Hfresh : ~ In region (keys acc)).
    { intros Hin. simpl in Hnd. apply NoDup_remove_2 in Hnd. apply Hnd.
      apply in_or_app. now left. }
    cbn [for_regions]. unfold bind at 1.
    rewrite (get_carbon_intensity_handled _ _ _ (Hh _ _)).
    unfold bind at 1, sleep at 1. rewrite IH.
    + rewrite set_fresh by assumption.
      rewrite !length_app. simpl length.
      replace (length w + 1 + 1)%nat with (2 + length w)%nat by lia.
      unfold sweep_snapshot, sweep_events. simpl.
      now rewrite <- !app_assoc.
    + rewrite set_fresh by assumption. unfold keys at 1. rewrite map_app. simpl.
      rewrite <- app_assoc. exact Hnd.
Qed.

(** X2: when every answer of the data source is one the gateway handles,
    the sweep over the regions never stops early: it queries each region
    once, in the order of the table, sleeps half a second after each query,
    and returns a snapshot with one entry per region, the failure marker for
    every query that failed. *)
Theorem get_all_intensities_sweeps_every_region env regions_display w :
  (forall n z, handledb (env_http env n z) = true) ->
  let outcomes := sweep_outcomes env (length w) (REGIONS regions_display) in
  get_all_intensities env regions_display w =
    (Ret (sweep_snapshot (REGIONS regions_display) outcomes),
     (w ++ sweep_events (REGIONS regions_display) outcomes)%list)
  /\ length outcomes = length (REGIONS regions_display)
  /\ keys (sweep_snapshot (REGIONS regions_display) outcomes)
     = keys (REGIONS regions_display).
Proof.
  intros Hh outcomes.
  assert (Hlen : forall items n, length (sweep_outcomes env n items) = length items).
  { induction items as [|[r c] items IH]; intros n; simpl; [reflexivity|].
    now rewrite IH. }
  split; [|split].
  - unfold get_all_intensities. rewrite (for_regions_handled env _ Hh).
    + reflexivity.
    + simpl. apply of_items_NoDup.
  - apply Hlen.
  - unfold sweep_snapshot, keys. rewrite map_map. simpl.
    rewrite <- (map_map fst fst). rewrite map_fst_combine; [reflexivity|].
    unfold outcomes. now rewrite Hlen.
Qed.

(** Scenario B over the source's table: three queries, three failure
    markers. *)
Lemma get_all_intensities_sweeps_scenario_B :
  get_all_intensities (quiet_env http_all_fail run_ok None) REGIONS_source []
  = (Ret [("quebec", None); ("ohio", None); ("nordic", None)],
     [EvHttp "CA-QC" (HttpRaises "connection refused"); EvSleep (1 # 2);
      EvHttp "US-MIDA-PJM" (HttpRaises "connection refused"); EvSleep (1 # 2);
      EvHttp "NO" (HttpRaises "connection refused"); EvSleep (1 # 2)]).
Proof.
  refine (proj1 (get_all_intensities_sweeps_every_region
                   (quiet_env http_all_fail run_ok None) REGIONS_source [] _)).
  intros n z. reflexivity.
Defined.

(** ** The waiting loop *)

Lemma sleep_times_bounds fuel : forall total chunk elapsed,
  0 < chunk ->
  Forall (fun t => 0 < t <= chunk) (sleep_times fuel total chunk elapsed).
Proof.
  induction fuel as [|fuel IH]; intros total chunk elapsed Hc; simpl; [constructor|].
  destruct (Z.ltb_spec elapsed total); constructor; [lia|now apply IH].
Qed.

(** X3: the waiting loop first computes the time of the next submission,
    [hours] after the reading of the clock.  When that time is a date, the
    loop returns; it has slept in chunks of at most ten minutes, each of
    them positive, whose sum is the whole interval of [hours * 3600]
    seconds, and it has not slept at all when the interval is not positive.
    When that time is not a date, because the interval reaches past the
    year 9999 or back before the year 1, the loop raises [OverflowError]
    before any sleep. *)
Theorem wait_until_next_submission_sleeps_interval env hours w :
  let next_time := env_now env (length w) + hours * US_PER_HOUR in
  (0 <= next_time <= DATETIME_MAX ->
   exists times,
     wait_until_next_submission env hours w = (Ret tt, (w ++ sleep_events times)%list)
     /\ fold_right Z.add 0 times = Z.max 0 (hours * 3600)
     /\ Forall (fun t => 0 < t <= 600) times
     /\ (hours <= 0 -> times = []))
  /\ (~ 0 <= next_time <= DATETIME_MAX ->
      exists msg,
        wait_until_next_submission env hours w = (Raise (OverflowError msg), w)).
Proof.
  intros next_time. subst next_time.
  pose proof (env_now_range env (length w)) as Hnow.
  unfold wait_until_next_submission, bind, clock, lift, timedelta_hours, datetime_add.
  unfold YEAR_9999, DATETIME_MAX, US_PER_DAY, US_PER_HOUR in *.
  split.
  - intros Hdate.
    pose proof (Z.div_mod hours 24 ltac:(lia)) as Hdiv.
    pose proof (Z.mod_pos_bound hours 24 ltac:(lia)) as Hmod.
    destruct (Z.ltb_spec (hours / 24) (-2147483648)); [lia|].
    destruct (Z.ltb_spec 2147483647 (hours / 24)); [lia|].
    destruct (Z.ltb_spec (hours / 24) (-999999999)); [lia|].
    destruct (Z.ltb_spec 999999999 (hours / 24)); [lia|].
    cbn [orb].
    destruct (Z.leb_spec 0 (env_now env (length w) + hours * (3600 * 1000000))); [|lia].
    destruct (Z.leb_spec (env_now env (length w) + hours * (3600 * 1000000))
                (3652059 * (24 * (3600 * 1000000)) - 1)); [|lia].
    cbn [andb]. rewrite wait_loop_run.
    exists (sleep_times (Z.to_nat (hours * 3600)) (hours * 3600) 600 0).
    split; [reflexivity|]. split; [|split].
    + rewrite sleep_times_total; [f_equal; lia|lia|].
      rewrite Z.sub_0_r. apply Nat.le_refl.
    + apply sleep_times_bounds. lia.
    + intros Hneg. destruct (Z.to_nat (hours * 3600)); simpl; [reflexivity|].
      destruct (Z.ltb_spec 0 (hours * 3600)); [lia|reflexivity].
  - intros Hout.
    destruct ((hours / 24 <? -2147483648) || (2147483647 <? hours / 24)); [eauto|].
    destruct ((hours / 24 <? -999999999) || (999999999 <? hours / 24)); [eauto|].
    destruct (Z.leb_spec 0 (env_now env (length w) + hours * (3600 * 1000000)));
      [|cbn [andb]; eauto].
    destruct (Z.leb_spec (env_now env (length w) + hours * (3600 * 1000000))
                (3652059 * (24 * (3600 * 1000000)) - 1)); [lia|].
    cbn [andb]. eauto.
Qed.

(** From the first instant of the year 1, the two hours of the campaign are
    waited in full. *)
Lemma wait_until_next_submission_sleeps_two_hours :
  let env := quiet_env http_clean run_ok None in
  exists times,
    wait_until_next_submission env SUBMISSION_INTERVAL_HOURS []
      = (Ret tt, ([] ++ sleep_events times)%list)
    /\ fold_right Z.add 0 times = 7200.
Proof.
  intros env.
  pose proof (wait_until_next_submission_sleeps_interval env SUBMISSION_INTERVAL_HOURS [])
    as Hwait.
  cbv zeta in Hwait. destruct Hwait as [Hdate _].
  destruct Hdate as (times & Hrun & Hsum & _).
  { vm_compute. split; discriminate. }
  exists times. split; [exact Hrun|exact Hsum].
Defined.

(** From the first instant of the year 1, two hours ahead are waited in
    twelve chunks, and twenty million hours back are refused. *)
Example wait_until_next_submission_examples :
  let env := quiet_env http_clean run_ok None in
  wait_until_next_submission env SUBMISSION_INTERVAL_HOURS [] = (Ret tt, cadence_wait)
  /\ wait_until_next_submission env (-20000000) []
     = (Raise (OverflowError "date value out of range"), []).
Proof. split; vm_compute; reflexivity. Qed.

(** ** The shape of a campaign *)

Lemma In_keys_get {V} (d : dict V) k : In k (keys d) -> exists v, get d k = Some v.
Proof.
  induction d as [|[k' v'] d IH]; simpl; [tauto|].
  destruct (String.eqb_spec k k') as [->|Hne]; [eauto|].
  intros [Heq|Hin]; [congruence|auto].
Qed.

Lemma quiet_history added :
  Forall quiet_event added ->
  log_of added = [] /\ filter is_chunk_sleep added = []
  /\ filter is_input added = [] .
Proof.
  induction 1 as [|ev added Hev _ (IH1 & IH2 & IH3)]; [repeat split|].
  destruct ev; simpl in *; try tauto.
  subst seconds. simpl. tauto.
Qed.

Lemma submit_event_quiet config ev : submit_event config ev -> quiet_event ev.
Proof. destruct ev; simpl; tauto. Qed.

Lemma clock_event_quiet ev : clock_event ev -> quiet_event ev.
Proof. destruct ev; simpl; tauto. Qed.

(** *** What the comparisons and the report can raise *)

(** A comparison raises nothing but [TypeError]. *)
Lemma py_lt_raises : forall a b e,
  py_lt a b = Raise e -> exists msg, e = TypeError msg.
Proof.
  fix IH 1. intros a b e.
  destruct a as [b0|n|x|s|items|members];
    try (destruct b as [b1|n1|x1|s1|items1|members1]; simpl;
         intros [= <-]; unfold not_supported; eauto).
  destruct b as [b1|n1|x1|s1|items1|members1]; simpl;
    try (intros [= <-]; unfold not_supported; eauto).
  revert items1. induction items as [|x xs IHxs]; intros [|y ys]; try discriminate.
  destruct (opt_eqb x y); [apply IHxs|].
  destruct x as [u|], y as [v|]; try (intros [= <-]; unfold not_supported; eauto).
  apply IH.
Qed.

Lemma min_loop_raises rest : forall b e,
  min_loop b rest = Raise e -> exists msg, e = TypeError msg.
Proof.
  induction rest as [|x rest IH]; intros b e; cbn [min_loop]; [discriminate|].
  destruct (py_lt (snd x) (snd b)) as [[]|e0] eqn:Hlt; try apply IH.
  intros [= <-]. eapply py_lt_raises, Hlt.
Qed.

Lemma insert_by_reading_raises item sorted_items e :
  insert_by_reading item sorted_items = Raise e -> exists msg, e = TypeError msg.
Proof.
  induction sorted_items as [|other rest IH]; cbn [insert_by_reading]; [discriminate|].
  destruct (py_lt (snd item) (snd other)) as [[]|e0] eqn:Hlt.
  - discriminate.
  - destruct (insert_by_reading item rest); [discriminate|].
    intros [= <-]. now apply IH.
  - intros [= <-]. eapply py_lt_raises, Hlt.
Qed.

Lemma insert_by_reading_In item sorted_items sorted_items' :
  insert_by_reading item sorted_items = Ret sorted_items' ->
  forall y, In y sorted_items' <-> y = item \/ In y sorted_items.
Proof.
  revert sorted_items'.
  induction sorted_items as [|other rest IH]; intros l'; cbn [insert_by_reading].
  - intros [= <-] y. simpl. intuition congruence.
  - destruct (py_lt (snd item) (snd other)) as [[]|e0]; [| |discriminate].
    + intros [= <-] y. simpl. intuition congruence.
    + destruct (insert_by_reading item rest) as [rest'|]; [|discriminate].
      intros [= <-] y. simpl. rewrite (IH rest' eq_refl). intuition congruence.
Qed.

Lemma sort_into_raises items : forall sorted_items e,
  sort_into sorted_items items = Raise e -> exists msg, e = TypeError msg.
Proof.
  induction items as [|item items IH]; intros acc e; cbn [sort_into]; [discriminate|].
  destruct (insert_by_reading item acc) as [acc'|e0] eqn:Hins; [apply IH|].
  intros [= <-]. eapply insert_by_reading_raises, Hins.
Qed.

Lemma sort_into_In items : forall sorted_items sorted_items',
  sort_into sorted_items items = Ret sorted_items' ->
  forall y, In y sorted_items' <-> In y sorted_items \/ In y items.
Proof.
  induction items as [|item items IH]; intros acc l'; cbn [sort_into].
  - intros [= <-] y. simpl. tauto.
  - destruct (insert_by_reading item acc) as [acc'|e0] eqn:Hins; [|discriminate].
    intros Hsort y. rewrite (IH _ _ Hsort), (insert_by_reading_In _ _ _ Hins).
    simpl. intuition congruence.
Qed.

(** Numbers, [NaN] included, are sorted without a [TypeError]. *)
Lemma insert_by_reading_number item sorted_items :
  is_number (snd item) = true ->
  (forall y, In y sorted_items -> is_number (snd y) = true) ->
  exists sorted_items', insert_by_reading item sorted_items = Ret sorted_items'.
Proof.
  intros Hitem. induction sorted_items as [|other rest IH]; intros Hall;
    cbn [insert_by_reading]; [eauto|].
  rewrite (py_lt_number _ _ Hitem (Hall other (or_introl eq_refl))).
  destruct (reading_ltb (snd item) (snd other)); [eauto|].
  destruct IH as [rest' ->]; [intros y Hy; apply Hall; now right|]. eauto.
Qed.

Lemma sort_into_number items : forall sorted_items,
  (forall y, In y sorted_items -> is_number (snd y) = true) ->
  (forall y, In y items -> is_number (snd y) = true) ->
  exists sorted_items', sort_into sorted_items items = Ret sorted_items'.
Proof.
  induction items as [|item items IH]; intros acc Hacc Hitems; cbn [sort_into]; [eauto|].
  destruct (insert_by_reading_number item acc) as [acc' Hins];
    [apply Hitems; now left|assumption|].
  rewrite Hins. apply IH.
  - intros y Hy. apply (insert_by_reading_In _ _ _ Hins) in Hy as [->|Hy];
      [apply Hitems; now left|now apply Hacc].
  - intros y Hy. apply Hitems. now right.
Qed.

(** A reading compared with an [int]: the order of the numbers, or
    [TypeError] when the reading is no number. *)
Lemma py_lt_int v n :
  match num_of v with
  | Some x => py_lt v (RInt n) = Ret (num_ltb x (Finite (inject_Z n)))
  | None => exists msg, py_lt v (RInt n) = Raise (TypeError msg)
  end.
Proof. destruct v; simpl; unfold not_supported; eauto. Qed.

Lemma format_6_1f_number v x :
  num_of v = Some x ->
  format_6_1f v = Ret tt
  \/ format_6_1f v = Raise (OverflowError "int too large to convert to float").
Proof.
  destruct v; simpl; try discriminate; intros _; auto.
  destruct (float_of_Z n); auto.
Qed.

Lemma format_6_1f_printable v : printable v = true -> format_6_1f v = Ret tt.
Proof.
  destruct v; simpl; try discriminate; try reflexivity.
  destruct (float_of_Z n); try discriminate; reflexivity.
Qed.

Lemma format_6_1f_returns v x :
  num_of v = Some x -> format_6_1f v = Ret tt -> printable v = true.
Proof.
  destruct v; simpl; try discriminate; try reflexivity.
  intros _. destruct (float_of_Z n); try discriminate; reflexivity.
Qed.

Lemma printable_number v : printable v = true -> is_number v = true.
Proof. destruct v; simpl; try discriminate; reflexivity. Qed.

Section CampaignShape.

Variable env : Env.
Variable regions_display : list (string * Region).

Lemma get_carbon_intensity_quiet z :
  emits quiet_event any (get_carbon_intensity env z).
Proof.
  apply emits_one. intros w. rewrite get_carbon_intensity_run.
  eexists. simpl. repeat split.
Qed.

Lemma for_regions_quiet items : forall acc,
  emits quiet_event any (for_regions env items acc).
Proof.
  induction items as [|[region config] items IH]; intros acc; simpl.
  - now apply emits_ret.
  - eapply emits_bind; [apply get_carbon_intensity_quiet|]. intros reading _.
    eapply emits_bind; [apply emits_sleep; reflexivity|]. intros _ _. apply IH.
Qed.

Lemma pick_cleanest_region_quiet :
  emits quiet_event any (pick_cleanest_region env regions_display).
Proof.
  unfold pick_cleanest_region.
  eapply emits_bind; [apply for_regions_quiet|]. intros snap _.
  destruct (of_items (successes snap)); [apply emits_raise|].
  eapply emits_bind; [apply emits_lift with (Q := any); now intros|].
  intros cleanest _. now apply emits_ret.
Qed.

(** The sweep raises only what a query lets through. *)
Lemma for_regions_raises items : forall acc w e w',
  for_regions env items acc w = (Raise e, w') -> gateway_exc e.
Proof.
  induction items as [|[region config] items IH]; intros acc w e w' Hrun; simpl in Hrun.
  - discriminate.
  - unfold bind at 1 in Hrun. rewrite get_carbon_intensity_run in Hrun.
    destruct (env_http env (length w) (zone config)) as [msg|status body].
    + unfold bind at 1, sleep at 1 in Hrun. eapply IH, Hrun.
    + destruct ((400 <=? status) && (status <? 600)).
      * unfold bind at 1, sleep at 1 in Hrun. eapply IH, Hrun.
      * destruct body as [| |[v|]];
          try (unfold bind at 1, sleep at 1 in Hrun; eapply IH, Hrun);
          injection Hrun as <- _; [now right|now left].
Qed.

Lemma gateway_telemetry_exc e : gateway_exc e -> telemetry_exc e.
Proof. intros [->| ->]; [now left|right; left; eauto]. Qed.

(** What selection gives back: a region of the table that has a reading in
    the snapshot, or the [RuntimeError], or what telemetry that is not a
    reading raises. *)
Lemma pick_cleanest_region_result w r w1 :
  pick_cleanest_region env regions_display w = (r, w1) ->
  match r with
  | Ret (region, snap) =>
      exists rc v,
        get (REGIONS regions_display) region = Some rc
        /\ get snap region = Some (Some v)
        /\ NoDup (keys snap)
        /\ keys snap = keys (REGIONS regions_display)
  | Raise e => (exists msg, e = RuntimeError msg) \/ telemetry_exc e
  end.
Proof.
  unfold pick_cleanest_region, bind. intros Hrun.
  destruct (get_all_intensities env regions_display w) as [[snap|e] w0] eqn:Hall.
  - pose proof (get_all_intensities_keys _ _ _ _ _ Hall) as Hkeys.
    assert (Hnd : NoDup (keys snap)) by (rewrite Hkeys; apply of_items_NoDup).
    rewrite (of_items_id _ (successes_keys_NoDup _ Hnd)) in Hrun.
    destruct (successes snap) as [|first rest] eqn:Hs.
    + injection Hrun as <- _. left. eauto.
    + unfold lift, py_min_key in Hrun.
      destruct (min_loop first rest) as [k|e] eqn:Hmin.
      * injection Hrun as <- _.
        apply min_loop_In in Hmin. rewrite <- Hs in Hmin.
        apply in_map_iff in Hmin as ([k' v] & Hk & Hin). simpl in Hk. subst k'.
        apply successes_In in Hin.
        destruct (In_keys_get (REGIONS regions_display) k) as [rc Hrc].
        { rewrite <- Hkeys. eapply keys_In, Hin. }
        exists rc, v. repeat split; try assumption. now apply In_get.
      * injection Hrun as <- _. right. right. left. eapply min_loop_raises, Hmin.
  - injection Hrun as <- _. right. eapply gateway_telemetry_exc, for_regions_raises, Hall.
Qed.

(** The lines of the report, over regions of the table: they raise only
    the [TypeError] of a reading that is no number and the [OverflowError]
    of an [int] beyond the floats. *)
Lemma report_lines_result sorted_regions : forall w,
  (forall region v, In (region, v) sorted_regions ->
     In region (keys (REGIONS regions_display))) ->
  match fst (report_lines regions_display sorted_regions w) with
  | Ret _ => True
  | Raise e => telemetry_exc e
  end.
Proof.
  induction sorted_regions as [|[region intensity] rest IH]; intros w Hkeys; [exact I|].
  assert (Hrest : forall region v, In (region, v) rest ->
                    In region (keys (REGIONS regions_display)))
    by (intros r v Hin; eapply Hkeys; right; exact Hin).
  destruct (In_keys_get (REGIONS regions_display) region) as [rc Hrc];
    [eapply Hkeys; now left|].
  cbn [report_lines]. unfold bind at 1, subscript_regions. rewrite Hrc.
  unfold ret at 1, bind at 1, bind at 1, lift at 1.
  pose proof (py_lt_int intensity 100) as H100.
  pose proof (py_lt_int intensity 300) as H300.
  destruct (num_of intensity) as [x|] eqn:Hnum.
  - rewrite H100.
    assert (Hfmt : match fst ((lift (format_6_1f intensity) ;;
                               report_lines regions_display rest) w) with
                   | Ret _ => True
                   | Raise e => telemetry_exc e
                   end).
    { unfold bind, lift.
      destruct (format_6_1f_number _ _ Hnum) as [-> | ->]; [now apply IH|].
      simpl. right. now right. }
    destruct (num_ltb x (Finite (inject_Z 100))); [exact Hfmt|].
    unfold bind at 1, lift at 1. rewrite H300. exact Hfmt.
  - destruct H100 as [msg ->]. simpl. right. left. eauto.
Qed.

(** They return on numbers that can be printed, [NaN] included, and on
    nothing else. *)
Lemma report_lines_returns sorted_regions : forall w,
  (forall region v, In (region, v) sorted_regions ->
     In region (keys (REGIONS regions_display)) /\ printable v = true) ->
  report_lines regions_display sorted_regions w = (Ret tt, w).
Proof.
  induction sorted_regions as [|[region intensity] rest IH]; intros w Hall; [reflexivity|].
  destruct (Hall region intensity (or_introl eq_refl)) as (Hin & Hprint).
  pose proof (printable_number _ Hprint) as Hnum.
  destruct (In_keys_get (REGIONS regions_display) region) as [rc Hrc]; [assumption|].
  cbn [report_lines]. unfold bind at 1, subscript_regions. rewrite Hrc.
  unfold ret at 1, bind at 1, bind at 1, lift at 1.
  rewrite (py_lt_number intensity (RInt 100) Hnum eq_refl).
  assert (Hfmt : (lift (format_6_1f intensity) ;; report_lines regions_display rest) w
                 = (Ret tt, w)).
  { unfold bind, lift. rewrite (format_6_1f_printable _ Hprint). apply IH.
    intros r v Hrv. apply Hall. now right. }
  destruct (reading_ltb intensity (RInt 100)); [exact Hfmt|].
  unfold bind at 1, lift at 1.
  rewrite (py_lt_number intensity (RInt 300) Hnum eq_refl). exact Hfmt.
Qed.

Lemma report_lines_printable sorted_regions : forall w w',
  report_lines regions_display sorted_regions w = (Ret tt, w') ->
  forall region v, In (region, v) sorted_regions -> printable v = true.
Proof.
  induction sorted_regions as [|[region intensity] rest IH]; intros w w' Hrun r v;
    [intros []|].
  cbn [report_lines] in Hrun. unfold bind at 1, subscript_regions in Hrun.
  destruct (get (REGIONS regions_display) region) as [rc|]; [|discriminate].
  unfold ret at 1, bind at 1, bind at 1, lift at 1 in Hrun.
  pose proof (py_lt_int intensity 100) as H100.
  pose proof (py_lt_int intensity 300) as H300.
  destruct (num_of intensity) as [x|] eqn:Hnum;
    [|destruct H100 as [msg H100]; rewrite H100 in Hrun; discriminate].
  rewrite H100 in Hrun.
  assert (Hfmt : (lift (format_6_1f intensity) ;; report_lines regions_display rest) w
                 = (Ret tt, w')).
  { destruct (num_ltb x (Finite (inject_Z 100))); [exact Hrun|].
    unfold bind at 1, lift at 1 in Hrun. rewrite H300 in Hrun. exact Hrun. }
  unfold bind, lift in Hfmt.
  destruct (format_6_1f intensity) as [[]|e] eqn:Hf; [|discriminate].
  intros [[= <- <-]|Hin]; [eapply format_6_1f_returns; eassumption|].
  eapply IH; eassumption.
Qed.

(** The report over a snapshot of the table. *)
Lemma print_intensity_report_result intensities selected w :
  keys intensities = keys (REGIONS regions_display) ->
  match fst (print_intensity_report regions_display intensities selected w) with
  | Ret _ => True
  | Raise e => telemetry_exc e
  end.
Proof.
  intros Hkeys. unfold print_intensity_report, bind, lift, py_sorted.
  destruct (sort_into [] (successes intensities)) as [sorted_regions|e] eqn:Hsort.
  - apply report_lines_result. intros region v Hin.
    apply (sort_into_In _ _ _ Hsort) in Hin as [[]|Hin].
    apply successes_In in Hin. rewrite <- Hkeys. eapply keys_In, Hin.
  - simpl. right. left. eapply sort_into_raises, Hsort.
Qed.

(** The report over a snapshot of the table returns exactly when every
    successful reading is a number that can be printed. *)
Lemma print_intensity_report_returns intensities selected w :
  keys intensities = keys (REGIONS regions_display) ->
  (forall region v, In (region, Some v) intensities -> printable v = true) ->
  print_intensity_report regions_display intensities selected w = (Ret tt, w).
Proof.
  intros Hkeys Hall. unfold print_intensity_report, bind, lift, py_sorted.
  destruct (sort_into_number (successes intensities) []) as [sorted_regions Hsort].
  - intros y [].
  - intros [region v] Hin. apply successes_In in Hin.
    now apply printable_number, (Hall region v).
  - rewrite Hsort. apply report_lines_returns. intros region v Hin.
    apply (sort_into_In _ _ _ Hsort) in Hin as [[]|Hin].
    apply successes_In in Hin. split; [|now apply (Hall region v)].
    rewrite <- Hkeys. eapply keys_In, Hin.
Qed.

Lemma print_intensity_report_printable intensities selected w w' :
  print_intensity_report regions_display intensities selected w = (Ret tt, w') ->
  forall region v, In (region, Some v) intensities -> printable v = true.
Proof.
  unfold print_intensity_report, bind, lift, py_sorted. intros Hrun region v Hin.
  destruct (sort_into [] (successes intensities)) as [sorted_regions|e] eqn:Hsort;
    [|discriminate].
  apply (report_lines_printable _ _ _ Hrun region).
  apply (sort_into_In _ _ _ Hsort). right. now apply successes_In.
Qed.

Variable submit_func : Submitter.
Variable log_file : string.
Variable total : Z.

Hypothesis submit_func_emits : forall region config intensities i,
  emits (submit_event config) (fun entry => get entry "job_index" = Some (VInt i))
        (submit_func region config intensities i).

Lemma tick_raised i config w e w1 :
  pick_cleanest_region env regions_display w = (Raise e, w1) ->
  (forall msg, e <> RuntimeError msg) ->
  tick env regions_display submit_func log_file total i config w = (Raise e, w1).
Proof.
  intros Hpick Hne. unfold tick, bind at 1, try_except, bind at 1. rewrite Hpick.
  destruct e; try reflexivity. exfalso. now apply (Hne msg).
Qed.

Lemma tick_report_raised i config w region intensities w1 e :
  pick_cleanest_region env regions_display w = (Ret (region, intensities), w1) ->
  fst (print_intensity_report regions_display intensities (Some region) w1) = Raise e ->
  tick env regions_display submit_func log_file total i config w = (Raise e, w1).
Proof.
  intros Hpick Hreport. unfold tick, bind at 1, try_except, bind at 1. rewrite Hpick.
  unfold ret at 1, bind at 1.
  pose proof (print_intensity_report_silent regions_display intensities (Some region) w1)
    as Hsilent.
  destruct (print_intensity_report regions_display intensities (Some region) w1)
    as [r w2]. simpl in *. now subst.
Qed.

Lemma tick_submit_raised i config w region intensities w1 e w2 :
  pick_cleanest_region env regions_display w = (Ret (region, intensities), w1) ->
  print_intensity_report regions_display intensities (Some region) w1 = (Ret tt, w1) ->
  submit_func region config intensities i w1 = (Raise e, w2) ->
  tick env regions_display submit_func log_file total i config w = (Raise e, w2).
Proof.
  intros Hpick Hreport Hsubmit.
  unfold tick, bind at 1, try_except, bind at 1. rewrite Hpick.
  unfold ret at 1, bind at 1. rewrite Hreport. unfold bind at 1. now rewrite Hsubmit.
Qed.

(** The report returns or raises, and leaves the history as it is. *)
Lemma print_intensity_report_cases intensities selected w :
  print_intensity_report regions_display intensities selected w = (Ret tt, w)
  \/ exists e,
       fst (print_intensity_report regions_display intensities selected w) = Raise e.
Proof.
  pose proof (print_intensity_report_silent regions_display intensities selected w)
    as Hsilent.
  destruct (print_intensity_report regions_display intensities selected w)
    as [[[]|e] w']; simpl in *; subst; eauto.
Qed.

(** A tick that returns has appended one record, that of its job, preceded
    by quiet events and followed by the wait; a tick that raises has only
    added quiet events. *)
Lemma tick_shape i config w :
  exists added,
    snd (tick env regions_display submit_func log_file total i config w)
      = (w ++ added)%list
    /\ match fst (tick env regions_display submit_func log_file total i config w) with
       | Ret _ =>
           exists pre entry,
             added = (pre ++ [EvAppend log_file entry] ++ wait_if_not_last total i)%list
             /\ Forall quiet_event pre
             /\ get entry "job_index" = Some (VInt i)
       | Raise _ => Forall quiet_event added
       end.
Proof.
  destruct (pick_cleanest_region_quiet w) as (added0 & Hw1 & Hq0 & _).
  destruct (pick_cleanest_region env regions_display w) as [[[region snap]|e] w1] eqn:Hpick;
    simpl in Hw1; subst w1.
  - destruct (print_intensity_report_cases snap (Some region) (w ++ added0)%list)
      as [Hreport|[e Hreport]].
    + destruct (submit_func_emits region config snap i (w ++ added0)%list)
        as (added1 & Hw2 & Hq1 & Hentry).
      assert (Hq1' : Forall quiet_event added1)
        by (eapply Forall_impl; [apply submit_event_quiet|exact Hq1]).
      destruct (submit_func region config snap i (w ++ added0)%list)
        as [[entry|e] w2] eqn:Hs; simpl in Hw2; subst w2.
      * rewrite (tick_dispatched _ _ _ _ _ _ _ _ _ _ _ _ _ Hpick Hreport Hs). simpl.
        exists (added0 ++ added1 ++ [EvAppend log_file entry]
                  ++ wait_if_not_last total i)%list.
        split; [now rewrite <- !app_assoc|].
        exists (added0 ++ added1)%list, entry. rewrite <- app_assoc.
        repeat split; [now apply Forall_app|now apply Hentry].
      * rewrite (tick_submit_raised _ _ _ _ _ _ _ _ Hpick Hreport Hs). simpl.
        exists (added0 ++ added1)%list. split; [now rewrite app_assoc|].
        now apply Forall_app.
    + rewrite (tick_report_raised _ _ _ _ _ _ _ Hpick Hreport). simpl.
      exists added0. split; [reflexivity|assumption].
  - destruct e;
      try (rewrite (tick_raised _ _ _ _ _ Hpick) by discriminate; simpl;
           exists added0; split; [reflexivity|assumption]).
    rewrite (tick_skipped _ _ _ _ _ _ _ _ _ _ Hpick). simpl.
    eexists. split; [rewrite <- app_assoc; reflexivity|].
    exists (added0 ++ [EvNow (env_now env (length (w ++ added0)))])%list. eexists.
    split; [now rewrite <- app_assoc|]. split; [|reflexivity].
    apply Forall_app. split; [assumption|]. now repeat constructor.
Qed.

Lemma wait_if_not_last_history i :
  log_of (wait_if_not_last total i) = []
  /\ filter is_input (wait_if_not_last total i) = []
  /\ length (filter is_chunk_sleep (wait_if_not_last total i))
     = if i <? total - 1 then 12%nat else 0%nat.
Proof. unfold wait_if_not_last. destruct (i <? total - 1); repeat split. Qed.

(** The records of a run of the loop carry the indices of consecutive jobs,
    one for each tick that returned. *)
Lemma for_jobs_indices configs : forall i w,
  exists added m,
    snd (for_jobs env regions_display submit_func log_file total i configs w)
      = (w ++ added)%list
    /\ logged_indices added = consecutive_indices i m
    /\ filter is_input added = []
    /\ match fst (for_jobs env regions_display submit_func log_file total i configs w) with
       | Ret _ => m = length configs
       | Raise _ => (m < length configs)%nat
       end.
Proof.
  induction configs as [|config configs IH]; intros i w.
  - exists [], 0%nat. simpl. rewrite app_nil_r. repeat split.
  - cbn [for_jobs]. unfold bind.
    destruct (tick_shape i config w) as (added & Hw & Hshape).
    destruct (tick env regions_display submit_func log_file total i config w)
      as [[[]|e] w1]; simpl in Hw, Hshape; subst w1.
    + destruct Hshape as (pre & entry & -> & Hpre & Hidx).
      destruct (quiet_history _ Hpre) as (Hlog & _ & Hin).
      destruct (wait_if_not_last_history i) as (Hwl & Hwi & _).
      destruct (IH (i + 1) (w ++ pre ++ [EvAppend log_file entry] ++ wait_if_not_last total i)%list)
        as (added' & m & Hw' & Hidx' & Hin' & Hres).
      exists ((pre ++ [EvAppend log_file entry] ++ wait_if_not_last total i) ++ added')%list,
             (S m).
      cbn [app] in *.
      split; [now rewrite Hw', <- !app_assoc|]. split; [|split].
      * unfold logged_indices in *. rewrite !log_of_app. cbn [log_of].
        rewrite Hlog, Hwl. simpl.
        rewrite Hidx, Hidx'. unfold consecutive_indices. simpl.
        rewrite Z.add_0_r. f_equal.
        rewrite <- seq_shift, map_map. apply map_ext. intros k. do 2 f_equal. lia.
      * rewrite !filter_app. cbn [filter is_input]. rewrite Hin, Hwi, Hin'. reflexivity.
      * destruct (fst (for_jobs env regions_display submit_func log_file total (i + 1) configs _));
          simpl; lia.
    + destruct (quiet_history _ Hshape) as (Hlog & _ & Hin).
      exists added, 0%nat. simpl. unfold logged_indices. rewrite Hlog.
      repeat split; [assumption|lia].
Qed.

(** A run of the loop up to the last job of the campaign that returns has
    waited once after every job but the last, and ends with the record of
    the last job. *)
Lemma for_jobs_waits configs : forall i w w',
  i + Z.of_nat (length configs) = total ->
  for_jobs env regions_display submit_func log_file total i configs w = (Ret tt, w') ->
  exists added,
    w' = (w ++ added)%list
    /\ length (filter is_chunk_sleep added) = (12 * (length configs - 1))%nat
    /\ (configs <> [] -> exists pre entry, added = (pre ++ [EvAppend log_file entry])%list).
Proof.
  induction configs as [|config configs IH]; intros i w w' Htotal Hrun.
  - injection Hrun as <-. exists []. rewrite app_nil_r. repeat split. congruence.
  - cbn [for_jobs] in Hrun. unfold bind in Hrun.
    destruct (tick_shape i config w) as (added & Hw & Hshape).
    destruct (tick env regions_display submit_func log_file total i config w)
      as [[[]|e] w1]; simpl in Hw, Hshape; subst w1; [|discriminate].
    destruct Hshape as (pre & entry & -> & Hpre & _).
    destruct (quiet_history _ Hpre) as (_ & Hchunk & _).
    destruct (IH (i + 1) _ _ ltac:(simpl length in Htotal; lia) Hrun)
      as (added' & -> & Hcount & Hlast).
    eexists. split; [now rewrite <- app_assoc|].
    destruct (wait_if_not_last_history i) as (_ & _ & Hwc).
    rewrite !filter_app. cbn [filter is_chunk_sleep].
    rewrite !length_app, Hchunk, Hwc, Hcount. simpl length.
    destruct configs as [|config' configs].
    + assert (Hi : (i <? total - 1) = false) by (apply Z.ltb_ge; simpl in Htotal; lia).
      rewrite Hi. split; [reflexivity|]. intros _.
      cbn [for_jobs] in Hrun. unfold ret in Hrun. injection Hrun as Hrun.
      rewrite <- app_nil_r in Hrun at 1. apply app_inv_head in Hrun. subst added'.
      exists pre, entry. unfold wait_if_not_last. rewrite Hi. now rewrite !app_nil_r.
    + assert (Hi : (i <? total - 1) = true) by (apply Z.ltb_lt; simpl length in Htotal; lia).
      rewrite Hi. split; [simpl length; lia|]. intros _.
      destruct Hlast as (pre' & entry' & ->); [discriminate|].
      exists ((pre ++ [EvAppend log_file entry] ++ wait_if_not_last total i) ++ pre')%list, entry'.
      cbn [app]. now rewrite <- !app_assoc.
Qed.

End CampaignShape.

Lemma sweep_nameable c :
  In c EXPERIMENT_CONFIGS -> exists name, generate_job_name c = Ret name.
Proof.
  intros Hc. apply (distinct_names_returned (map generate_job_name EXPERIMENT_CONFIGS)).
  - vm_compute. reflexivity.
  - now apply in_map.
Qed.

(** ** Dispatch to the selected region *)

(** Either submitter, for a nameable job and a configured region: clock
    readings, one [ssh] run for that job and region whose outcome is what
    the outside answers to it, clock readings, and a record of the job, the
    region and the snapshot. *)
Lemma submitter_dispatch env regions_display (async_mode : bool)
    region config intensities i w name rc :
  generate_job_name config = Ret name ->
  get (REGIONS regions_display) region = Some rc ->
  let cmd := ssh_command env rc region intensities name config async_mode w in
  let timeout := if async_mode then 60 else 4 * 3600 in
  exists entry before after,
    (if async_mode then submit_job_async env regions_display
     else submit_job_ssh env regions_display) region config intensities i w
      = (Ret entry,
         (w ++ before
            ++ [EvRun cmd timeout (env_run env (length before + length w) cmd timeout)]
            ++ after)%list)
    /\ Forall clock_event before /\ Forall clock_event after
    /\ get entry "job_index" = Some (VInt i)
    /\ get entry "config" = Some (VConfig config)
    /\ get entry "selected_region" = Some (VStr region)
    /\ get entry "region_zone" = Some (VStr (zone rc))
    /\ get entry "intensities" = Some (VIntensities (of_items intensities)).
Proof.
  intros Hname Hrc cmd timeout. subst timeout. destruct async_mode.
  - rewrite (submit_job_async_run env regions_display _ _ _ _ _ _ _ Hname Hrc). cbv zeta.
    unfold ssh_command in cmd. fold cmd.
    exists (match env_run env (2 + length w) cmd 60 with
            | RunReturns result =>
                if returncode result =? 0
                then submission_entry env (env_now env (1 + length w)) i
                       (ssh_job_id cmd) name config region intensities rc "submitted_async"
                else set (set (submission_entry env (env_now env (1 + length w)) i
                                 (ssh_job_id cmd) name config region intensities rc
                                 "submitted_async")
                            "status" (VStr "submit_failed")) "error" (VStr (stderr result))
            | RunTimesOut msg | RunRaises msg =>
                set (set (submission_entry env (env_now env (1 + length w)) i
                            (ssh_job_id cmd) name config region intensities rc
                            "submitted_async")
                       "status" (VStr "error")) "error" (VStr msg)
            end),
      [EvNow (env_now env (length w)); EvNow (env_now env (1 + length w))], [].
    split; [reflexivity|].
    split; [now repeat constructor|]. split; [constructor|].
    destruct (env_run env _ _ _) as [result|msg|msg];
      [destruct (returncode result =? 0)| |]; repeat split.
  - rewrite (submit_job_ssh_run env regions_display _ _ _ _ _ _ _ Hname Hrc). cbv zeta.
    unfold ssh_command in cmd. fold cmd.
    set (before := [EvNow (env_now env (length w)); EvNow (env_now env (1 + length w));
                    EvTime (env_time env (2 + length w))]).
    destruct (env_run env (3 + length w) cmd (4 * 3600)) as [result|msg|msg] eqn:Ho.
    + eexists _, before, [_]. split.
      { rewrite <- app_assoc. unfold before. cbn [app length]. rewrite Ho. reflexivity. }
      split; [now repeat constructor|]. split; [now repeat constructor|].
      destruct (returncode result =? 0); repeat split.
    + eexists _, before, []. split.
      { unfold before. cbn [app length]. rewrite Ho. reflexivity. }
      split; [now repeat constructor|]. split; [constructor|]. repeat split.
    + eexists _, before, []. split.
      { unfold before. cbn [app length]. rewrite Ho. reflexivity. }
      split; [now repeat constructor|]. split; [constructor|]. repeat split.
Qed.

(** X4: in a tick whose selection returns a region, over a snapshot whose
    successful readings are numbers that can be printed (the snapshots on
    which the report of the readings returns), for a job that has a name,
    the job is dispatched and recorded whatever [ssh] does: the tick returns
    after clock readings, exactly one [ssh] run and one record.  The run
    goes to the address of the selected region and carries the reading the
    snapshot holds for that region; its outcome is what the outside answers
    to that command; the record names the selected region and holds the
    snapshot the selection was made on; no query is made after the
    selection. *)
Theorem tick_dispatches_to_selected_region
    env regions_display (async_mode : bool) log_file total i config name
    w region snap w1 :
  let submit_func :=
    if async_mode then submit_job_async env regions_display
    else submit_job_ssh env regions_display in
  generate_job_name config = Ret name ->
  pick_cleanest_region env regions_display w = (Ret (region, snap), w1) ->
  (forall r reading, In (r, Some reading) snap -> printable reading = true) ->
  exists rc v entry before after,
    let cmd := ssh_command env rc region snap name config async_mode w1 in
    let timeout := if async_mode then 60 else 4 * 3600 in
    let outcome := env_run env (length before + length w1) cmd timeout in
    tick env regions_display submit_func log_file total i config w =
      (Ret tt,
       (w1 ++ before ++ [EvRun cmd timeout outcome] ++ after
           ++ [EvAppend log_file entry] ++ wait_if_not_last total i)%list)
    /\ Forall clock_event before /\ Forall clock_event after
    /\ get (REGIONS regions_display) region = Some rc
    /\ get snap region = Some (Some v)
    /\ ssh_target cmd = SSH_USER ++ "@" ++ ip rc
    /\ ssh_region cmd = region
    /\ ssh_intensity cmd = Some (Some v)
    /\ ssh_config cmd = config
    /\ get entry "job_index" = Some (VInt i)
    /\ get entry "selected_region" = Some (VStr region)
    /\ get entry "region_zone" = Some (VStr (zone rc))
    /\ get entry "intensities" = Some (VIntensities snap).
Proof.
  intros submit_func Hname Hpick Hprint.
  destruct (pick_cleanest_region_result _ _ _ _ _ Hpick)
    as (rc & v & Hrc & Hv & Hnd & Hkeys).
  pose proof (print_intensity_report_returns regions_display snap (Some region) w1
                Hkeys Hprint) as Hreport.
  destruct (submitter_dispatch env regions_display async_mode region config snap i w1
              name rc Hname Hrc)
    as (entry & before & after & Hsub & Hb & Ha & Hidx & _ & Hsel & Hzone & Hint).
  exists rc, v, entry, before, after. cbv zeta.
  split.
  { rewrite (tick_dispatched _ _ _ _ _ _ _ _ _ _ _ _ _ Hpick Hreport Hsub).
    now rewrite <- !app_assoc. }
  rewrite (of_items_id _ Hnd) in Hint. unfold ssh_command. simpl. rewrite Hv.
  repeat split; assumption.
Qed.

(** Scenario A, blocking mode: the first job goes to nordic, with the
    reading 25. *)
Lemma tick_dispatches_scenario_A :
  let env := quiet_env http_scenario_A run_ok None in
  exists w1,
    pick_cleanest_region env REGIONS_source [] = (Ret ("nordic", snapshot_A), w1)
    /\ exists entry before after,
         let cmd :=
           ssh_command env nordic "nordic" snapshot_A "lora-r16-a32-lr1e-04-d10"
                       config_0 false w1 in
         tick env REGIONS_source (submit_job_ssh env REGIONS_source) "run.jsonl" 21 0
              config_0 [] =
           (Ret tt,
            (w1 ++ before ++ [EvRun cmd (4 * 3600) run_ok] ++ after
                ++ [EvAppend "run.jsonl" entry] ++ wait_if_not_last 21 0)%list)
         /\ ssh_target cmd = "root@100.80.123.80"
         /\ ssh_intensity cmd = Some (Some (RInt 25))
         /\ get entry "selected_region" = Some (VStr "nordic")
         /\ get entry "intensities" = Some (VIntensities snapshot_A).
Proof.
  intros env.
  assert (Hpick : exists w1,
             pick_cleanest_region env REGIONS_source [] = (Ret ("nordic", snapshot_A), w1))
    by (vm_compute; eexists; reflexivity).
  destruct Hpick as (w1 & Hpick).
  assert (Hprint : forall r reading,
             In (r, Some reading) snapshot_A -> printable reading = true)
    by (intros r reading [[= _ <-]|[[= _ <-]|[[= _ <-]|[]]]]; reflexivity).
  assert (Hname : generate_job_name config_0 = Ret "lora-r16-a32-lr1e-04-d10")
    by (vm_compute; reflexivity).
  destruct (tick_dispatches_to_selected_region env REGIONS_source false "run.jsonl"
              21 0 config_0 _ [] _ _ _ Hname Hpick Hprint)
    as (rc & v & entry & before & after & Htick & _ & _ & Hrc & Hv & _ & _ & _ & _
        & _ & Hsel & _ & Hint).
  vm_compute in Hrc. injection Hrc as <-.
  vm_compute in Hv. injection Hv as <-.
  exists w1. split; [exact Hpick|].
  exists entry, before, after. cbv zeta.
  split; [exact Htick|]. split; [reflexivity|]. split; [reflexivity|].
  split; assumption.
Defined.

(** ** How a submitter can raise *)

(** X5: a submitter raises in exactly two ways, both before any [ssh] run
    and without a record: when the job has no name (the exception of the
    naming, before any interaction) and when the region is not a key of the
    table ([KeyError], after one clock reading).  Otherwise it returns a
    record, whatever [ssh] does. *)
Theorem submitter_raises_before_dispatch
    env regions_display (async_mode : bool) region config intensities i w :
  let result :=
    (if async_mode then submit_job_async env regions_display
     else submit_job_ssh env regions_display) region config intensities i w in
  match generate_job_name config, get (REGIONS regions_display) region with
  | Raise e, _ => result = (Raise e, w)
  | Ret _, None =>
      result = (Raise (KeyError region), (w ++ [EvNow (env_now env (length w))])%list)
  | Ret _, Some _ => exists entry w', result = (Ret entry, w')
  end.
Proof.
  intros result. unfold result.
  destruct (generate_job_name config) as [name|e] eqn:Hname.
  - destruct (get (REGIONS regions_display) region) as [rc|] eqn:Hrc.
    + destruct (submitter_dispatch env regions_display async_mode region config
                  intensities i w name rc Hname Hrc)
        as (entry & before & after & Hsub & _).
      eauto.
    + destruct async_mode;
        unfold submit_job_async, submit_job_ssh, subscript_regions, bind, lift, now, raise;
        rewrite Hname, Hrc; reflexivity.
  - destruct async_mode; unfold submit_job_async, submit_job_ssh, bind, lift;
      rewrite Hname; reflexivity.
Qed.

(** A dropout that is not a number has no integer part, so the job has no
    name and nothing is submitted. *)
Example submit_nan_dropout :
  generate_job_name config_nan = Raise (ValueError "cannot convert float NaN to integer")
  /\ submit_job_async (quiet_env http_clean run_ok None) REGIONS_source
       "nordic" config_nan snapshot_A 0 []
     = (Raise (ValueError "cannot convert float NaN to integer"), []).
Proof. split; vm_compute; reflexivity. Qed.

(** ** What ends a campaign *)

Lemma well_formed_handled o : well_formed o = true -> handledb o = true.
Proof.
  destruct o as [msg|status body]; simpl; [reflexivity|].
  destruct ((400 <=? status) && (status <? 600)); simpl; [reflexivity|].
  now destruct body as [| |[[v|]|]].
Qed.

Lemma well_formed_reading o v :
  well_formed o = true -> reading_of o = Some v -> printable v = true.
Proof.
  destruct o as [msg|status body]; simpl; [discriminate|].
  destruct body as [| |[[v'|]|]]; try discriminate;
    destruct ((400 <=? status) && (status <? 600)); simpl; try discriminate.
  now intros Hwf [= <-].
Qed.

Lemma sweep_outcomes_answers env items : forall n o,
  In o (sweep_outcomes env n items) -> exists m z, o = env_http env m z.
Proof.
  induction items as [|[region config] items IH]; intros n o; simpl; [tauto|].
  intros [<-|Hin]; eauto.
Qed.

Lemma sweep_snapshot_In items outcomes region v :
  In (region, v) (sweep_snapshot items outcomes) ->
  exists o, In o outcomes /\ v = reading_of o.
Proof.
  unfold sweep_snapshot. intros Hin.
  apply in_map_iff in Hin as ([rc o] & [= _ <-] & Hin).
  apply in_combine_r in Hin. eauto.
Qed.

Section CampaignEnds.

Variable env : Env.
Variable regions_display : list (string * Region).
Variable async_mode : bool.
Variable log_file : string.
Variable total : Z.

Local Abbreviation submit_func' :=
  (if async_mode then submit_job_async env regions_display
   else submit_job_ssh env regions_display).

(** A tick for a nameable job raises only what telemetry that is not a
    reading raises in the selection or in the report. *)
Lemma tick_raises i config name w e w' :
  generate_job_name config = Ret name ->
  tick env regions_display submit_func' log_file total i config w = (Raise e, w') ->
  telemetry_exc e.
Proof.
  intros Hname Htick.
  destruct (pick_cleanest_region env regions_display w) as [[[region snap]|e0] w1] eqn:Hpick.
  - destruct (pick_cleanest_region_result _ _ _ _ _ Hpick)
      as (rc & v & Hrc & _ & _ & Hkeys).
    destruct (print_intensity_report_cases regions_display snap (Some region) w1)
      as [Hreport|[e1 Hreport]].
    + exfalso.
      destruct (submitter_dispatch env regions_display async_mode region config snap i w1
                  name rc Hname Hrc)
        as (entry & before & after & Hsub & _).
      rewrite (tick_dispatched _ _ _ _ _ _ _ _ _ _ _ _ _ Hpick Hreport Hsub) in Htick.
      discriminate.
    + rewrite (tick_report_raised _ _ _ _ _ _ _ _ _ _ _ _ Hpick Hreport) in Htick.
      injection Htick as <- _.
      pose proof (print_intensity_report_result regions_display snap (Some region) w1 Hkeys)
        as Hres.
      now rewrite Hreport in Hres.
  - destruct (pick_cleanest_region_result _ _ _ _ _ Hpick) as [[msg ->]|Htel].
    + rewrite (tick_skipped _ _ _ _ _ _ _ _ _ _ Hpick) in Htick. discriminate.
    + rewrite (tick_raised _ _ _ _ _ _ _ _ _ _ Hpick) in Htick.
      * now injection Htick as <- _.
      * intros msg ->. destruct Htel as [|[[msg' ?]|]]; discriminate.
Qed.

Lemma for_jobs_raises configs : forall i w e w',
  (forall c, In c configs -> exists name, generate_job_name c = Ret name) ->
  for_jobs env regions_display submit_func' log_file total i configs w = (Raise e, w') ->
  telemetry_exc e.
Proof.
  induction configs as [|config configs IH]; intros i w e w' Hnames Hrun.
  - discriminate.
  - cbn [for_jobs] in Hrun. unfold bind in Hrun.
    destruct (tick env regions_display submit_func' log_file total i config w)
      as [[[]|e0] w1] eqn:Htick.
    + eapply IH; [|exact Hrun]. intros c Hc. apply Hnames. now right.
    + injection Hrun as <- _.
      destruct (Hnames config (or_introl eq_refl)) as [name Hname].
      eapply tick_raises; eauto.
Qed.

Hypothesis answers_well_formed : forall n z, well_formed (env_http env n z) = true.

(** On well-formed answers the sweep returns a snapshot of the table whose
    readings are numbers that can be printed. *)
Lemma get_all_intensities_well_formed w :
  exists snap w0,
    get_all_intensities env regions_display w = (Ret snap, w0)
    /\ keys snap = keys (REGIONS regions_display)
    /\ (forall region v, In (region, Some v) snap -> printable v = true).
Proof.
  pose proof (for_regions_handled env (REGIONS regions_display)
                (fun n z => well_formed_handled _ (answers_well_formed n z)) [] w)
    as Hall.
  eexists _, _. split; [apply Hall; simpl; apply of_items_NoDup|].
  split.
  - eapply get_all_intensities_keys. apply Hall. simpl. apply of_items_NoDup.
  - intros region v Hin. simpl in Hin.
    apply sweep_snapshot_In in Hin as (o & Ho & Hv).
    apply sweep_outcomes_answers in Ho as (m & z & ->).
    apply (well_formed_reading (env_http env m z));
      [apply answers_well_formed|now symmetry].
Qed.

(** So selection returns a region with the snapshot, or raises its
    [RuntimeError]. *)
Lemma pick_cleanest_region_well_formed w :
  exists snap w0,
    keys snap = keys (REGIONS regions_display)
    /\ (forall region v, In (region, Some v) snap -> printable v = true)
    /\ ((exists msg,
           pick_cleanest_region env regions_display w = (Raise (RuntimeError msg), w0))
        \/ (exists region,
              pick_cleanest_region env regions_display w = (Ret (region, snap), w0))).
Proof.
  destruct (get_all_intensities_well_formed w) as (snap & w0 & Hall & Hkeys & Hreal).
  assert (Hnd : NoDup (keys snap)) by (rewrite Hkeys; apply of_items_NoDup).
  exists snap, w0. split; [assumption|]. split; [assumption|].
  unfold pick_cleanest_region, bind. rewrite Hall.
  rewrite (of_items_id _ (successes_keys_NoDup _ Hnd)).
  destruct (successes snap) as [|first rest] eqn:Hs; [left; eexists; reflexivity|].
  assert (Hnum : forall x, In x (first :: rest) -> is_number (snd x) = true).
  { intros [r x] Hx. rewrite <- Hs in Hx. apply successes_In in Hx.
    simpl. eapply printable_number, Hreal, Hx. }
  right. destruct (min_loop_numbers rest [] first) as (m & Hmin & _).
  { apply Hnum. now left. }
  { intros x Hx. apply Hnum. now right. }
  { intros x []. }
  unfold lift, py_min_key. rewrite Hmin. eexists. reflexivity.
Qed.

(** And every tick for a nameable job returns. *)
Lemma tick_well_formed i config name w :
  generate_job_name config = Ret name ->
  exists w', tick env regions_display submit_func' log_file total i config w = (Ret tt, w').
Proof.
  intros Hname.
  destruct (pick_cleanest_region_well_formed w)
    as (snap & w0 & Hkeys & Hreal & [[msg Hpick]|[region Hpick]]).
  - rewrite (tick_skipped _ _ _ _ _ _ _ _ _ _ Hpick). eauto.
  - destruct (pick_cleanest_region_result _ _ _ _ _ Hpick) as (rc & v & Hrc & _).
    pose proof (print_intensity_report_returns regions_display snap (Some region) w0
                  Hkeys Hreal) as Hreport.
    destruct (submitter_dispatch env regions_display async_mode region config snap i w0
                name rc Hname Hrc)
      as (entry & before & after & Hsub & _).
    rewrite (tick_dispatched _ _ _ _ _ _ _ _ _ _ _ _ _ Hpick Hreport Hsub). eauto.
Qed.

Lemma for_jobs_well_formed configs : forall i w,
  (forall c, In c configs -> exists name, generate_job_name c = Ret name) ->
  exists w', for_jobs env regions_display submit_func' log_file total i configs w
             = (Ret tt, w').
Proof.
  induction configs as [|config configs IH]; intros i w Hnames.
  - simpl. unfold ret. eauto.
  - destruct (Hnames config (or_introl eq_refl)) as [name Hname].
    destruct (tick_well_formed i config name w Hname) as [w1 Htick].
    cbn [for_jobs]. unfold bind. rewrite Htick. apply IH.
    intros c Hc. apply Hnames. now right.
Qed.

End CampaignEnds.

(** X6: apart from a run log that cannot be written, which is not
    embedded, a campaign ends with an exception only when the prompt meets
    the end of input ([EOFError]) or when telemetry that is not a reading
    raises: the [KeyError] or [TypeError] the gateway lets through, the
    [TypeError] of comparing readings that are not numbers, in the selection
    or in the report, and the [OverflowError] of an [int] reading the
    report cannot format.  No outcome of an [ssh] run and no failed query
    ends it.  When every answer of the data source is a failure or a
    number that can be printed, [NaN] and the infinities included, only the
    prompt is left. *)
Theorem run_experiment_raises_only env regions_display (async_mode : bool) w e w' :
  run_experiment env regions_display async_mode w = (Raise e, w') ->
  (e = EOFError \/ telemetry_exc e)
  /\ ((forall n z, well_formed (env_http env n z) = true) -> e = EOFError).
Proof.
  unfold run_experiment, bind at 1, now. intros Hrun.
  assert (Hloop : forall w0 e0 w1,
            for_jobs env regions_display
              (if async_mode then submit_job_async env regions_display
               else submit_job_ssh env regions_display)
              (log_path (strftime env "%Y%m%d_%H%M%S" (env_now env (length w))))
              TOTAL_JOBS 0 EXPERIMENT_CONFIGS w0 = (Raise e0, w1) ->
            telemetry_exc e0
            /\ ((forall n z, well_formed (env_http env n z) = true) -> False)).
  { intros w0 e0 w1 Hloop. split.
    - eapply for_jobs_raises; [apply sweep_nameable|exact Hloop].
    - intros Hwf.
      destruct (for_jobs_well_formed env regions_display async_mode
                  (log_path (strftime env "%Y%m%d_%H%M%S" (env_now env (length w))))
                  TOTAL_JOBS Hwf EXPERIMENT_CONFIGS 0 w0 sweep_nameable) as [w2 Hret].
      rewrite Hret in Hloop. discriminate. }
  destruct (filter _ (REGIONS regions_display)) as [|x rest].
  - unfold bind at 1, ret at 1 in Hrun. cbv iota in Hrun.
    destruct (Hloop _ _ _ Hrun) as [Htel Hwf]. split; [now right|].
    intros H. destruct (Hwf H).
  - unfold bind at 1, bind at 1, input in Hrun.
    destruct (env_input env _ _) as [response|].
    + unfold ret at 1 in Hrun.
      destruct (String.eqb (lower response) "y"); [|discriminate].
      destruct (Hloop _ _ _ Hrun) as [Htel Hwf]. split; [now right|].
      intros H. destruct (Hwf H).
    + injection Hrun as <- _. split; [now left|reflexivity].
Qed.

(** The campaign over the one region nordic, whose reading is the [int]
    10^400, ends in the report of its first tick with the [OverflowError]
    of the format, after the queries of that tick and before any [ssh]
    run. *)
Lemma run_experiment_raises_only_huge_reading :
  let env := quiet_env http_huge run_ok None in
  run_experiment env only_nordic false []
  = (Raise (OverflowError "int too large to convert to float"),
     [EvNow 0; EvHttp "NO" (reading (RInt (10 ^ 400))); EvSleep (1 # 2)])
  /\ telemetry_exc (OverflowError "int too large to convert to float")
  /\ exists n z, well_formed (env_http env n z) = false.
Proof.
  intros env.
  assert (Hrun : run_experiment env only_nordic false []
                 = (Raise (OverflowError "int too large to convert to float"),
                    [EvNow 0; EvHttp "NO" (reading (RInt (10 ^ 400))); EvSleep (1 # 2)]))
    by (vm_compute; reflexivity).
  split; [exact Hrun|].
  destruct (run_experiment_raises_only env only_nordic false [] _ _ Hrun) as [[Heof|Htel] _].
  - discriminate.
  - split; [exact Htel|]. exists 0%nat, "NO". vm_compute. reflexivity.
Defined.

(** ** Records and waits of a campaign *)

(** X7: whatever happens, the records a run of the loop appends carry the
    indices of consecutive jobs, starting with the first job of the run, one
    record for each tick that returned: all jobs when the loop returns,
    fewer when it raises.  No record is written twice and none out of
    order. *)
Theorem for_jobs_logs_consecutive_indices
    env regions_display (async_mode : bool) log_file total i configs w :
  let submit_func :=
    if async_mode then submit_job_async env regions_display
    else submit_job_ssh env regions_display in
  let run := for_jobs env regions_display submit_func log_file total i configs w in
  exists added m,
    snd run = (w ++ added)%list
    /\ logged_indices added = consecutive_indices i m
    /\ match fst run with
       | Ret _ => m = length configs
       | Raise _ => (m < length configs)%nat
       end.
Proof.
  intros submit_func run.
  destruct (for_jobs_indices env regions_display submit_func log_file total
              (submitter_emits env regions_display async_mode) configs i w)
    as (added & m & Hw & Hidx & _ & Hres).
  exists added, m. auto.
Qed.

(** X8: a campaign over [n] jobs that returns has appended [n] records,
    asked nothing of the operator, and slept [12 * (n - 1)] chunks of ten
    minutes: one wait of [SUBMISSION_INTERVAL_HOURS] after every job but the
    last.  Its last event is the record of the last job. *)
Theorem for_jobs_waits_between_jobs
    env regions_display (async_mode : bool) log_file configs w w' :
  let submit_func :=
    if async_mode then submit_job_async env regions_display
    else submit_job_ssh env regions_display in
  for_jobs env regions_display submit_func log_file (Z.of_nat (length configs)) 0
           configs w = (Ret tt, w') ->
  exists added,
    w' = (w ++ added)%list
    /\ length (log_of added) = length configs
    /\ filter is_input added = []
    /\ length (filter is_chunk_sleep added) = (12 * (length configs - 1))%nat
    /\ (configs <> [] ->
        exists pre entry, added = (pre ++ [EvAppend log_file entry])%list).
Proof.
  intros submit_func Hrun.
  destruct (for_jobs_waits env regions_display submit_func log_file
              (Z.of_nat (length configs))
              (submitter_emits env regions_display async_mode) configs 0 w w'
              (Z.add_0_l _) Hrun)
    as (added & -> & Hcount & Hlast).
  destruct (for_jobs_indices env regions_display submit_func log_file
              (Z.of_nat (length configs))
              (submitter_emits env regions_display async_mode) configs 0 w)
    as (added' & m & Hw & Hidx & Hin & Hres).
  rewrite Hrun in Hw, Hres. simpl in Hw, Hres. apply app_inv_head in Hw. subst added' m.
  exists added. repeat split; try assumption.
  apply (f_equal (@length _)) in Hidx.
  unfold logged_indices, consecutive_indices in Hidx.
  now rewrite !length_map, length_seq in Hidx.
Qed.

(** Scenario E: a campaign of 21 jobs with clean telemetry and jobs that
    succeed writes 21 records and waits 20 times. *)
Lemma for_jobs_waits_scenario_E :
  let env := quiet_env http_clean run_ok None in
  exists w',
    for_jobs env only_nordic (submit_job_async env only_nordic) "run.jsonl" 21 0
             EXPERIMENT_CONFIGS [] = (Ret tt, w')
    /\ exists added,
         w' = ([] ++ added)%list
         /\ length (log_of added) = 21%nat
         /\ filter is_input added = []
         /\ length (filter is_chunk_sleep added) = (12 * 20)%nat
         /\ (EXPERIMENT_CONFIGS <> [] ->
             exists pre entry, added = (pre ++ [EvAppend "run.jsonl" entry])%list).
Proof.
  eexists. split; [vm_compute; reflexivity|].
  eapply (for_jobs_waits_between_jobs (quiet_env http_clean run_ok None) only_nordic
            true "run.jsonl" EXPERIMENT_CONFIGS []).
  vm_compute. reflexivity.
Defined.

(** ** The sweep generator *)

Lemma string_app_assoc (a b c : string) : (a ++ b) ++ c = a ++ (b ++ c).
Proof. induction a as [|x a IH]; simpl; [reflexivity|now rewrite IH]. Qed.

Lemma assign_tier_range config :
  fst (assign_tier config) = ExperimentTier.BASELINE
  \/ fst (assign_tier config) = ExperimentTier.PROMISING
  \/ fst (assign_tier config) = ExperimentTier.LONGSHOT.
Proof.
  unfold assign_tier.
  destruct (cfg_r config =? 16); [now left|].
  destruct (cfg_r config =? 32); [|now right; left].
  destruct (_ || _ || _); [now right; right|now right; left].
Qed.

(** X9: for every job that has a name, the manifest of the tier and
    rationale that [assign_tier] gives is generated without a [KeyError]:
    its name is [qwen-], the job name of the router and [-tier] with the
    tier number; it carries the rationale of the classifier and the
    threshold and delay of the tier's row of the table.  A tier number that
    is not a row of the table raises [KeyError]. *)
Theorem generate_rayjob_manifest_of_assigned_tier config name :
  generate_job_name config = Ret name ->
  (exists manifest tier_cfg,
      get_tier_config (fst (assign_tier config)) = Ret tier_cfg
      /\ generate_rayjob_manifest config (fst (assign_tier config))
           (snd (assign_tier config)) = Ret manifest
      /\ manifest_name manifest
         = "qwen-" ++ name ++ "-tier" ++ str_of_Z (fst (assign_tier config))
      /\ manifest_rationale manifest = snd (assign_tier config)
      /\ manifest_threshold manifest = threshold tier_cfg
      /\ manifest_max_delay manifest = max_delay tier_cfg)
  /\ (forall tier rationale,
        tier < 1 \/ 3 < tier ->
        generate_rayjob_manifest config tier rationale
        = Raise (KeyError (str_of_Z tier))).
Proof.
  intros Hname. unfold generate_job_name in Hname.
  destruct (py_int (SFmul prec emax (cfg_dropout config) (float_of_Z 100)))
    as [d|e] eqn:Hd; [|discriminate].
  injection Hname as <-. split.
  - unfold generate_rayjob_manifest. rewrite Hd.
    destruct (assign_tier_range config) as [Ht|[Ht|Ht]]; rewrite Ht;
      (eexists _, _; split; [reflexivity|]; split; [reflexivity|];
       split; [|repeat split]);
      cbn [manifest_name];
      repeat (progress (cbn [append]; rewrite ?string_app_assoc));
      reflexivity.

  - intros tier rationale Hout. unfold generate_rayjob_manifest, get_tier_config.
    simpl. unfold ExperimentTier.BASELINE, ExperimentTier.PROMISING, ExperimentTier.LONGSHOT.
    destruct (Z.eqb_spec tier 1); [lia|].
    destruct (Z.eqb_spec tier 2); [lia|].
    destruct (Z.eqb_spec tier 3); [lia|]. reflexivity.
Qed.

(** The baseline configuration: tier 1, threshold 225, delay 24h. *)
Lemma generate_rayjob_manifest_baseline :
  exists manifest,
    generate_rayjob_manifest config_0 (fst (assign_tier config_0))
      (snd (assign_tier config_0)) = Ret manifest
    /\ manifest_name manifest = "qwen-lora-r16-a32-lr1e-04-d10-tier1"
    /\ manifest_threshold manifest = float_of_Z 225
    /\ manifest_max_delay manifest = "24h".
Proof.
  destruct (proj1 (generate_rayjob_manifest_of_assigned_tier config_0
                     "lora-r16-a32-lr1e-04-d10" ltac:(vm_compute; reflexivity)))
    as (manifest & tier_cfg & Hcfg & Hgen & Hn & _ & Hth & Hd).
  exists manifest. vm_compute in Hcfg. injection Hcfg as <-.
  repeat split; assumption.
Defined.

Lemma len_map {A B} (f : A -> B) l : len (map f l) = len l.
Proof. unfold len. now rewrite length_map. Qed.

Lemma len_nonneg {A} (l : list A) : 0 <= len l.
Proof. unfold len. lia. Qed.

Lemma grid_length rs alphas lrs ds :
  length (grid rs alphas lrs ds)
  = (length rs * (length alphas * (length lrs * length ds)))%nat.
Proof.
  unfold grid.
  apply flat_map_constant_length. intros r _.
  apply flat_map_constant_length. intros a _.
  apply flat_map_constant_length. intros l _.
  apply length_map.
Qed.

Lemma grid_In rs alphas lrs ds r a l d :
  In (mkConfig r a l d) (grid rs alphas lrs ds)
  <-> In r rs /\ In a alphas /\ In l lrs /\ In d ds.
Proof.
  unfold grid. rewrite in_flat_map. split.
  - intros (r' & Hr & Hin). apply in_flat_map in Hin as (a' & Ha & Hin).
    apply in_flat_map in Hin as (l' & Hl & Hin).
    apply in_map_iff in Hin as (d' & Heq & Hd).
    injection Heq as -> -> -> ->. auto.
  - intros (Hr & Ha & Hl & Hd). exists r. split; [assumption|].
    apply in_flat_map. exists a. split; [assumption|].
    apply in_flat_map. exists l. split; [assumption|].
    apply in_map_iff. eauto.
Qed.

(** X10: without a sample size, with the sample size 0, or with one that is
    not below the size of the grid, the sweep is the whole grid in the order
    of [itertools.product], each configuration with the tier and rationale
    of [assign_tier]: as many entries as the product of the four lengths,
    and a configuration is in it exactly when each of its four values is in
    its list. *)
Theorem sweep_without_sampling_is_grid
    choose r_values alpha_values lr_values dropout_values sample_size :
  let configs := grid r_values alpha_values lr_values dropout_values in
  (sample_size = None \/ sample_size = Some 0
   \/ exists n, sample_size = Some n /\ len configs <= n) ->
  sweep_configs choose r_values alpha_values lr_values dropout_values
                sample_size false = Ret (map classify configs)
  /\ length configs
     = (length r_values * (length alpha_values
                           * (length lr_values * length dropout_values)))%nat
  /\ (forall r a l d,
        In (mkConfig r a l d) configs
        <-> In r r_values /\ In a alpha_values /\ In l lr_values /\ In d dropout_values).
Proof.
  intros configs Hsize. split; [|split].
  - unfold sweep_configs. fold configs.
    destruct Hsize as [->|[->|(n & -> & Hn)]]; try reflexivity.
    rewrite len_map.
    destruct (Z.ltb_spec n (len configs)); [lia|].
    now rewrite andb_false_r.
  - apply grid_length.
  - intros r a l d. apply grid_In.
Qed.

(** The default grid with the sample size 0: all 54 combinations. *)
Lemma sweep_without_sampling_default :
  exists entries,
    sweep_configs choose_first default_r_values default_alpha_values
                  default_lr_values default_dropout_values (Some 0) false
    = Ret entries
    /\ length entries = 54%nat.
Proof.
  destruct (sweep_without_sampling_is_grid choose_first default_r_values
              default_alpha_values default_lr_values default_dropout_values (Some 0)
              ltac:(right; left; reflexivity))
    as (Hrun & Hlen & _).
  eexists. split; [exact Hrun|]. rewrite length_map, Hlen. reflexivity.
Defined.

(** X11: a negative sample size passes the guard of the sampling branch
    (it is truthy and below the size of every grid) and makes the first draw
    raise [ValueError], whatever the grid holds: no manifest is generated. *)
Theorem sweep_negative_sample_size_raises
    choose r_values alpha_values lr_values dropout_values n :
  n < 0 ->
  sweep_configs choose r_values alpha_values lr_values dropout_values (Some n) false
    = Raise (ValueError "Sample larger than population or is negative")
  /\ generate_sweep choose r_values alpha_values lr_values dropout_values (Some n) false
     = Raise (ValueError "Sample larger than population or is negative").
Proof.
  intros Hn.
  assert (Hconfigs :
    sweep_configs choose r_values alpha_values lr_values dropout_values (Some n) false
    = Raise (ValueError "Sample larger than population or is negative")).
  { unfold sweep_configs.
    set (all_configs := map classify _).
    pose proof (len_nonneg all_configs) as Hall.
    destruct (Z.eqb_spec n 0); [lia|].
    destruct (Z.ltb_spec n (len all_configs)); [|lia]. cbn [negb andb].
    set (tier1 := filter _ all_configs).
    pose proof (len_nonneg tier1) as H1.
    assert (Hdiv : n / 3 < 0) by (apply Z.div_lt_upper_bound; lia).
    unfold random_sample at 1.
    destruct (Z.ltb_spec (Z.min (Z.min (len tier1) (n / 3)) (len tier1)) 0); [|lia].
    reflexivity. }
  split; [assumption|]. unfold generate_sweep. now rewrite Hconfigs.
Qed.

Lemma sweep_negative_sample_size_default :
  generate_sweep choose_first default_r_values default_alpha_values
                 default_lr_values default_dropout_values (Some (-1)) false
  = Raise (ValueError "Sample larger than population or is negative").
Proof.
  refine (proj2 (sweep_negative_sample_size_raises choose_first default_r_values
                   default_alpha_values default_lr_values default_dropout_values
                   (-1) _)).
  lia.
Defined.

(** X12: with a positive sample size below the size of the grid, and a
    generator whose draw of [k] from a population is [k] of its elements, no
    draw raises, and the sample is made of three parts in this order:
    [min(|tier 1|, n // 3)] entries of the grid that [assign_tier] made
    baseline, [min(|tier 2|, n // 3)] that it made promising and, of those
    it made longshots, what is left of [n] or all of them.  So the sample
    never has more than [n] entries, and it has fewer than [n] when the
    tiers of the grid are too small to fill their shares. *)
Theorem sweep_sample_sizes
    choose r_values alpha_values lr_values dropout_values n :
  (forall call population k,
      (k <= length population)%nat ->
      length (choose call population k) = k
      /\ incl (choose call population k) population) ->
  0 < n ->
  n < len (grid r_values alpha_values lr_values dropout_values) ->
  let all_configs :=
    map classify (grid r_values alpha_values lr_values dropout_values) in
  let tier k := filter (fun c => entry_tier c =? k) all_configs in
  let drawn_from k sample :=
    forall c, In c sample -> In c all_configs /\ entry_tier c = k in
  exists s1 s2 s3,
    sweep_configs choose r_values alpha_values lr_values dropout_values (Some n) false
      = Ret (s1 ++ s2 ++ s3)%list
    /\ drawn_from ExperimentTier.BASELINE s1
    /\ drawn_from ExperimentTier.PROMISING s2
    /\ drawn_from ExperimentTier.LONGSHOT s3
    /\ len s1 = Z.min (len (tier ExperimentTier.BASELINE)) (n / 3)
    /\ len s2 = Z.min (len (tier ExperimentTier.PROMISING)) (n / 3)
    /\ len s3 = Z.min (len (tier ExperimentTier.LONGSHOT)) (n - len s1 - len s2)
    /\ len (s1 ++ s2 ++ s3)%list <= n.
Proof.
  intros Hchoose Hpos Hlt all_configs tier drawn_from.
  unfold sweep_configs. fold all_configs.
  fold (tier ExperimentTier.BASELINE) (tier ExperimentTier.PROMISING)
       (tier ExperimentTier.LONGSHOT).
  destruct (Z.eqb_spec n 0); [lia|].
  destruct (Z.ltb_spec n (len all_configs));
    [|unfold all_configs in *; rewrite len_map in *; lia].
  cbn [negb andb].
  pose proof (len_nonneg (tier ExperimentTier.BASELINE)) as H1.
  pose proof (len_nonneg (tier ExperimentTier.PROMISING)) as H2.
  pose proof (len_nonneg (tier ExperimentTier.LONGSHOT)) as H3.
  assert (Hdiv : 0 <= n / 3 /\ 3 * (n / 3) <= n).
  { split; [apply Z.div_pos; lia|apply Z.mul_div_le; lia]. }
  set (n1 := Z.min (len (tier ExperimentTier.BASELINE)) (n / 3)).
  set (n2 := Z.min (len (tier ExperimentTier.PROMISING)) (n / 3)).
  set (n3 := Z.min (len (tier ExperimentTier.LONGSHOT)) (n - n1 - n2)).
  assert (Hdraw : forall call j k,
            0 <= k <= len (tier j) ->
            random_sample choose call (tier j) k
              = Ret (choose call (tier j) (Z.to_nat k))
            /\ len (choose call (tier j) (Z.to_nat k)) = k
            /\ drawn_from j (choose call (tier j) (Z.to_nat k))).
  { intros call j k Hk. unfold random_sample.
    destruct (Z.ltb_spec k 0); [lia|].
    destruct (Z.ltb_spec (len (tier j)) k); [lia|]. split; [reflexivity|].
    destruct (Hchoose call (tier j) (Z.to_nat k)) as [Hlen Hincl];
      [unfold len in *; lia|].
    split; [unfold len in *; rewrite Hlen; lia|].
    intros c Hc. apply Hincl in Hc. unfold tier in Hc.
    apply filter_In in Hc as [Hin Htier]. split; [assumption|now apply Z.eqb_eq]. }
  destruct (Hdraw 0%nat ExperimentTier.BASELINE
              (Z.min n1 (len (tier ExperimentTier.BASELINE))) ltac:(lia))
    as (-> & Hl1 & Hd1).
  destruct (Hdraw 1%nat ExperimentTier.PROMISING
              (Z.min n2 (len (tier ExperimentTier.PROMISING))) ltac:(lia))
    as (-> & Hl2 & Hd2).
  destruct (Hdraw 2%nat ExperimentTier.LONGSHOT
              (Z.min n3 (len (tier ExperimentTier.LONGSHOT))) ltac:(lia))
    as (-> & Hl3 & Hd3).
  eexists _, _, _. split; [reflexivity|].
  split; [exact Hd1|]. split; [exact Hd2|]. split; [exact Hd3|].
  rewrite Hl1, Hl2. split; [lia|]. split; [lia|]. split; [rewrite Hl3; lia|].
  unfold len in *. rewrite !length_app. lia.
Qed.

(** Nine of the default grid: three of each tier. *)
Lemma sweep_sample_sizes_default :
  exists s1 s2 s3,
    sweep_configs choose_first default_r_values default_alpha_values
                  default_lr_values default_dropout_values (Some 9) false
      = Ret (s1 ++ s2 ++ s3)%list
    /\ Forall (fun c => entry_tier c = ExperimentTier.BASELINE) s1
    /\ Forall (fun c => entry_tier c = ExperimentTier.PROMISING) s2
    /\ Forall (fun c => entry_tier c = ExperimentTier.LONGSHOT) s3
    /\ len s1 = 3 /\ len s2 = 3 /\ len s3 = 3.
Proof.
  destruct (sweep_sample_sizes choose_first default_r_values default_alpha_values
              default_lr_values default_dropout_values 9)
    as (s1 & s2 & s3 & Hrun & Hd1 & Hd2 & Hd3 & H1 & H2 & H3 & _).
  - intros call population k Hk. split; [now apply firstn_length_le|].
    intros c Hc. rewrite <- (firstn_skipn k population). apply in_or_app. now left.
  - lia.
  - vm_compute. reflexivity.
  - exists s1, s2, s3. split; [exact Hrun|].
    split; [apply Forall_forall; intros c Hc; now apply Hd1|].
    split; [apply Forall_forall; intros c Hc; now apply Hd2|].
    split; [apply Forall_forall; intros c Hc; now apply Hd3|].
    rewrite H3, H1, H2. vm_compute. repeat split.
Defined.

(** Nine of the grid with the one rank 16, all of it baseline: only
    three. *)
Example sweep_sample_falls_short :
  exists entries,
    sweep_configs choose_first [16] default_alpha_values default_lr_values
                  default_dropout_values (Some 9) false = Ret entries
    /\ length entries = 3%nat
    /\ length (grid [16] default_alpha_values default_lr_values default_dropout_values)
       = 27%nat.
Proof. eexists. split; [vm_compute; reflexivity|]. split; reflexivity. Qed.

Lemma float_eqb_eq x y : float_eqb x y = true -> x = y.
Proof.
  destruct x as [s|s| |s m e], y as [s'|s'| |s' m' e']; simpl; try discriminate;
    try reflexivity.
  - intros H. apply Bool.eqb_prop in H. now subst.
  - intros H. apply Bool.eqb_prop in H. now subst.
  - intros H. apply andb_prop in H as [H He]. apply andb_prop in H as [Hs Hm].
    apply Bool.eqb_prop in Hs. apply Pos.eqb_eq in Hm. apply Z.eqb_eq in He.
    now subst.
Qed.

Lemma config_eqb_eq c c' : config_eqb c c' = true -> c = c'.
Proof.
  destruct c, c'. unfold config_eqb. simpl. intros H.
  apply andb_prop in H as [H Hd]. apply andb_prop in H as [H Hl].
  apply andb_prop in H as [Hr Ha].
  apply Z.eqb_eq in Hr, Ha. apply float_eqb_eq in Hl, Hd. now subst.
Qed.

Lemma included_incl l l' : included l l' = true -> incl l l'.
Proof.
  unfold included. intros H c Hc.
  apply (proj1 (forallb_forall _ _) H) in Hc.
  apply existsb_exists in Hc as (c' & Hin & Heq).
  apply config_eqb_eq in Heq. now subst.
Qed.

(** X13: with the core subset switched on, the sweep does not look at the
    four value lists nor at the sample size: it is the 21 curated
    configurations, which [assign_tier] puts in the tiers their comments
    announce, eight baseline, then four promising, then nine longshots.
    They are the configurations of the router's campaign, in another order,
    and their 21 manifests have 21 different names, so no manifest file
    overwrites another. *)
Theorem sweep_core_subset
    choose r_values alpha_values lr_values dropout_values sample_size :
  sweep_configs choose r_values alpha_values lr_values dropout_values
                sample_size true = Ret (map classify targeted_configs)
  /\ map entry_tier (map classify targeted_configs)
     = (repeat ExperimentTier.BASELINE 8 ++ repeat ExperimentTier.PROMISING 4
          ++ repeat ExperimentTier.LONGSHOT 9)%list
  /\ (forall c, In c targeted_configs <-> In c EXPERIMENT_CONFIGS)
  /\ exists manifests,
       generate_sweep choose r_values alpha_values lr_values dropout_values
                      sample_size true = Ret manifests
       /\ length manifests = 21%nat
       /\ NoDup (map manifest_name manifests).
Proof.
  split; [reflexivity|]. split; [vm_compute; reflexivity|]. split.
  - intros c. split; apply included_incl; vm_compute; reflexivity.
  - unfold generate_sweep, sweep_configs.
    assert (Hm : exists manifests,
               manifests_of (map classify targeted_configs) = Ret manifests
               /\ length manifests = 21%nat
               /\ distinct_names (map (fun m => Ret (manifest_name m)) manifests) = true).
    { eexists. split; [vm_compute; reflexivity|]. split; vm_compute; reflexivity. }
    destruct Hm as (manifests & Hm & Hlen & Hd).
    exists manifests. split; [assumption|]. split; [assumption|].
    apply distinct_names_NoDup in Hd. rewrite <- map_map in Hd.
    now apply NoDup_map_inv in Hd.
Qed.
